(** * A schema-aware document access layer: query translation, schema
      registry, model cache, document routes and backup restore.

    The development follows the JavaScript sources route by route.  Every
    definition names the source function or the handler it embeds.

    Conventions of the embedding:
    - JavaScript strings are modelled by [string]; the helpers below work on
      the ASCII range, where they agree with the JavaScript built-ins;
    - the numbers that the list handlers compute with (page, limit, skip,
      counts) are JavaScript doubles: exact integers up to 2^53, rounded to
      the nearest double beyond, with the infinities and NaN;
    - an object that a handler fills key by key is the list of its own
      entries in the key order of the language: array indices first, in
      ascending order, then the other keys in the order of their creation;
    - a handler is a state transformer over the server state and returns the
      response it sends; every database call it issues is appended to a log;
    - the database is reachable and the names of collections are names that
      it accepts: a call fails only for a reason that lies in its arguments
      or in the stored data; what the query engine makes of a query, and
      whether a unique index turns a document down, is left to a
      collaborator ([Engine]);
    - request bodies are JSON objects of the documented wire shapes (the
      backup handed to a restore has the shape that the backup handler
      answers with), every key of a query string has one string value, and
      the [pattern] of a field is a well-formed regular expression, so that
      [new RegExp(pattern)] does not throw. *)

From Stdlib Require Import ZArith QArith Qround Ascii String List Lia.
From stdpp Require Import base option list gmap strings pretty.

Local Open Scope string_scope.
Local Open Scope Z_scope.

(** ** JavaScript built-ins used by the routes *)

Module JS.

(** [s.startsWith(p)] *)
Fixpoint startsWith (s p : string) {struct p} : bool :=
  match p, s with
  | EmptyString, _ => true
  | String a p', String b s' => Ascii.eqb a b && startsWith s' p'
  | String _ _, EmptyString => false
  end.

(** [s.substring(n)] with a single argument: drop the first [n] code units. *)
Fixpoint substring (s : string) (n : nat) : string :=
  match n, s with
  | O, _ => s
  | S _, EmptyString => EmptyString
  | S n', String _ s' => substring s' n'
  end.

(** [s.includes(c)] for a one-character needle. *)
Fixpoint includes (s : string) (c : ascii) : bool :=
  match s with
  | EmptyString => false
  | String a s' => if Ascii.eqb a c then true else includes s' c
  end.

(** [s.split(c)] for a one-character separator: never returns the empty
    list, the empty string splits to one empty piece. *)
Fixpoint split (s : string) (c : ascii) : list string :=
  match s with
  | EmptyString => [EmptyString]
  | String a s' =>
      if Ascii.eqb a c then EmptyString :: split s' c
      else match split s' c with
           | [] => [String a EmptyString]
           | p :: ps => String a p :: ps
           end
  end.

Definition isUpper (a : ascii) : bool :=
  let n := nat_of_ascii a in (65 <=? n)%nat && (n <=? 90)%nat.

Definition lowerChar (a : ascii) : ascii :=
  if isUpper a then ascii_of_nat (nat_of_ascii a + 32) else a.

(** [s.toLowerCase()] *)
Fixpoint toLowerCase (s : string) : string :=
  match s with
  | EmptyString => EmptyString
  | String a s' => String (lowerChar a) (toLowerCase s')
  end.

(** White space of the ASCII range: TAB, LF, VT, FF, CR and SPACE. *)
Definition isSpace (a : ascii) : bool :=
  let n := nat_of_ascii a in
  ((9 <=? n)%nat && (n <=? 13)%nat) || (n =? 32)%nat.

Fixpoint trimStart (s : string) : string :=
  match s with
  | EmptyString => EmptyString
  | String a s' => if isSpace a then trimStart s' else s
  end.

(** Drops trailing white space; written right to left. *)
Fixpoint trimEnd (s : string) : string :=
  match s with
  | EmptyString => EmptyString
  | String a s' =>
      match trimEnd s' with
      | EmptyString => if isSpace a then EmptyString else String a EmptyString
      | t => String a t
      end
  end.

(** [s.trim()] *)
Definition trim (s : string) : string := trimEnd (trimStart s).

Definition isDigit (a : ascii) : bool :=
  let n := nat_of_ascii a in (48 <=? n)%nat && (n <=? 57)%nat.

Definition digitVal (a : ascii) : Z := Z.of_nat (nat_of_ascii a) - 48.

(** Value of a hexadecimal digit, if the character is one. *)
Definition hexVal (a : ascii) : option Z :=
  let n := nat_of_ascii a in
  if isDigit a then Some (Z.of_nat n - 48)
  else if (97 <=? n)%nat && (n <=? 102)%nat then Some (Z.of_nat n - 87)
  else if (65 <=? n)%nat && (n <=? 70)%nat then Some (Z.of_nat n - 55)
  else None.

(** Longest prefix of decimal digits, and the rest. *)
Fixpoint spanDigits (s : string) : string * string :=
  match s with
  | EmptyString => (EmptyString, EmptyString)
  | String a s' =>
      if isDigit a then let '(d, r) := spanDigits s' in (String a d, r)
      else (EmptyString, s)
  end.

(** Value of a string of decimal digits, most significant first. *)
Fixpoint digitsValue (acc : Z) (s : string) : Z :=
  match s with
  | EmptyString => acc
  | String a s' => digitsValue (10 * acc + digitVal a) s'
  end.

(** Longest prefix of hexadecimal digits read as a number; [None] when
    the string does not start with a hexadecimal digit. *)
Fixpoint hexPrefix (acc : option Z) (s : string) : option Z :=
  match s with
  | EmptyString => acc
  | String a s' =>
      match hexVal a with
      | Some v => hexPrefix (Some (16 * default 0 acc + v)) s'
      | None => acc
      end
  end.

(** An optional leading sign: [true] for a minus. *)
Definition takeSign (s : string) : bool * string :=
  match s with
  | String c s' =>
      if Ascii.eqb c "-" then (true, s')
      else if Ascii.eqb c "+" then (false, s')
      else (false, s)
  | EmptyString => (false, s)
  end.

(** A JavaScript number as far as the routes compute it from text: the
    decimal [mant * 10^exp10] with its sign stands for the double nearest
    to it. *)
Inductive Number : Type :=
| NaN
| Infinity (neg : bool)
| Dec (neg : bool) (mant : Z) (exp10 : Z).

(** The exponent part of a decimal literal: [e] or [E], an optional sign
    and at least one digit; 0 when there is none. *)
Definition exponentPart (s : string) : Z :=
  match s with
  | String c s' =>
      if Ascii.eqb c "e" || Ascii.eqb c "E" then
        let '(neg, r) := takeSign s' in
        let '(d, _) := spanDigits r in
        match d with
        | EmptyString => 0
        | _ => if neg then - digitsValue 0 d else digitsValue 0 d
        end
      else 0
  | EmptyString => 0
  end.

(** [parseFloat(s)]: skips leading white space and reads the longest
    prefix that is a decimal literal; [NaN] when there is none. *)
Definition parseFloat (s : string) : Number :=
  let '(neg, r) := takeSign (trimStart s) in
  if startsWith r "Infinity" then Infinity neg
  else
    let '(ip, r1) := spanDigits r in
    let '(fp, r2) :=
      match r1 with
      | String "." r1' => spanDigits r1'
      | _ => (EmptyString, r1)
      end in
    match ip, fp with
    | EmptyString, EmptyString => NaN
    | _, _ =>
        Dec neg (digitsValue 0 (ip ++ fp))
            (exponentPart r2 - Z.of_nat (String.length fp))
    end.

(** The digits that [parseInt] reads after the sign: hexadecimal after
    [0x]/[0X], decimal otherwise; [None] when there is no digit. *)
Definition parseMagnitude (r : string) : option Z :=
  if startsWith r "0x" || startsWith r "0X" then hexPrefix None (substring r 2)
  else
    let '(d, _) := spanDigits r in
    match d with
    | EmptyString => None
    | _ => Some (digitsValue 0 d)
    end.

(** The integer that [parseInt(s)] reads, without a radix: leading white
    space, a sign, then the digits; [None] when there is no digit. *)
Definition readInt (s : string) : option Z :=
  let '(neg, r) := takeSign (trimStart s) in
  (fun m => if neg then - m else m) <$> parseMagnitude r.

(** An integer-valued JavaScript number: [parseInt], the count of a query
    and the arithmetic of the list handlers on them produce nothing else.
    A finite one is a double, hence exact up to 2^53 and rounded beyond.
    Negative zero is not told apart from zero: the routes test it for
    truthiness and multiply it, nothing more. *)
Inductive Integral : Type :=
| NotANumber
| Infinite (neg : bool)
| Finite (z : Z).

(** The double nearest to an integer, ties to the even significand: a
    double keeps 53 significant bits, and what rounds to 2^1024 or beyond
    is an infinity.  [parseInt] ends with this conversion and every
    arithmetic operation rounds its exact result this way. *)
Definition toNumber (z : Z) : Integral :=
  let a := Z.abs z in
  let excess := Z.log2 a - 52 in
  if excess <=? 0 then Finite z
  else
    let unit := 2 ^ excess in
    let q := a / unit in
    let r := a mod unit in
    let half := unit / 2 in
    let q' := if (half <? r) || ((r =? half) && Z.odd q) then q + 1 else q in
    let v := q' * unit in
    if 2 ^ 1024 <=? v then Infinite (z <? 0) else Finite (Z.sgn z * v).

(** [parseInt(s)] *)
Definition parseInt (s : string) : Integral :=
  match readInt s with
  | Some z => toNumber z
  | None => NotANumber
  end.

(** [parseInt(undefined)]: the argument is first converted to the string
    "undefined". *)
Definition parseIntOpt (v : option string) : Integral :=
  parseInt (default "undefined" v).

(** [x || d] on a number: NaN and 0 are falsy. *)
Definition orDefault (x d : Integral) : Integral :=
  match x with
  | NotANumber => d
  | Finite z => if z =? 0 then d else x
  | Infinite _ => x
  end.

(** [x - y] *)
Definition sub (x y : Integral) : Integral :=
  match x, y with
  | NotANumber, _ | _, NotANumber => NotANumber
  | Infinite n, Infinite m => if Bool.eqb n m then NotANumber else Infinite n
  | Infinite n, Finite _ => Infinite n
  | Finite _, Infinite m => Infinite (negb m)
  | Finite a, Finite b => toNumber (a - b)
  end.

(** [x * y] *)
Definition mul (x y : Integral) : Integral :=
  match x, y with
  | NotANumber, _ | _, NotANumber => NotANumber
  | Infinite n, Infinite m => Infinite (xorb n m)
  | Infinite n, Finite b =>
      if b =? 0 then NotANumber else Infinite (xorb n (b <? 0))
  | Finite a, Infinite m =>
      if a =? 0 then NotANumber else Infinite (xorb (a <? 0) m)
  | Finite a, Finite b => toNumber (a * b)
  end.

(** The integer nearest to [n / d] for [0 < d], ties to the even one. *)
Definition nearestEven (n d : Z) : Z :=
  let q := n / d in
  let r := n mod d in
  if 2 * r <? d then q
  else if d <? 2 * r then q + 1
  else if Z.even q then q else q + 1.

(** The double nearest to the quotient [n / d] of two doubles [0 <= n] and
    [0 < d] that are integers, as significand and exponent: the double is
    [m * 2^e].  The exponent leaves 53 significant bits and is not below
    that of the subnormal doubles. *)
Definition quotient (n d : Z) : Z * Z :=
  let e := Z.max (-1074) (Z.log2 (n * 2 ^ 1074 / d) - 1126) in
  let m := if e <? 0 then nearestEven (n * 2 ^ (- e)) d
           else nearestEven n (d * 2 ^ e) in
  (m, e).

(** The least integer not below [m * 2^e]. *)
Definition ceilDyadic (m e : Z) : Z :=
  if e <? 0 then - ((- m) / 2 ^ (- e)) else m * 2 ^ e.

(** [Math.ceil(x / y)] *)
Definition ceilDiv (x y : Integral) : Integral :=
  match x, y with
  | NotANumber, _ | _, NotANumber => NotANumber
  | Infinite _, Infinite _ => NotANumber
  | Infinite n, Finite b => Infinite (xorb n (b <? 0))
  | Finite _, Infinite _ => Finite 0
  | Finite a, Finite b =>
      if b =? 0 then
        if a =? 0 then NotANumber else Infinite (a <? 0)
      else
        let '(m, e) := quotient (Z.abs a) (Z.abs b) in
        if Bool.eqb (a <? 0) (b <? 0) then Finite (ceilDyadic m e)
        else Finite (ceilDyadic (- m) e)
  end.

Fixpoint allChars (p : ascii -> bool) (s : string) : bool :=
  match s with
  | EmptyString => true
  | String a s' => p a && allChars p s'
  end.

Definition nonEmpty (s : string) : bool :=
  match s with EmptyString => false | _ => true end.

(** Whether the whole string is an unsigned decimal literal
    (digits, optional fraction, optional exponent). *)
Definition isUnsignedDecimal (s : string) : bool :=
  let '(ip, r1) := spanDigits s in
  let '(fp, r2) :=
    match r1 with
    | String "." r1' => spanDigits r1'
    | _ => (EmptyString, r1)
    end in
  (nonEmpty ip || nonEmpty fp) &&
  match r2 with
  | EmptyString => true
  | String c r3 =>
      (Ascii.eqb c "e" || Ascii.eqb c "E") &&
      (let '(_, r4) := takeSign r3 in nonEmpty r4 && allChars isDigit r4)
  end.

Definition isBinDigit (a : ascii) : bool := Ascii.eqb a "0" || Ascii.eqb a "1".
Definition isOctDigit (a : ascii) : bool :=
  let n := nat_of_ascii a in (48 <=? n)%nat && (n <=? 55)%nat.
Definition isHexDigit (a : ascii) : bool :=
  match hexVal a with Some _ => true | None => false end.

(** Whether [Number(s)] is a number: the trimmed string is empty (it
    converts to 0), a signed decimal literal or [Infinity], or an unsigned
    [0x], [0o] or [0b] literal. *)
Definition isNumeric (s : string) : bool :=
  let t := trim s in
  match t with
  | EmptyString => true
  | String "0" (String k r) =>
      if Ascii.eqb k "x" || Ascii.eqb k "X" then nonEmpty r && allChars isHexDigit r
      else if Ascii.eqb k "o" || Ascii.eqb k "O" then nonEmpty r && allChars isOctDigit r
      else if Ascii.eqb k "b" || Ascii.eqb k "B" then nonEmpty r && allChars isBinDigit r
      else isUnsignedDecimal t
  | _ =>
      let '(_, r) := takeSign t in
      String.eqb r "Infinity" || isUnsignedDecimal r
  end.

(** [isNaN(s)] on a string argument. *)
Definition isNaN_string (s : string) : bool := negb (isNumeric s).

(** [s.replace(pattern, replacement)] with a string pattern: only the first
    occurrence is replaced (the replacement is taken literally; the routes
    only pass the empty string). *)
Fixpoint replace (s pattern replacement : string) : string :=
  if startsWith s pattern
  then replacement ++ substring s (String.length pattern)
  else match s with
       | EmptyString => EmptyString
       | String c s' => String c (replace s' pattern replacement)
       end.

(** [isNaN(x)] on a number. *)
Definition isNaN (x : Number) : bool :=
  match x with NaN => true | _ => false end.

(** *** Objects filled key by key *)

(** An array index: the canonical decimal form of an integer below
    2^32 - 1.  Such keys come first among the own keys of an object, in
    ascending order; the other keys follow in the order of their
    creation. *)
Definition arrayIndex (k : string) : option Z :=
  if nonEmpty k && allChars isDigit k &&
     (String.eqb k "0" || negb (startsWith k "0")) &&
     (digitsValue 0 k <? 2 ^ 32 - 1)
  then Some (digitsValue 0 k) else None.

(** The place of a new array index among the entries. *)
Fixpoint insertIndex {V : Type} (i : Z) (k : string) (v : V)
    (o : list (string * V)) : list (string * V) :=
  match o with
  | [] => [(k, v)]
  | (k', v') :: o' =>
      match arrayIndex k' with
      | Some j => if j <? i then (k', v') :: insertIndex i k v o'
                  else (k, v) :: o
      | None => (k, v) :: o
      end
  end.

Definition hasOwn {V : Type} (k : string) (o : list (string * V)) : bool :=
  existsb (fun e => String.eqb (fst e) k) o.

(** [o[k] = v] on an object literal given by its own entries in key order:
    an existing key keeps its place, a new one is placed as said above.
    The key [__proto__] is the accessor inherited from [Object.prototype]:
    assigning to it creates no own key (an object as value becomes the
    prototype, any other value is dropped). *)
Definition setProperty {V : Type} (k : string) (v : V) (o : list (string * V))
    : list (string * V) :=
  if String.eqb k "__proto__" then o
  else if hasOwn k o
  then (fun e => if String.eqb (fst e) k then (k, v) else e) <$> o
  else match arrayIndex k with
       | Some i => insertIndex i k v o
       | None => o ++ [(k, v)]
       end.

(** The names that every object literal and every parsed JSON object
    inherits from [Object.prototype]. *)
Definition prototypeMembers : list string :=
  ["constructor"; "__defineGetter__"; "__defineSetter__"; "hasOwnProperty";
   "__lookupGetter__"; "__lookupSetter__"; "isPrototypeOf";
   "propertyIsEnumerable"; "toString"; "valueOf"; "__proto__";
   "toLocaleString"].

Definition isPrototypeMember (k : string) : bool :=
  existsb (String.eqb k) prototypeMembers.

End JS.

(** ** Validators of the request chains (express-validator over validator.js) *)

Module Validator.

(** [isInt(str, {min, max})]: an optional sign and decimal digits, with the
    value inside the given bounds. *)
Definition isInt (min max : option Z) (str : string) : bool :=
  let '(neg, r) := JS.takeSign str in
  JS.nonEmpty r && JS.allChars JS.isDigit r &&
  (let v := if neg then - JS.digitsValue 0 r else JS.digitsValue 0 r in
   match min with Some lo => lo <=? v | None => true end &&
   match max with Some hi => v <=? hi | None => true end).

(** [isHexadecimal(str)]: hexadecimal digits after an optional [0x] or
    [0h] prefix. *)
Definition isHexadecimal (str : string) : bool :=
  let plain s := JS.nonEmpty s && JS.allChars JS.isHexDigit s in
  plain str ||
  match str with
  | String "0" (String k r) =>
      (Ascii.eqb k "x" || Ascii.eqb k "X" || Ascii.eqb k "h" || Ascii.eqb k "H")
      && plain r
  | _ => false
  end.

(** [isMongoId(str)] *)
Definition isMongoId (str : string) : bool :=
  isHexadecimal str && (String.length str =? 24)%nat.

(** One entry of [errors.array()]: the offending field and the message
    given to [withMessage]. *)
Record ValidationError : Type := mkError { path : string; msg : string }.

(** [check(field).optional().<validator>().withMessage(m)]: an absent value
    passes. *)
Definition optional (field m : string) (ok : string -> bool)
    (v : option string) : list ValidationError :=
  match v with
  | None => []
  | Some s => if ok s then [] else [mkError field m]
  end.

(** [check(field).<validator>().withMessage(m)] on a value that the router
    always supplies (a path parameter). *)
Definition required (field m : string) (ok : string -> bool)
    (s : string) : list ValidationError :=
  if ok s then [] else [mkError field m].

End Validator.

(** ** Query translation (the list handlers of both document routers)

    The two list handlers, [GET /:collection] of the universal router and
    [GET /:collectionName/documents] of the collections router, carry the
    same translation code line for line; it is embedded once. *)

Module QueryTranslator.

(** What the handler stores under [query[key]]. *)
Inductive Predicate : Type :=
| P_gt (n : JS.Number)                     (* { $gt: n } *)
| P_lt (n : JS.Number)                     (* { $lt: n } *)
| P_gte (n : JS.Number)                    (* { $gte: n } *)
| P_lte (n : JS.Number)                    (* { $lte: n } *)
| P_ne (s : string)                        (* { $ne: s } *)
| P_regex (pattern options : string)       (* { $regex: p, $options: o } *)
| P_in (l : list string)                   (* { $in: l } *)
| P_bool (b : bool)
| P_number (n : JS.Number)
| P_string (s : string).

Definition reserved : list string := ["page"; "limit"; "sort"; "fields"].

(** [['page', 'limit', 'sort', 'fields'].includes(key)] *)
Definition isReserved (key : string) : bool :=
  existsb (String.eqb key) reserved.

(** The chain of [if]/[else if] on one raw value, in the order of the
    source. *)
Definition translateValue (value : string) : Predicate :=
  if JS.startsWith value ">" then P_gt (JS.parseFloat (JS.substring value 1))
  else if JS.startsWith value "<" then P_lt (JS.parseFloat (JS.substring value 1))
  else if JS.startsWith value ">=" then P_gte (JS.parseFloat (JS.substring value 2))
  else if JS.startsWith value "<=" then P_lte (JS.parseFloat (JS.substring value 2))
  else if JS.startsWith value "!=" then P_ne (JS.substring value 2)
  else if JS.startsWith value "~" then P_regex (JS.substring value 1) "i"
  else if JS.includes value "," then P_in (JS.split value ",")
  else if String.eqb value "true" then P_bool true
  else if String.eqb value "false" then P_bool false
  else if negb (JS.isNaN_string value) && negb (JS.isNaN (JS.parseFloat value))
    then P_number (JS.parseFloat value)
  else P_string value.

(** [Object.keys(req.query)]: the keys of the parsed query string. *)
Definition keys (q : gmap string string) : list string := (map_to_list q).*1.

(** One turn of the [forEach] over the keys: [query[key] = ...] unless the
    key is reserved. *)
Definition step (q : gmap string string) (acc : gmap string Predicate)
    (key : string) : gmap string Predicate :=
  if isReserved key then acc
  else match q !! key with
       | Some value => <[key := translateValue value]> acc
       | None => acc
       end.

(** The filter object [query] after the loop. *)
Definition buildFilter (q : gmap string string) : gmap string Predicate :=
  foldl (step q) ∅ (keys q).

(** The direction stored in the sort object. *)
Inductive Direction : Type := Ascending | Descending.

(** One turn of the [forEach] over the comma-separated sort fields:
    [sort[sortField.substring(1)] = -1] or [sort[sortField] = 1]. *)
Definition sortStep (acc : list (string * Direction)) (sortField : string)
    : list (string * Direction) :=
  if JS.startsWith sortField "-"
  then JS.setProperty (JS.substring sortField 1) Descending acc
  else JS.setProperty sortField Ascending acc.

(** The sort object, by its own entries in key order: the empty string is
    falsy, so an absent or empty [sort] parameter gives the default
    [createdAt: -1]. *)
Definition buildSort (q : gmap string string) : list (string * Direction) :=
  match q !! "sort" with
  | Some s =>
      if JS.nonEmpty s then foldl sortStep [] (JS.split s ",")
      else [("createdAt", Descending)]
  | None => [("createdAt", Descending)]
  end.

(** The projection object, by its own keys in key order (every value is
    1): [acc[field.trim()] = 1] for every piece. *)
Definition buildFields (q : gmap string string) : list string :=
  match q !! "fields" with
  | Some s =>
      if JS.nonEmpty s
      then fst <$> foldl (fun acc field => JS.setProperty (JS.trim field) tt acc)
                     [] (JS.split s ",")
      else []
  | None => []
  end.

(** [page], [limit] and [skip] as the handler computes them. *)
Definition pageOf (q : gmap string string) : JS.Integral :=
  JS.orDefault (JS.parseIntOpt (q !! "page")) (JS.Finite 1).
Definition limitOf (q : gmap string string) : JS.Integral :=
  JS.orDefault (JS.parseIntOpt (q !! "limit")) (JS.Finite 10).
Definition skipOf (q : gmap string string) : JS.Integral :=
  JS.mul (JS.sub (pageOf q) (JS.Finite 1)) (limitOf q).

(** The validation chain in front of the list handlers. *)
Definition validateList (q : gmap string string)
    : list Validator.ValidationError :=
  Validator.optional "page" "Page must be a positive integer"
    (Validator.isInt (Some 1) None) (q !! "page") ++
  Validator.optional "limit" "Limit must be between 1 and 1000"
    (Validator.isInt (Some 1) (Some 1000)) (q !! "limit").

(** [Math.ceil(total / limit)] *)
Definition pagesOf (total limit : JS.Integral) : JS.Integral :=
  JS.ceilDiv total limit.

End QueryTranslator.

(** ** Schema definitions (models/Schema.js) *)

(** An opaque JSON value ([mongoose.Schema.Types.Mixed]), kept as its text. *)
Definition Mixed : Type := string.

(** An ObjectId in its canonical form: 24 lower-case hexadecimal digits. *)
Definition ObjectId : Type := string.

(** A point in time ([Date]), in milliseconds. *)
Definition Time : Type := Z.

Module Mongoose.

(** The schema types that [generateMongooseSchema] chooses from. *)
Inductive SchemaType : Type :=
| TString | TNumber | TBoolean | TDate | TObjectId | TArrayOfMixed | TMixed.

(** The [fieldConfig] object built for one field. *)
Record FieldConfig : Type := mkFieldConfig {
  fc_type : SchemaType;
  fc_required : bool;
  fc_unique : bool;
  fc_index : bool;
  fc_default : option Mixed;
  fc_enum : option (list string);
  fc_min : option Z;
  fc_max : option Z;
  fc_minlength : option Z;
  fc_maxlength : option Z;
  fc_match : option string;
  fc_ref : option string
}.

(** [new mongoose.Schema(obj, options)], as the arguments that the
    constructor was given: the definition object, which the schema keeps as
    [schema.obj], and the options; [strict] is true unless the options say
    otherwise.  From these the constructor derives the paths of the schema:
    next to the declared ones it adds [_id] and, with [timestamps], the
    paths [createdAt] and [updatedAt]. *)
Record Schema : Type := mkSchema {
  obj : gmap string FieldConfig;
  strict : bool;
  timestamps : bool;
  collection : string
}.

(** A compiled model: its registered name and the schema it validates
    with. *)
Record Model : Type := mkModel {
  modelName : string;
  schema : Schema
}.

(** The permissive schema of both routers:
    [new mongoose.Schema({}, { collection, strict: false, timestamps: true })]. *)
Definition dynamicSchema (collectionName : string) : Schema :=
  mkSchema ∅ false true collectionName.


(** Casting a path parameter to an ObjectId: 24 hexadecimal digits, read
    case-insensitively; anything else is a CastError. *)
Definition castObjectId (s : string) : option ObjectId :=
  if (String.length s =? 24)%nat && JS.allChars JS.isHexDigit s
  then Some (JS.toLowerCase s) else None.

End Mongoose.

Module SchemaModel.

(** One entry of [fields]; the booleans carry their default [false]. *)
Record FieldDefinition : Type := mkField {
  name : string;
  type : string;
  required : bool;
  unique : bool;
  index : bool;
  default : option Mixed;
  enum : list string;
  min : option Z;
  max : option Z;
  minLength : option Z;
  maxLength : option Z;
  pattern : option string;
  ref : option string
}.

Record IndexOptions : Type := mkIndexOptions {
  io_unique : option bool;
  io_sparse : option bool;
  io_background : option bool
}.

(** One entry of [indexes]. *)
Record IndexDefinition : Type := mkIndexDefinition {
  idx_fields : Mixed;
  idx_options : option IndexOptions
}.

(** A stored schema definition. *)
Record SchemaDoc : Type := mkSchemaDoc {
  _id : ObjectId;
  collectionName : string;
  displayName : string;
  description : option string;
  fields : list FieldDefinition;
  indexes : list IndexDefinition;
  validationRules : option Mixed;
  isActive : bool;
  createdAt : Time;
  updatedAt : Time
}.

(** The allowed values of a field's [type]. *)
Definition fieldTypes : list string :=
  ["String"; "Number"; "Boolean"; "Date"; "ObjectId"; "Array"; "Object"; "Mixed"].

Definition isFieldType (t : string) : bool := existsb (String.eqb t) fieldTypes.

(** The [switch (field.type)] of [generateMongooseSchema], with its
    [default:] branch. *)
Definition fieldType (t : string) : Mongoose.SchemaType :=
  if String.eqb t "String" then Mongoose.TString
  else if String.eqb t "Number" then Mongoose.TNumber
  else if String.eqb t "Boolean" then Mongoose.TBoolean
  else if String.eqb t "Date" then Mongoose.TDate
  else if String.eqb t "ObjectId" then Mongoose.TObjectId
  else if String.eqb t "Array" then Mongoose.TArrayOfMixed
  else if String.eqb t "Object" then Mongoose.TMixed
  else if String.eqb t "Mixed" then Mongoose.TMixed
  else Mongoose.TMixed.

(** A string is truthy when it is present and not empty. *)
Definition truthy (s : option string) : option string :=
  match s with
  | Some v => if JS.nonEmpty v then Some v else None
  | None => None
  end.

(** The [fieldConfig] of one field; [fc_match] keeps the source text of
    [new RegExp(field.pattern)]. *)
Definition fieldConfig (f : FieldDefinition) : Mongoose.FieldConfig :=
  Mongoose.mkFieldConfig
    (fieldType (type f)) (required f) (unique f) (index f)
    (default f)
    (match enum f with [] => None | e => Some e end)
    (min f) (max f) (minLength f) (maxLength f)
    (truthy (pattern f))
    (truthy (ref f)).

(** [schemaFields[field.name] = fieldConfig]: a repeated name keeps the
    last config, and the name [__proto__] creates no key (it sets the
    prototype of the object). *)
Definition setField (acc : gmap string Mongoose.FieldConfig) (f : FieldDefinition)
    : gmap string Mongoose.FieldConfig :=
  if String.eqb (name f) "__proto__" then acc
  else <[name f := fieldConfig f]> acc.

(** [schemaDef.generateMongooseSchema()] *)
Definition generateMongooseSchema (d : SchemaDoc) : Mongoose.Schema :=
  Mongoose.mkSchema (foldl setField ∅ (fields d)) true true (collectionName d).

(** The setters declared on [collectionName]: [lowercase] and [trim].
    Mongoose runs them when a document is built and when a query filter
    is cast. *)
Definition castCollectionName (s : string) : string :=
  JS.trim (JS.toLowerCase s).

Definition castField (f : FieldDefinition) : FieldDefinition :=
  mkField (JS.trim (name f)) (type f) (required f) (unique f) (index f)
    (default f) (enum f) (min f) (max f) (minLength f) (maxLength f)
    (pattern f) (ref f).

(** Document validation run by [save()]: the required strings are not
    empty and every field type is one of the enumeration.  Mongoose checks
    the required and the modified paths; checking every path, as here, is
    the same on documents that were valid when they were stored. *)
Definition validField (f : FieldDefinition) : bool :=
  JS.nonEmpty (name f) && isFieldType (type f).

Definition validate (d : SchemaDoc) : bool :=
  JS.nonEmpty (collectionName d) && JS.nonEmpty (displayName d) &&
  forallb validField (fields d).

End SchemaModel.

(** ** The database and the server state *)

(** What a rejected promise or a thrown exception carries.  The database is
    taken to be reachable: a call fails only for a reason that lies in its
    arguments or in the stored data. *)
Inductive Error : Type :=
| OverwriteModelError (name : string)
| DocumentValidationError
| DuplicateKeyError
| CastError
| IndexOptionsConflict
| BulkWriteError
| TypeError
| QueryError (message : string).


Module Store.

(** A stored document: its identifier and the rest of it. *)
Record Document : Type := mkDocument {
  doc_id : ObjectId;
  doc_body : Mixed
}.

(** An index descriptor as [collection.indexes()] lists it and as a backup
    carries it. *)
Record IndexDescriptor : Type := mkIndex {
  ix_name : string;
  ix_key : Mixed;
  ix_options : option Mixed
}.

(** A raw collection: its documents, keyed by [_id] (the identifier index
    is unique), and the secondary indexes created on it, as (key, options)
    pairs. *)
Record Collection : Type := mkCollection {
  documents : gmap ObjectId Mixed;
  created_indexes : list (Mixed * Mixed)
}.

Definition empty : Collection := mkCollection ∅ [].

(** The filter of a [Schema.findOne] call. *)
Record SchemaFilter : Type := mkFilter {
  by_collectionName : option string;
  by_isActive : option bool
}.

(** Every call that reaches the database. *)
Inductive DbCall : Type :=
| SchemaFind (f : SchemaFilter)
| SchemaFindOne (f : SchemaFilter)
| SchemaFindById (id : string)
| SchemaSave (id : ObjectId)
| ModelFind (coll : string) (filter : gmap string QueryTranslator.Predicate)
    (projection : list string)
    (sort : list (string * QueryTranslator.Direction))
    (skip limit : JS.Integral)
| ModelCountDocuments (coll : string)
    (filter : gmap string QueryTranslator.Predicate)
| ModelFindById (coll : string) (id : string)
| ModelFindByIdAndDelete (coll : string) (id : string)
| CollectionDeleteMany (coll : string)
| CollectionCreateIndex (coll : string) (key options : Mixed)
| CollectionInsertMany (coll : string) (n : nat).

(** How a query ends: with its answer, refused before it reaches the
    database (by the ODM or the driver), or failed in the database. *)
Inductive Outcome (A : Type) : Type :=
| Answered (a : A)
| Refused (e : Error)
| Failed (e : Error).

Arguments Answered {A} a.
Arguments Refused {A} e.
Arguments Failed {A} e.

End Store.

(** The query engine, an external collaborator.  [evalFind] is what
    [model.find(filter, projection).sort(s).skip(k).limit(n).lean()] makes
    of a collection, the filter being cast by the schema of the model;
    [evalCount] is [model.countDocuments(filter)]; [rejects] tells whether
    one of the unique secondary indexes of a collection turns a document
    down, given the documents that the collection holds. *)
Record Engine : Type := mkEngine {
  evalFind :
    Mongoose.Schema -> Store.Collection ->
    gmap string QueryTranslator.Predicate -> list string ->
    list (string * QueryTranslator.Direction) -> JS.Integral -> JS.Integral ->
    Store.Outcome (list Store.Document);
  evalCount :
    Mongoose.Schema -> Store.Collection ->
    gmap string QueryTranslator.Predicate -> Store.Outcome nat;
  rejects :
    list (Mixed * Mixed) -> gmap ObjectId Mixed -> Store.Document -> bool
}.

(** The process: the database, the registry [mongoose.models] (the names a
    model has been compiled for), the [modelCache] of each document router
    and the log of database calls. *)
Record Server : Type := mkServer {
  schemas : list SchemaModel.SchemaDoc;
  collections : gmap string Store.Collection;
  mongooseModels : gset string;
  universalCache : gmap string Mongoose.Model;
  collectionsCache : gmap string Mongoose.Model;
  dbLog : list Store.DbCall
}.

Definition set_schemas (v : list SchemaModel.SchemaDoc) (s : Server) : Server :=
  mkServer v (collections s) (mongooseModels s) (universalCache s)
    (collectionsCache s) (dbLog s).
Definition set_collections (v : gmap string Store.Collection) (s : Server) : Server :=
  mkServer (schemas s) v (mongooseModels s) (universalCache s)
    (collectionsCache s) (dbLog s).
Definition set_mongooseModels (v : gset string) (s : Server) : Server :=
  mkServer (schemas s) (collections s) v (universalCache s)
    (collectionsCache s) (dbLog s).
Definition set_universalCache (v : gmap string Mongoose.Model) (s : Server) : Server :=
  mkServer (schemas s) (collections s) (mongooseModels s) v
    (collectionsCache s) (dbLog s).
Definition set_collectionsCache (v : gmap string Mongoose.Model) (s : Server) : Server :=
  mkServer (schemas s) (collections s) (mongooseModels s) (universalCache s)
    v (dbLog s).
Definition set_dbLog (v : list Store.DbCall) (s : Server) : Server :=
  mkServer (schemas s) (collections s) (mongooseModels s) (universalCache s)
    (collectionsCache s) v.

(** *** Computations that read and write the server and may throw *)

Definition M (A : Type) : Type := Server -> (Error + A) * Server.

Definition ret {A} (a : A) : M A := fun s => (inr a, s).
Definition throw {A} (e : Error) : M A := fun s => (inl e, s).
Definition bind {A B} (m : M A) (k : A -> M B) : M B :=
  fun s => match m s with
           | (inr a, s') => k a s'
           | (inl e, s') => (inl e, s')
           end.
Definition get : M Server := fun s => (inr s, s).
Definition modify (f : Server -> Server) : M unit := fun s => (inr tt, f s).

Notation "'let*' x ':=' m 'in' k" := (bind m (fun x => k))
  (at level 10, x name, m at level 100, k at level 200).
Notation "m ';;' k" := (bind m (fun _ => k))
  (at level 100, k at level 200, right associativity).

(** Appends one call to the log. *)
Definition db (c : Store.DbCall) : M unit :=
  modify (fun s => set_dbLog (dbLog s ++ [c]) s).

(** The responses of the JSON envelope, by status. *)
Inductive Response (A : Type) : Type :=
| Ok (data : A)                                              (* 200 *)
| Created (data : A)                                         (* 201 *)
| ValidationFailed (errors : list Validator.ValidationError) (* 400 *)
| NotFound (message : string)                                (* 404 *)
| Conflict (message : string)                                (* 409 *)
| ServerError (message : string) (error : Error).            (* 500 *)

Arguments Ok {A} data.
Arguments Created {A} data.
Arguments ValidationFailed {A} errors.
Arguments NotFound {A} message.
Arguments Conflict {A} message.
Arguments ServerError {A} message error.

(** A handler body of the shape
    [try { ... } catch (error) { res.status(500).json({ message, error }) }]. *)
Definition tryCatch {A} (body : M (Response A)) (message : string)
    : Server -> Response A * Server :=
  fun s => match body s with
           | (inr r, s') => (r, s')
           | (inl e, s') => (ServerError message e, s')
           end.

(** The middleware chain [[...validators, handleValidationErrors], handler]:
    with a non-empty error list the 400 response is sent and [next()] is not
    called. *)
Definition withValidation {A} (errors : list Validator.ValidationError)
    (handler : Server -> Response A * Server) : Server -> Response A * Server :=
  fun s => match errors with
           | [] => handler s
           | _ => (ValidationFailed errors, s)
           end.

(** [mongoose.model(name, schema)] with a schema object built for the call:
    a name that is already registered raises OverwriteModelError, a new name
    is registered. *)
Definition mongoose_model (name : string) (sch : Mongoose.Schema)
    : M Mongoose.Model :=
  let* s := get in
  if decide (name ∈ mongooseModels s) then throw (OverwriteModelError name)
  else
    modify (set_mongooseModels ({[name]} ∪ mongooseModels s)) ;;
    ret (Mongoose.mkModel name sch).

(** ** The schema registry (routes/schemas.js and the statics of Schema.js) *)

Module SchemaRoutes.
Import SchemaModel.

(** A JSON request body of the schema wire shape, with [isActive] added.
    [None] is an absent key; keys outside the shape (the identifier, the
    time stamps) are not part of a body here. *)
Record SchemaBody : Type := mkBody {
  b_collectionName : option string;
  b_displayName : option string;
  b_description : option string;
  b_fields : option (list FieldDefinition);
  b_indexes : option (list IndexDefinition);
  b_validationRules : option Mixed;
  b_isActive : option bool
}.

Definition matches (f : Store.SchemaFilter) (d : SchemaDoc) : bool :=
  match Store.by_collectionName f with
  | Some n => String.eqb (collectionName d) (castCollectionName n)
  | None => true
  end &&
  match Store.by_isActive f with
  | Some b => Bool.eqb (isActive d) b
  | None => true
  end.

(** [Schema.findOne(filter)]: the first stored definition that matches;
    the filter's collection name goes through the path's setters. *)
Definition findOne (f : Store.SchemaFilter) : M (option SchemaDoc) :=
  db (Store.SchemaFindOne f) ;;
  let* s := get in
  ret (List.find (matches f) (schemas s)).

(** [Schema.find({ isActive: true })] and the static [getActiveSchemas]. *)
Definition getActiveSchemas : M (list SchemaDoc) :=
  let f := Store.mkFilter None (Some true) in
  db (Store.SchemaFind f) ;;
  let* s := get in
  ret (List.filter (matches f) (schemas s)).

(** The static [getByCollectionName]. *)
Definition getByCollectionName (collectionName : string) : M (option SchemaDoc) :=
  findOne (Store.mkFilter (Some (JS.toLowerCase collectionName)) (Some true)).

Definition hasId (oid : ObjectId) (d : SchemaDoc) : bool := String.eqb (_id d) oid.

(** [Schema.findById(id)] *)
Definition findById (id : string) : M (option SchemaDoc) :=
  db (Store.SchemaFindById id) ;;
  match Mongoose.castObjectId id with
  | None => throw CastError
  | Some oid => let* s := get in ret (List.find (hasId oid) (schemas s))
  end.

(** [doc.save()] on a new document: validation, then the insert under the
    unique indexes on [_id] and [collectionName]. *)
Definition saveNew (d : SchemaDoc) : M unit :=
  db (Store.SchemaSave (_id d)) ;;
  if negb (validate d) then throw DocumentValidationError
  else
    let* s := get in
    if existsb (fun e => hasId (_id d) e ||
                         String.eqb (collectionName e) (collectionName d))
         (schemas s)
    then throw DuplicateKeyError
    else modify (set_schemas (schemas s ++ [d])).

Fixpoint replace (d : SchemaDoc) (l : list SchemaDoc) : list SchemaDoc :=
  match l with
  | [] => []
  | e :: l' => if hasId (_id d) e then d :: l' else e :: replace d l'
  end.

(** [doc.save()] on a document that was read from the store: validation,
    then the update of the stored document with that [_id]. *)
Definition save (d : SchemaDoc) : M unit :=
  db (Store.SchemaSave (_id d)) ;;
  if negb (validate d) then throw DocumentValidationError
  else modify (fun s => set_schemas (replace d (schemas s)) s).

(** *** POST / : create *)

Definition notEmpty (field m : string) (v : option string)
    : list Validator.ValidationError :=
  if JS.nonEmpty (option.default "" v) then [] else [Validator.mkError field m].

Definition fieldErrors (i : nat) (f : FieldDefinition)
    : list Validator.ValidationError :=
  (if JS.nonEmpty (name f) then []
   else [Validator.mkError ("fields[" ++ pretty i ++ "].name") "Field name is required"]) ++
  (if isFieldType (type f) then []
   else [Validator.mkError ("fields[" ++ pretty i ++ "].type") "Invalid field type"]).

Definition validateCreate (b : SchemaBody) : list Validator.ValidationError :=
  notEmpty "collectionName" "Collection name is required" (b_collectionName b) ++
  notEmpty "displayName" "Display name is required" (b_displayName b) ++
  match b_fields b with
  | None => [Validator.mkError "fields" "Fields must be an array"]
  | Some fs => concat (imap fieldErrors fs)
  end.

(** [new Schema({ ...req.body, collectionName })]: setters and defaults
    applied, [oid] the identifier generated for the document and [now] the
    clock. *)
Definition newSchema (oid : ObjectId) (now : Time) (b : SchemaBody)
    (collectionName : string) : SchemaDoc :=
  mkSchemaDoc oid (castCollectionName collectionName)
    (JS.trim (option.default "" (b_displayName b)))
    (JS.trim <$> b_description b)
    (castField <$> option.default [] (b_fields b))
    (option.default [] (b_indexes b))
    (b_validationRules b)
    (option.default true (b_isActive b))
    now now.

Definition createBody (oid : ObjectId) (now : Time) (b : SchemaBody)
    : M (Response SchemaDoc) :=
  let lowered := JS.toLowerCase (option.default "" (b_collectionName b)) in
  let* existingSchema := findOne (Store.mkFilter (Some lowered) None) in
  match existingSchema with
  | Some _ => ret (Conflict "Schema with this collection name already exists")
  | None =>
      let schema := newSchema oid now b lowered in
      saveNew schema ;;
      let mongooseSchema := generateMongooseSchema schema in
      let* model := mongoose_model (collectionName schema) mongooseSchema in
      ret (Created schema)
  end.

Definition create (oid : ObjectId) (now : Time) (b : SchemaBody)
    : Server -> Response SchemaDoc * Server :=
  withValidation (validateCreate b)
    (tryCatch (createBody oid now b) "Error creating schema").

(** *** PUT /:id : update *)

Definition validateId (id : string) : list Validator.ValidationError :=
  Validator.required "id" "Invalid schema ID" Validator.isMongoId id.

Definition validateUpdate (id : string) (b : SchemaBody)
    : list Validator.ValidationError :=
  validateId id ++
  Validator.optional "displayName" "Display name cannot be empty" JS.nonEmpty
    (b_displayName b).

(** The key [k] when the body has it. *)
Definition ownKey {A} (v : option A) (k : string) : list string :=
  match v with Some _ => [k] | None => [] end.

(** [Object.keys(req.body)] *)
Definition keys (b : SchemaBody) : list string :=
  ownKey (b_collectionName b) "collectionName" ++
  ownKey (b_displayName b) "displayName" ++
  ownKey (b_description b) "description" ++
  ownKey (b_fields b) "fields" ++
  ownKey (b_indexes b) "indexes" ++
  ownKey (b_validationRules b) "validationRules" ++
  ownKey (b_isActive b) "isActive".

Definition set_collectionName v d := mkSchemaDoc (_id d) v (displayName d)
  (description d) (fields d) (indexes d) (validationRules d) (isActive d)
  (createdAt d) (updatedAt d).
Definition set_displayName v d := mkSchemaDoc (_id d) (collectionName d) v
  (description d) (fields d) (indexes d) (validationRules d) (isActive d)
  (createdAt d) (updatedAt d).
Definition set_description v d := mkSchemaDoc (_id d) (collectionName d)
  (displayName d) v (fields d) (indexes d) (validationRules d) (isActive d)
  (createdAt d) (updatedAt d).
Definition set_fields v d := mkSchemaDoc (_id d) (collectionName d)
  (displayName d) (description d) v (indexes d) (validationRules d)
  (isActive d) (createdAt d) (updatedAt d).
Definition set_indexes v d := mkSchemaDoc (_id d) (collectionName d)
  (displayName d) (description d) (fields d) v (validationRules d)
  (isActive d) (createdAt d) (updatedAt d).
Definition set_validationRules v d := mkSchemaDoc (_id d) (collectionName d)
  (displayName d) (description d) (fields d) (indexes d) v (isActive d)
  (createdAt d) (updatedAt d).
Definition set_isActive v d := mkSchemaDoc (_id d) (collectionName d)
  (displayName d) (description d) (fields d) (indexes d) (validationRules d)
  v (createdAt d) (updatedAt d).
Definition set_updatedAt v d := mkSchemaDoc (_id d) (collectionName d)
  (displayName d) (description d) (fields d) (indexes d) (validationRules d)
  (isActive d) (createdAt d) v.

(** [schema[key] = req.body[key]] when [req.body[key] !== undefined]; the
    assignment runs the setters of the path. *)
Definition assign (b : SchemaBody) (d : SchemaDoc) (key : string) : SchemaDoc :=
  if String.eqb key "collectionName" then
    match b_collectionName b with
    | Some v => set_collectionName (castCollectionName v) d | None => d end
  else if String.eqb key "displayName" then
    match b_displayName b with
    | Some v => set_displayName (JS.trim v) d | None => d end
  else if String.eqb key "description" then
    match b_description b with
    | Some v => set_description (Some (JS.trim v)) d | None => d end
  else if String.eqb key "fields" then
    match b_fields b with
    | Some v => set_fields (castField <$> v) d | None => d end
  else if String.eqb key "indexes" then
    match b_indexes b with
    | Some v => set_indexes v d | None => d end
  else if String.eqb key "validationRules" then
    match b_validationRules b with
    | Some v => set_validationRules (Some v) d | None => d end
  else if String.eqb key "isActive" then
    match b_isActive b with
    | Some v => set_isActive v d | None => d end
  else d.

(** The body of the [forEach] over the keys, with its guard. *)
Definition mergeKey (b : SchemaBody) (d : SchemaDoc) (key : string) : SchemaDoc :=
  if negb (String.eqb key "collectionName") then assign b d key else d.

Definition merge (b : SchemaBody) (d : SchemaDoc) : SchemaDoc :=
  foldl (mergeKey b) d (keys b).

Definition updateBody (id : string) (now : Time) (b : SchemaBody)
    : M (Response SchemaDoc) :=
  let* found := findById id in
  match found with
  | None => ret (NotFound "Schema not found")
  | Some schema =>
      let schema := merge b schema in
      let schema := set_updatedAt now schema in
      save schema ;;
      ret (Ok schema)
  end.

Definition update (id : string) (now : Time) (b : SchemaBody)
    : Server -> Response SchemaDoc * Server :=
  withValidation (validateUpdate id b)
    (tryCatch (updateBody id now b) "Error updating schema").

(** *** DELETE /:id : soft delete *)

(** [schema.isActive = false; await schema.save()]: the timestamps plugin
    refreshes [updatedAt] when the document was modified. *)
Definition deactivate (now : Time) (d : SchemaDoc) : SchemaDoc :=
  if isActive d then set_updatedAt now (set_isActive false d)
  else set_isActive false d.

Definition softDeleteBody (id : string) (now : Time) : M (Response unit) :=
  let* found := findById id in
  match found with
  | None => ret (NotFound "Schema not found")
  | Some schema =>
      save (deactivate now schema) ;;
      ret (Ok tt)
  end.

Definition softDelete (id : string) (now : Time)
    : Server -> Response unit * Server :=
  withValidation (validateId id)
    (tryCatch (softDeleteBody id now) "Error deleting schema").

(** The stored definition with a given identifier, as [findById] reads
    it. *)
Definition lookup (s : Server) (oid : ObjectId) : option SchemaDoc :=
  List.find (hasId oid) (schemas s).

End SchemaRoutes.

(** ** Operations of a compiled model and of a raw collection *)

Module Collection.

(** The collection behind a name; a collection that was never written to
    reads as empty. *)
Definition read (s : Server) (coll : string) : Store.Collection :=
  default Store.empty (collections s !! coll).

Definition write (coll : string) (c : Store.Collection) : M unit :=
  modify (fun s => set_collections (<[coll := c]> (collections s)) s).

(** [Model.findById(id)] *)
Definition findById (m : Mongoose.Model) (id : string) : M (option Store.Document) :=
  let coll := Mongoose.collection (Mongoose.schema m) in
  db (Store.ModelFindById coll id) ;;
  match Mongoose.castObjectId id with
  | None => throw CastError
  | Some oid =>
      let* s := get in
      ret (Store.mkDocument oid <$> Store.documents (read s coll) !! oid)
  end.

(** [Model.findByIdAndDelete(id)]: removes the document with that
    identifier and resolves to it, or to [null] when there is none. *)
Definition findByIdAndDelete (m : Mongoose.Model) (id : string)
    : M (option Store.Document) :=
  let coll := Mongoose.collection (Mongoose.schema m) in
  db (Store.ModelFindByIdAndDelete coll id) ;;
  match Mongoose.castObjectId id with
  | None => throw CastError
  | Some oid =>
      let* s := get in
      let c := read s coll in
      match Store.documents c !! oid with
      | None => ret None
      | Some body =>
          write coll (Store.mkCollection (delete oid (Store.documents c))
                        (Store.created_indexes c)) ;;
          ret (Some (Store.mkDocument oid body))
      end
  end.

(** [collection.deleteMany({})]: removes every document; a collection that
    does not exist is not created. *)
Definition deleteMany (coll : string) : M unit :=
  db (Store.CollectionDeleteMany coll) ;;
  let* s := get in
  match collections s !! coll with
  | None => ret tt
  | Some c => write coll (Store.mkCollection ∅ (Store.created_indexes c))
  end.

(** [collection.createIndex(key, options)]: creating an index again with
    the same options does nothing, with other options it is refused. *)
Definition createIndex (coll : string) (key options : Mixed) : M unit :=
  db (Store.CollectionCreateIndex coll key options) ;;
  let* s := get in
  let c := read s coll in
  match List.find (fun i => String.eqb (fst i) key) (Store.created_indexes c) with
  | Some (_, o) =>
      if String.eqb o options then ret tt else throw IndexOptionsConflict
  | None =>
      write coll (Store.mkCollection (Store.documents c)
                    (Store.created_indexes c ++ [(key, options)]))
  end.

Section Inserts.

Variable engine : Engine.

(** One document of an ordered [insertMany]: a document whose identifier
    is taken, or that a unique secondary index turns down, stops the batch,
    and the documents inserted before it stay. *)
Definition insertOne (coll : string) (d : Store.Document) : M unit :=
  let* s := get in
  let c := read s coll in
  match Store.documents c !! Store.doc_id d with
  | Some _ => throw BulkWriteError
  | None =>
      if rejects engine (Store.created_indexes c) (Store.documents c) d
      then throw BulkWriteError
      else
        write coll (Store.mkCollection
                      (<[Store.doc_id d := Store.doc_body d]> (Store.documents c))
                      (Store.created_indexes c))
  end.

Fixpoint insertAll (coll : string) (docs : list Store.Document) : M unit :=
  match docs with
  | [] => ret tt
  | d :: docs' => insertOne coll d ;; insertAll coll docs'
  end.

(** [collection.insertMany(docs)] *)
Definition insertMany (coll : string) (docs : list Store.Document) : M unit :=
  db (Store.CollectionInsertMany coll (length docs)) ;;
  insertAll coll docs.

End Inserts.

End Collection.

(** ** The model caches of the two document routers *)

Module Universal.

(** [getDynamicModel] of routes/universal.js. *)
Definition getDynamicModel (collectionName : string) : M Mongoose.Model :=
  let* s := get in
  match universalCache s !! collectionName with
  | Some cached => ret cached
  | None =>
      let dynamicSchema := Mongoose.dynamicSchema collectionName in
      let* model := mongoose_model collectionName dynamicSchema in
      modify (fun s => set_universalCache
                         (<[collectionName := model]> (universalCache s)) s) ;;
      ret model
  end.

End Universal.

Module Collections.

(** [getModelFromSchema] of the collections router. *)
Definition getModelFromSchema (collectionName : string) : M Mongoose.Model :=
  let* s := get in
  match collectionsCache s !! collectionName with
  | Some cached => ret cached
  | None =>
      let* schemaDef := SchemaRoutes.getByCollectionName collectionName in
      match schemaDef with
      | Some def =>
          let mongooseSchema := SchemaModel.generateMongooseSchema def in
          let* model := mongoose_model collectionName mongooseSchema in
          modify (fun s => set_collectionsCache
                             (<[collectionName := model]> (collectionsCache s)) s) ;;
          ret model
      | None =>
          let dynamicSchema := Mongoose.dynamicSchema collectionName in
          let* model := mongoose_model collectionName dynamicSchema in
          modify (fun s => set_collectionsCache
                             (<[collectionName := model]> (collectionsCache s)) s) ;;
          ret model
      end
  end.

End Collections.

(** ** Document routes (routes/universal.js and the collections router) *)

Module DocumentRoutes.

(** The [pagination], [query] and [sort] members of a list response, next
    to its [data]. *)
Record ListPayload : Type := mkListPayload {
  data : list Store.Document;
  page : JS.Integral;
  limit : JS.Integral;
  total : JS.Integral;
  pages : JS.Integral;
  query : gmap string QueryTranslator.Predicate;
  sort : list (string * QueryTranslator.Direction)
}.

Definition validateDocumentId (id : string) : list Validator.ValidationError :=
  Validator.required "id" "Invalid document ID" Validator.isMongoId id.

Section Engine.

Variable engine : Engine.

(** A query and what becomes of it: the call is logged when it reaches the
    database, and a refused or failed query throws. *)
Definition runQuery {A : Type} (call : Store.DbCall) (o : Store.Outcome A) : M A :=
  match o with
  | Store.Answered a => db call ;; ret a
  | Store.Failed e => db call ;; throw e
  | Store.Refused e => throw e
  end.

(** [model.find(query, fields).sort(sort).skip(skip).limit(limit).lean()] *)
Definition find (m : Mongoose.Model)
    (query : gmap string QueryTranslator.Predicate) (fields : list string)
    (sort : list (string * QueryTranslator.Direction))
    (skip limit : JS.Integral) : M (list Store.Document) :=
  let sch := Mongoose.schema m in
  let coll := Mongoose.collection sch in
  let* s := get in
  runQuery (Store.ModelFind coll query fields sort skip limit)
    (evalFind engine sch (Collection.read s coll) query fields sort skip limit).

(** [model.countDocuments(query)]; the count arrives as a number. *)
Definition countDocuments (m : Mongoose.Model)
    (query : gmap string QueryTranslator.Predicate) : M JS.Integral :=
  let sch := Mongoose.schema m in
  let coll := Mongoose.collection sch in
  let* s := get in
  let* n := runQuery (Store.ModelCountDocuments coll query)
              (evalCount engine sch (Collection.read s coll) query) in
  ret (JS.toNumber (Z.of_nat n)).

(** The body shared by the two list handlers; [getModel] is the model
    lookup of the router. *)
Definition listBody (getModel : string -> M Mongoose.Model)
    (collection : string) (q : gmap string string) : M (Response ListPayload) :=
  let page := QueryTranslator.pageOf q in
  let limit := QueryTranslator.limitOf q in
  let skip := JS.mul (JS.sub page (JS.Finite 1)) limit in
  let fields := QueryTranslator.buildFields q in
  let query := QueryTranslator.buildFilter q in
  let sort := QueryTranslator.buildSort q in
  let* model := getModel collection in
  let* documents := find model query fields sort skip limit in
  let* total := countDocuments model query in
  ret (Ok (mkListPayload documents page limit total
             (QueryTranslator.pagesOf total limit) query sort)).

(** [GET /:collection] of the universal router. *)
Definition universalList (collection : string) (q : gmap string string)
    : Server -> Response ListPayload * Server :=
  withValidation (QueryTranslator.validateList q)
    (tryCatch (listBody Universal.getDynamicModel collection q)
       ("Error fetching documents from " ++ collection)).

(** [GET /:collectionName/documents] of the collections router. *)
Definition collectionsList (collectionName : string) (q : gmap string string)
    : Server -> Response ListPayload * Server :=
  withValidation (QueryTranslator.validateList q)
    (tryCatch (listBody Collections.getModelFromSchema collectionName q)
       ("Error fetching documents from " ++ collectionName)).

End Engine.

(** [GET /:collection/:id] of the universal router. *)
Definition getByIdBody (collection id : string) : M (Response Store.Document) :=
  let* model := Universal.getDynamicModel collection in
  let* document := Collection.findById model id in
  match document with
  | None => ret (NotFound "Document not found")
  | Some d => ret (Ok d)
  end.

Definition getById (collection id : string)
    : Server -> Response Store.Document * Server :=
  withValidation (validateDocumentId id)
    (tryCatch (getByIdBody collection id) "Error fetching document").

(** The body shared by the two delete handlers. *)
Definition deleteBody (getModel : string -> M Mongoose.Model)
    (collection id : string) : M (Response unit) :=
  let* model := getModel collection in
  let* document := Collection.findByIdAndDelete model id in
  match document with
  | None => ret (NotFound "Document not found")
  | Some _ => ret (Ok tt)
  end.

(** A delete handler behind its validation chain; [getModel] is the model
    lookup of the router and [message] the text of its 500 response. *)
Definition deleteWith (getModel : string -> M Mongoose.Model) (message : string)
    (collection id : string) : Server -> Response unit * Server :=
  withValidation (validateDocumentId id)
    (tryCatch (deleteBody getModel collection id) message).

(** [DELETE /:collection/:id] of the universal router. *)
Definition universalDelete : string -> string -> Server -> Response unit * Server :=
  deleteWith Universal.getDynamicModel "Error deleting document".

(** [DELETE /:collectionName/documents/:id] of the collections router (its
    additional check that the collection name is a string always passes). *)
Definition collectionsDelete : string -> string -> Server -> Response unit * Server :=
  deleteWith Collections.getModelFromSchema "Error deleting document".

End DocumentRoutes.

(** ** Route table of the universal router *)

Module Router.

Inductive Method : Type := GET | POST | PUT | PATCH | DELETE.

Definition method_eqb (a b : Method) : bool :=
  match a, b with
  | GET, GET | POST, POST | PUT, PUT | PATCH, PATCH | DELETE, DELETE => true
  | _, _ => false
  end.

(** One segment of a route path: a literal or a named parameter. *)
Inductive Segment : Type :=
| Lit (text : string)
| Param (name : string).

(** The handlers of routes/universal.js, in the order they are registered. *)
Inductive Handler : Type :=
| ListCollections      (* GET    /collections       *)
| ListDocuments        (* GET    /:collection       *)
| GetDocument          (* GET    /:collection/:id   *)
| CreateDocument       (* POST   /:collection       *)
| ReplaceDocument      (* PUT    /:collection/:id   *)
| PatchDocument        (* PATCH  /:collection/:id   *)
| DeleteDocument       (* DELETE /:collection/:id   *)
| BulkDocuments        (* POST   /:collection/bulk  *)
| CollectionStats.     (* GET    /:collection/stats *)

Definition routes : list (Method * list Segment * Handler) :=
  [ (GET, [Lit "collections"], ListCollections);
    (GET, [Param "collection"], ListDocuments);
    (GET, [Param "collection"; Param "id"], GetDocument);
    (POST, [Param "collection"], CreateDocument);
    (PUT, [Param "collection"; Param "id"], ReplaceDocument);
    (PATCH, [Param "collection"; Param "id"], PatchDocument);
    (DELETE, [Param "collection"; Param "id"], DeleteDocument);
    (POST, [Param "collection"; Lit "bulk"], BulkDocuments);
    (GET, [Param "collection"; Lit "stats"], CollectionStats) ].

(** Matching a request path, given by its segments, against a route path:
    a literal matches without regard to case, a parameter matches any
    non-empty segment and binds it. *)
Fixpoint matchPath (pattern : list Segment) (path : list string)
    : option (list (string * string)) :=
  match pattern, path with
  | [], [] => Some []
  | Lit t :: pattern', seg :: path' =>
      if String.eqb (JS.toLowerCase seg) (JS.toLowerCase t)
      then matchPath pattern' path' else None
  | Param n :: pattern', seg :: path' =>
      if JS.nonEmpty seg
      then (fun ps => (n, seg) :: ps) <$> matchPath pattern' path' else None
  | _, _ => None
  end.

(** The first registered route whose method and path match; its handler
    answers the request (no handler of this router calls [next()] once its
    validation chain has run). *)
Fixpoint dispatchIn (table : list (Method * list Segment * Handler))
    (m : Method) (path : list string)
    : option (Handler * list (string * string)) :=
  match table with
  | [] => None
  | (m', pattern, h) :: table' =>
      if method_eqb m m' then
        match matchPath pattern path with
        | Some ps => Some (h, ps)
        | None => dispatchIn table' m path
        end
      else dispatchIn table' m path
  end.

Definition dispatch (m : Method) (path : list string)
    : option (Handler * list (string * string)) :=
  dispatchIn routes m path.

End Router.

(** ** Restore from a backup (POST /restore of the database router) *)

Module Database.

(** One entry of [backup.collections]. *)
Record CollectionBackup : Type := mkCollectionBackup {
  documentCount : Z;
  size : Z;
  indexes : list Store.IndexDescriptor;
  data : option (list Store.Document)
}.

(** The backup object, as the backup handler builds it and as a restore
    request carries it: [collections] holds the own entries of the object in
    its key order. *)
Record Backup : Type := mkBackup {
  database : string;
  timestamp : string;
  collections : list (string * CollectionBackup)
}.

(** One entry of the result list. *)
Record Result : Type := mkResult {
  collection : string;
  documentsRestored : nat;
  indexesRestored : nat
}.

(** The own entry of [backup.collections] under a name, if there is one. *)
Definition ownEntry (b : Backup) (collectionName : string)
    : option CollectionBackup :=
  snd <$> List.find (fun e => String.eqb (fst e) collectionName) (collections b).

(** What [backup.collections[collectionName]] evaluates to: the own entry;
    or, for a name that the parsed object does not have itself, the member
    of that name that it inherits from [Object.prototype] (a function, or
    the prototype itself); or [undefined]. *)
Inductive Member : Type :=
| Own (collectionData : CollectionBackup)
| Inherited
| Undefined.

Definition member (b : Backup) (collectionName : string) : Member :=
  match ownEntry b collectionName with
  | Some cd => Own cd
  | None => if JS.isPrototypeMember collectionName then Inherited else Undefined
  end.

(** [collections.length > 0 ? collections : Object.keys(backup.collections)] *)
Definition targetCollections (b : Backup) (names : list string) : list string :=
  match names with
  | [] => fst <$> collections b
  | _ => names
  end.

(** [try { await m } catch (err) { }] *)
Definition ignoreErrors (m : M unit) : M unit :=
  fun s => match m s with
           | (inl _, s') => (inr tt, s')
           | r => r
           end.

(** The loop over the index descriptors of one collection. *)
Fixpoint restoreIndexes (collectionName : string)
    (l : list Store.IndexDescriptor) : M unit :=
  match l with
  | [] => ret tt
  | index :: l' =>
      (if negb (String.eqb (Store.ix_name index) "_id_")
       then ignoreErrors
              (Collection.createIndex collectionName (Store.ix_key index)
                 (default "{}" (Store.ix_options index)))
       else ret tt) ;;
      restoreIndexes collectionName l'
  end.

Section Restore.

Variable engine : Engine.

(** One turn of the loop over the target collections, for a collection
    that the backup has. *)
Definition restoreOne (collectionName : string) (collectionData : CollectionBackup)
    : M Result :=
  Collection.deleteMany collectionName ;;
  restoreIndexes collectionName (indexes collectionData) ;;
  (match data collectionData with
   | Some (d :: ds) => Collection.insertMany engine collectionName (d :: ds)
   | _ => ret tt
   end) ;;
  ret (mkResult collectionName
         (length (default [] (data collectionData)))
         (length (indexes collectionData))).

(** The same turn for an inherited member, which is truthy and so is not
    skipped: the collection is cleared, then [collectionData.indexes] is
    [undefined] and the loop over it throws. *)
Definition restoreInherited (collectionName : string) : M Result :=
  Collection.deleteMany collectionName ;;
  throw TypeError.

(** The loop over the target collections; [results] is the list built so
    far. *)
Fixpoint restoreLoop (b : Backup) (targets : list string) (results : list Result)
    : M (list Result) :=
  match targets with
  | [] => ret results
  | collectionName :: targets' =>
      match member b collectionName with
      | Undefined => restoreLoop b targets' results
      | Own collectionData =>
          let* r := restoreOne collectionName collectionData in
          restoreLoop b targets' (results ++ [r])
      | Inherited =>
          let* r := restoreInherited collectionName in
          restoreLoop b targets' (results ++ [r])
      end
  end.

Definition restore (b : Backup) (names : list string)
    : Server -> Response (list Result) * Server :=
  tryCatch
    (let* results := restoreLoop b (targetCollections b names) [] in
     ret (Ok results))
    "Error restoring database".

End Restore.

(** The per-collection result list that a response hands to the caller, if
    it carries one. *)
Definition resultList (r : Response (list Result)) : option (list Result) :=
  match r with
  | Ok l | Created l => Some l
  | _ => None
  end.

End Database.

(** ** The process as a sequence of requests *)

Module Process.

(** The requests whose handlers are embedded above. *)
Inductive Request : Type :=
| CreateSchema (oid : ObjectId) (now : Time) (b : SchemaRoutes.SchemaBody)
| UpdateSchema (id : string) (now : Time) (b : SchemaRoutes.SchemaBody)
| SoftDeleteSchema (id : string) (now : Time)
| UniversalList (collection : string) (q : gmap string string)
| UniversalGetById (collection id : string)
| UniversalDelete (collection id : string)
| CollectionsList (collectionName : string) (q : gmap string string)
| CollectionsDelete (collectionName id : string)
| RestoreBackup (b : Database.Backup) (names : list string).

(** The requests that change the schema registry. *)
Definition isSchemaMutation (r : Request) : bool :=
  match r with
  | CreateSchema _ _ _ | UpdateSchema _ _ _ | SoftDeleteSchema _ _ => true
  | _ => false
  end.

Section Serve.

Variable engine : Engine.

(** The server after it has answered one request. *)
Definition serve (s : Server) (r : Request) : Server :=
  match r with
  | CreateSchema oid now b => (SchemaRoutes.create oid now b s).2
  | UpdateSchema id now b => (SchemaRoutes.update id now b s).2
  | SoftDeleteSchema id now => (SchemaRoutes.softDelete id now s).2
  | UniversalList c q => (DocumentRoutes.universalList engine c q s).2
  | UniversalGetById c id => (DocumentRoutes.getById c id s).2
  | UniversalDelete c id => (DocumentRoutes.universalDelete c id s).2
  | CollectionsList c q => (DocumentRoutes.collectionsList engine c q s).2
  | CollectionsDelete c id => (DocumentRoutes.collectionsDelete c id s).2
  | RestoreBackup b names => (Database.restore engine b names s).2
  end.

(** The server after a sequence of requests, answered one after the
    other. *)
Definition serveAll (s : Server) (rs : list Request) : Server :=
  foldl serve s rs.

End Serve.

End Process.

(** ** Vocabulary of the statements *)

(** The integer written under a key of the query string, or [d] when the
    key is absent or its value does not start with an integer. *)
Definition written (q : gmap string string) (key : string) (d : Z) : Z :=
  match q !! key with
  | Some v => default d (JS.readInt v)
  | None => d
  end.

(** What a list handler does with a well-formed request once the lookup of
    its router has yielded the model [m] in state [s1].  It issues the find
    with [skip = (page - 1) * limit], then the count, and answers 200 with
    the documents, the page, the limit, the total and
    [pages = Math.ceil(total / limit)]; a query that the engine refuses or
    that fails is answered with 500, and a refused one has not reached the
    database. *)
Definition listAnswers (engine : Engine) (message : string)
    (response : Response DocumentRoutes.ListPayload * Server)
    (q : gmap string string) (m : Mongoose.Model) (s1 : Server) : Prop :=
  let sch := Mongoose.schema m in
  let coll := Mongoose.collection sch in
  let page := QueryTranslator.pageOf q in
  let limit := QueryTranslator.limitOf q in
  let filter := QueryTranslator.buildFilter q in
  let fields := QueryTranslator.buildFields q in
  let sort := QueryTranslator.buildSort q in
  let skip := JS.mul (JS.sub page (JS.Finite 1)) limit in
  let findCall := Store.ModelFind coll filter fields sort skip limit in
  let countCall := Store.ModelCountDocuments coll filter in
  let logged calls := set_dbLog (dbLog s1 ++ calls) s1 in
  match evalFind engine sch (Collection.read s1 coll) filter fields sort skip limit with
  | Store.Answered documents =>
      match evalCount engine sch (Collection.read s1 coll) filter with
      | Store.Answered n =>
          let total := JS.toNumber (Z.of_nat n) in
          response =
            (Ok (DocumentRoutes.mkListPayload documents page limit total
                   (QueryTranslator.pagesOf total limit) filter sort),
             logged [findCall; countCall])
      | Store.Failed e =>
          response = (ServerError message e, logged [findCall; countCall])
      | Store.Refused e =>
          response = (ServerError message e, logged [findCall])
      end
  | Store.Failed e => response = (ServerError message e, logged [findCall])
  | Store.Refused e => response = (ServerError message e, s1)
  end.

(** A list request whose [page] or [limit] is malformed: present and not an
    integer, or [page < 1], or [limit] outside [1, 1000]. *)
Definition malformed (q : gmap string string) : Prop :=
  (exists v, q !! "page" = Some v /\ Validator.isInt (Some 1) None v = false) \/
  (exists v, q !! "limit" = Some v /\ Validator.isInt (Some 1) (Some 1000) v = false).

(** The process right after start-up: an empty database, empty model caches
    and the registry holding the model that models/Schema.js compiles when
    it is loaded. *)
Definition boot : Server := mkServer [] ∅ {["Schema"]} ∅ ∅ [].

(** The collection name that a create request asks for, after the setters
    of the path. *)
Definition requestedName (b : SchemaRoutes.SchemaBody) : string :=
  SchemaModel.castCollectionName (default "" (SchemaRoutes.b_collectionName b)).

(** *** Sample data for the closed statements *)

(** A database that holds no unique index and answers every query with no
    documents. *)
Definition plainEngine : Engine :=
  mkEngine (fun _ _ _ _ _ _ _ => Store.Answered [])
           (fun _ _ _ => Store.Answered 0%nat)
           (fun _ _ _ => false).

Definition amountField : SchemaModel.FieldDefinition :=
  SchemaModel.mkField "amount" "Number" true false false None [] (Some 0) None
    None None None None.

(** The body [{ collectionName: "Orders", displayName: "Orders",
    fields: [{ name: "amount", type: "Number", required: true, min: 0 }] }]. *)
Definition ordersBody : SchemaRoutes.SchemaBody :=
  SchemaRoutes.mkBody (Some "Orders") (Some "Orders") None (Some [amountField])
    None None None.

Definition ordersId : ObjectId := "507f1f77bcf86cd799439011".
Definition otherId : ObjectId := "507f1f77bcf86cd799439012".

(** A stored definition for [orders]. *)
Definition ordersSchema (active : bool) : SchemaModel.SchemaDoc :=
  SchemaModel.mkSchemaDoc ordersId "orders" "Orders" None [amountField] [] None
    active 1000 1000.

(** A registry whose only definition for [orders] is soft-deleted. *)
Definition retired : Server := set_schemas [ordersSchema false] boot.

(** A registry with an active definition for [orders]. *)
Definition registered : Server :=
  set_mongooseModels {["orders"; "Schema"]} (set_schemas [ordersSchema true] boot).

(** Every stored definition passes the document validation of [save]; the
    registry only stores documents through [save]. *)
Definition validStore (s : Server) : Prop :=
  Forall (fun d => SchemaModel.validate d = true) (schemas s).

(** The active definition that the registry returns for a collection name
    (the result of the static [getByCollectionName]). *)
Definition activeDefinition (s : Server) (name : string)
    : option SchemaModel.SchemaDoc :=
  List.find
    (SchemaRoutes.matches (Store.mkFilter (Some (JS.toLowerCase name)) (Some true)))
    (schemas s).


(** Every entry of the two model caches of [s] is still there, unchanged,
    in [s']. *)
Definition cachesKept (s s' : Server) : Prop :=
  (forall n m, universalCache s !! n = Some m -> universalCache s' !! n = Some m) /\
  (forall n m, collectionsCache s !! n = Some m -> collectionsCache s' !! n = Some m).

(** The two model caches are the same in [s] and [s']. *)
Definition cachesSame (s s' : Server) : Prop :=
  universalCache s' = universalCache s /\ collectionsCache s' = collectionsCache s.

(** A computation or a handler leaves the server in a state related by [R]
    to the state it started in. *)
Definition preserves (R : Server -> Server -> Prop) {X : Type}
    (c : Server -> X * Server) : Prop :=
  forall s, R s (c s).2.



(** The process after the universal router has served a first request for
    [orders]: the permissive model is cached. *)
Definition warmed : Server :=
  set_universalCache
    {[ "orders" := Mongoose.mkModel "orders" (Mongoose.dynamicSchema "orders") ]}
    (set_mongooseModels {["orders"; "Schema"]} boot).







(** A database with one order, before any request. *)
Definition stocked : Server :=
  set_collections
    {[ "orders" := Store.mkCollection {[ ordersId := "{ amount: 20 }" ]} [] ]} boot.

(** Outside the collection [name] the database is the same in [s] and
    [s']. *)
Definition sameOthers (name : string) (s s' : Server) : Prop :=
  forall c, c <> name -> collections s' !! c = collections s !! c.

(** The collection [name] holds exactly the documents [docs]. *)
Definition holdsExactly (s : Server) (name : string) (docs : list Store.Document)
    : Prop :=
  forall oid body,
    Store.documents (Collection.read s name) !! oid = Some body <->
    Store.mkDocument oid body ∈ docs.

(** The documents that a backup carries for a collection. *)
Definition backedUp (cd : Database.CollectionBackup) : list Store.Document :=
  default [] (Database.data cd).

(** A backup of two collections: [orders] with two documents and [users]
    with the same identifier twice. *)
Definition sampleBackup : Database.Backup :=
  Database.mkBackup "shop" "2024-01-01T00:00:00.000Z"
    [ ("orders",
       Database.mkCollectionBackup 2 64
         [Store.mkIndex "_id_" "{ _id: 1 }" None;
          Store.mkIndex "amount_1" "{ amount: 1 }" None]
         (Some [Store.mkDocument ordersId "{ amount: 20 }";
                Store.mkDocument otherId "{ amount: 35 }"]));
      ("users",
       Database.mkCollectionBackup 2 48
         [Store.mkIndex "_id_" "{ _id: 1 }" None]
         (Some [Store.mkDocument ordersId "{ name: 'a' }";
                Store.mkDocument ordersId "{ name: 'b' }"])) ].

(** ** API key authentication (middleware/auth.js) *)

Module Auth.

(** What a middleware leaves on the request when it calls [next()]:
    [req.apiKey] and [req.authenticated], each possibly unset. *)
Record Marks : Type := mkMarks {
  apiKey : option string;
  authenticated : option bool
}.

(** The outcome of a middleware: a response that ends the chain, or
    [next()]. *)
Inductive Outcome : Type :=
| Unauthorized (message : string)     (* 401 *)
| Forbidden (message : string)        (* 403 *)
| Next (marks : Marks).

(** [req.headers['x-api-key'] ||
     req.headers['authorization']?.replace('Bearer ', '')];
    header names arrive in lower case, [None] is [undefined]. *)
Definition presentedKey (headers : gmap string string) : option string :=
  let fromAuthorization :=
    (fun a => JS.replace a "Bearer " "") <$> headers !! "authorization" in
  match headers !! "x-api-key" with
  | Some k => if JS.nonEmpty k then Some k else fromAuthorization
  | None => fromAuthorization
  end.

(** A key is truthy when it is defined and not empty. *)
Definition truthy (k : option string) : bool :=
  match k with Some v => JS.nonEmpty v | None => false end.

(** [authenticateApiKey]; [configKey] is [config.api.key]. *)
Definition authenticateApiKey (configKey : string) (headers : gmap string string)
    : Outcome :=
  let apiKey := presentedKey headers in
  if negb (truthy apiKey) then
    Unauthorized "API key is required. Please provide it in the X-API-Key header or Authorization header."
  else if negb (String.eqb (default "" apiKey) configKey) then
    Forbidden "Invalid API key. Access denied."
  else Next (mkMarks apiKey None).

(** [optionalApiKeyAuth] *)
Definition optionalApiKeyAuth (configKey : string) (headers : gmap string string)
    : Outcome :=
  let apiKey := presentedKey headers in
  if truthy apiKey then
    if negb (String.eqb (default "" apiKey) configKey) then
      Forbidden "Invalid API key. Access denied."
    else Next (mkMarks apiKey (Some true))
  else Next (mkMarks None (Some false)).

End Auth.

(** ** The reading routes of the schema router (routes/schemas.js) *)

Module SchemaQueries.

(** [GET /:id] *)
Definition getById (id : string)
    : Server -> Response SchemaModel.SchemaDoc * Server :=
  withValidation (SchemaRoutes.validateId id)
    (tryCatch
       (let* schema := SchemaRoutes.findById id in
        match schema with
        | None => ret (NotFound "Schema not found")
        | Some d => ret (Ok d)
        end)
       "Error fetching schema").

(** [GET /collection/:collectionName] (its check that the parameter is a
    string always passes). *)
Definition getByCollection (collectionName : string)
    : Server -> Response SchemaModel.SchemaDoc * Server :=
  tryCatch
    (let* schema := SchemaRoutes.getByCollectionName collectionName in
     match schema with
     | None => ret (NotFound "Schema not found for this collection")
     | Some d => ret (Ok d)
     end)
    "Error fetching schema".

Section Validate.

(** [new model(data).validateSync()] of Mongoose, an external collaborator:
    the fields of [data] that break the compiled schema, each with its
    message. *)
Variable validateSync : Mongoose.Schema -> Mixed -> list (string * string).

(** [POST /:id/validate]; the response data is the validated object. *)
Definition validateBody (id : string) (data : Mixed) : M (Response Mixed) :=
  let* found := SchemaRoutes.findById id in
  match found with
  | None => ret (NotFound "Schema not found")
  | Some schema =>
      let mongooseSchema := SchemaModel.generateMongooseSchema schema in
      let* model :=
        mongoose_model ("temp_" ++ SchemaModel.collectionName schema)
          mongooseSchema in
      match validateSync (Mongoose.schema model) data with
      | [] => ret (Ok data)
      | errors =>
          ret (ValidationFailed
                 ((fun e => Validator.mkError (fst e) (snd e)) <$> errors))
      end
  end.

Definition validate (id : string) (data : Mixed)
    : Server -> Response Mixed * Server :=
  withValidation (SchemaRoutes.validateId id)
    (tryCatch (validateBody id data) "Error validating data").

End Validate.

End SchemaQueries.

(** No two stored definitions share a collection name or an identifier. *)
Definition uniqueStore (s : Server) : Prop :=
  NoDup (SchemaModel.collectionName <$> schemas s) /\
  NoDup (SchemaModel._id <$> schemas s).


(** ** The application (index.js): public endpoints, the four mounted
    routers behind the API key, the root endpoint and the 404 handler *)

Module App.
Import Router.

(** The routes of the database router, in the order they are registered. *)
Inductive DatabaseHandler : Type :=
| DatabaseInfo         (* GET    /info                                *)
| DatabaseCollections  (* GET    /collections                         *)
| CreateCollection     (* POST   /collections                         *)
| DropCollection       (* DELETE /collections/:name                   *)
| CreateIndex          (* POST   /collections/:name/indexes           *)
| DropIndex            (* DELETE /collections/:name/indexes/:indexName *)
| RawQuery             (* POST   /query                               *)
| CreateBackup         (* POST   /backup                              *)
| RestoreBackup.       (* POST   /restore                             *)

Definition databaseRoutes : list (Method * list Segment * DatabaseHandler) :=
  [ (GET, [Lit "info"], DatabaseInfo);
    (GET, [Lit "collections"], DatabaseCollections);
    (POST, [Lit "collections"], CreateCollection);
    (DELETE, [Lit "collections"; Param "name"], DropCollection);
    (POST, [Lit "collections"; Param "name"; Lit "indexes"], CreateIndex);
    (DELETE, [Lit "collections"; Param "name"; Lit "indexes"; Param "indexName"],
     DropIndex);
    (POST, [Lit "query"], RawQuery);
    (POST, [Lit "backup"], CreateBackup);
    (POST, [Lit "restore"], RestoreBackup) ].

(** The routes of routes/schemas.js. *)
Inductive SchemaHandler : Type :=
| ListSchemas          (* GET    /                            *)
| GetSchema            (* GET    /:id                         *)
| GetSchemaByName      (* GET    /collection/:collectionName  *)
| CreateSchema         (* POST   /                            *)
| UpdateSchema         (* PUT    /:id                         *)
| DeleteSchema         (* DELETE /:id                         *)
| SchemaCollections    (* GET    /:id/collections             *)
| ValidateData         (* POST   /:id/validate                *)
| ExportSchema.        (* GET    /export/:id                  *)

Definition schemaRoutes : list (Method * list Segment * SchemaHandler) :=
  [ (GET, [], ListSchemas);
    (GET, [Param "id"], GetSchema);
    (GET, [Lit "collection"; Param "collectionName"], GetSchemaByName);
    (POST, [], CreateSchema);
    (PUT, [Param "id"], UpdateSchema);
    (DELETE, [Param "id"], DeleteSchema);
    (GET, [Param "id"; Lit "collections"], SchemaCollections);
    (POST, [Param "id"; Lit "validate"], ValidateData);
    (GET, [Lit "export"; Param "id"], ExportSchema) ].

(** The routes of the collections router. *)
Inductive CollectionHandler : Type :=
| CollectionsOverview  (* GET    /                               *)
| CollectionDetails    (* GET    /:collectionName                *)
| CollectionDocuments  (* GET    /:collectionName/documents      *)
| CollectionCreate     (* POST   /:collectionName/documents      *)
| CollectionUpdate     (* PUT    /:collectionName/documents/:id  *)
| CollectionDelete     (* DELETE /:collectionName/documents/:id  *)
| CollectionAnalyze.   (* POST   /:collectionName/analyze        *)

Definition collectionRoutes : list (Method * list Segment * CollectionHandler) :=
  [ (GET, [], CollectionsOverview);
    (GET, [Param "collectionName"], CollectionDetails);
    (GET, [Param "collectionName"; Lit "documents"], CollectionDocuments);
    (POST, [Param "collectionName"; Lit "documents"], CollectionCreate);
    (PUT, [Param "collectionName"; Lit "documents"; Param "id"], CollectionUpdate);
    (DELETE, [Param "collectionName"; Lit "documents"; Param "id"],
     CollectionDelete);
    (POST, [Param "collectionName"; Lit "analyze"], CollectionAnalyze) ].

(** The first route of a router whose method and path match; none of the
    handlers of these routers calls [next()] once its validation chain has
    run. *)
Fixpoint route {H : Type} (table : list (Method * list Segment * H))
    (m : Method) (path : list string) : option (H * list (string * string)) :=
  match table with
  | [] => None
  | (m', pattern, h) :: table' =>
      if method_eqb m m' then
        match matchPath pattern path with
        | Some ps => Some (h, ps)
        | None => route table' m path
        end
      else route table' m path
  end.

(** The part of a path below a mount point, when the path lies below it;
    the segments of a mount path match without regard to case. *)
Fixpoint stripPrefix (prefix path : list string) : option (list string) :=
  match prefix, path with
  | [], rest => Some rest
  | p :: prefix', seg :: path' =>
      if String.eqb (JS.toLowerCase seg) (JS.toLowerCase p)
      then stripPrefix prefix' path' else None
  | _ :: _, [] => None
  end.

(** Whether a path consists of the given literals. *)
Definition isPath (literals path : list string) : bool :=
  match matchPath (Lit <$> literals) path with
  | Some _ => true
  | None => false
  end.

(** The method of a request: one of the five that the routers register
    routes for, HEAD, OPTIONS, or any other. *)
Inductive Verb : Type :=
| Standard (m : Method)
| HEAD
| OPTIONS
| OtherVerb (name : string).

(** The method that a route is matched against: a [get] route also answers
    HEAD (no route is registered for HEAD itself); no route answers the
    other methods. *)
Definition routed (v : Verb) : option Method :=
  match v with
  | Standard m => Some m
  | HEAD => Some GET
  | OPTIONS | OtherVerb _ => None
  end.

(** What the body parsers ([express.json], [express.urlencoded]) make of
    the body of a request: parsed (or nothing to parse), or an error, such
    as malformed JSON or a body over the size limit. *)
Inductive BodyParse : Type := Parsed | ParseFailed.

(** A request as the application sees it.  A path is given by its
    segments.  [overLimit k] is the verdict of the rate limiter when the
    request reaches it for the [k]-th time, counted from 0 (the limiter is
    registered under [/api] and again behind every mount point). *)
Record Request : Type := mkRequest {
  verb : Verb;
  path : list string;
  headers : gmap string string;
  body : BodyParse;
  overLimit : nat -> bool
}.

(** Who answers a request. *)
Inductive Answer : Type :=
| Preflight                           (* the 204 of [cors()] *)
| ParserError                         (* handed to the error handler *)
| RateLimited                         (* the 429 of the rate limiter *)
| Health
| GenerateApiKey
| Denied (outcome : Auth.Outcome)     (* the 401 or 403 of [authenticateApiKey] *)
| Database (h : DatabaseHandler) (params : list (string * string))
| Schemas (h : SchemaHandler) (params : list (string * string))
| Collections (h : CollectionHandler) (params : list (string * string))
| Universal (h : Handler) (params : list (string * string))
| Root
| RouteNotFound.                      (* the 404 of [app.use('*', ...)] *)

(** [app.use(prefix, authenticateApiKey, apiLimiter, router)]: below the
    mount point the key is checked first, then the rate limiter is asked,
    then the router looks for a route; without one the request goes on to
    the layers registered later ([next]).  [k] counts the earlier visits
    to the rate limiter. *)
Definition mounted {H : Type} (prefix : list string)
    (router : Method -> list string -> option (H * list (string * string)))
    (answer : H -> list (string * string) -> Answer)
    (configKey : string) (r : Request) (k : nat) (next : nat -> Answer) : Answer :=
  match stripPrefix prefix (path r) with
  | None => next k
  | Some rest =>
      match Auth.authenticateApiKey configKey (headers r) with
      | Auth.Next _ =>
          if overLimit r k then RateLimited
          else
            match routed (verb r) with
            | Some m =>
                match router m rest with
                | Some (h, ps) => answer h ps
                | None => next (S k)
                end
            | None => next (S k)
            end
      | denied => Denied denied
      end
  end.

(** [app.get(path, ...)] for a path of literals. *)
Definition gets (r : Request) (literals : list string) : bool :=
  match routed (verb r) with
  | Some GET => isPath literals (path r)
  | _ => false
  end.

(** The layers of the application in the order of index.js; [configKey] is
    [config.api.key] and [version] is [config.api.version], one path
    segment.  [cors()] answers every OPTIONS request itself; an error of
    the body parsers goes to the error handler, past every route. *)
Definition answer (configKey version : string) (r : Request) : Answer :=
  let api := ["api"; version] in
  match verb r, body r with
  | OPTIONS, _ => Preflight
  | _, ParseFailed => ParserError
  | _, Parsed =>
      let underApi :=
        match stripPrefix ["api"] (path r) with Some _ => true | None => false end in
      if underApi && overLimit r 0 then RateLimited
      else if gets r ["health"] then Health
      else if gets r ["generate-api-key"] then GenerateApiKey
      else
        mounted (api ++ ["database"]) (route databaseRoutes) Database
          configKey r (if underApi then 1%nat else 0%nat) (fun k =>
        mounted (api ++ ["schemas"]) (route schemaRoutes) Schemas
          configKey r k (fun k =>
        mounted (api ++ ["collections"]) (route collectionRoutes) Collections
          configKey r k (fun k =>
        mounted api dispatch Universal
          configKey r k (fun _ =>
        if gets r [] then Root else RouteNotFound))))
  end.

(** Who answers a request of one of the five methods that the layers in
    front of the routes let through: its body parses and the rate limiter
    never turns it down. *)
Definition handle (configKey version : string) (headers : gmap string string)
    (m : Method) (path : list string) : Answer :=
  answer configKey version
    (mkRequest (Standard m) path headers Parsed (fun _ => false)).

(** Whether the answer comes from a handler of one of the four routers. *)
Definition fromRouter (a : Answer) : bool :=
  match a with
  | Database _ _ | Schemas _ _ | Collections _ _ | Universal _ _ => true
  | _ => false
  end.

End App.

(** ** Export of a backup (POST /backup of the database router) *)

Module BackupRoute.

Section Collaborators.

(** What the handler reads besides the documents: the name of the database,
    the time of the request as an ISO string, and per collection the
    statistics ([count] and [size], [None] when [stats()] is rejected) and
    the index descriptors ([indexes()], empty when rejected). *)
Variable databaseName : string.
Variable now : string.
Variable stats : Server -> string -> option (Z * Z).
Variable indexes : Server -> string -> list Store.IndexDescriptor.

(** [db.listCollections().toArray().map(col => col.name)] *)
Definition listCollections (s : Server) : list string :=
  (map_to_list (collections s)).*1.




(** [collections.length > 0 ? collections : allCollections.map(...)] *)
Definition targetCollections (s : Server) (names : list string) : list string :=
  match names with
  | [] => listCollections s
  | _ => names
  end.



End Collaborators.

End BackupRoute.

(** [object[key]] on an object given by its entries. *)
Definition lookupEntry (l : list (string * Database.CollectionBackup)) (n : string)
    : option Database.CollectionBackup :=
  snd <$> List.find (fun e => String.eqb (fst e) n) l.




(** No unique secondary index ever turns one of the documents down. *)
Definition neverRejected (engine : Engine) (docs : list Store.Document) : Prop :=
  forall indexes stored d, d ∈ docs -> rejects engine indexes stored d = false.


(** How a restore fails at the collection [failing], leaving the state
    [s']: the bulk insert of the documents of its entry throws, which takes
    a repeated identifier or a document that a unique index turns down, and
    the collection holds documents of the entry only; or the backup object
    only inherits a member of that name, and then the collection has been
    cleared and the loop over [collectionData.indexes] throws. *)
Definition failedAt (engine : Engine) (b : Database.Backup) (failing : string)
    (e : Error) (s' : Server) : Prop :=
  match Database.member b failing with
  | Database.Own cd =>
      e = BulkWriteError /\
      ~ (NoDup (Store.doc_id <$> backedUp cd) /\ neverRejected engine (backedUp cd)) /\
      forall oid body,
        Store.documents (Collection.read s' failing) !! oid = Some body ->
        Store.mkDocument oid body ∈ backedUp cd
  | Database.Inherited =>
      e = TypeError /\ Store.documents (Collection.read s' failing) = ∅
  | Database.Undefined => False
  end.


(** ** A router that cannot compile its model *)




(** * Properties *)

(** Projections of an updated server state. *)
Ltac srv :=
  cbn [schemas collections mongooseModels universalCache collectionsCache dbLog
       set_schemas set_collections set_mongooseModels set_universalCache
       set_collectionsCache set_dbLog negb fst snd] in *.

(** Unfolds the plumbing of the computations. *)
Ltac run :=
  repeat (progress (unfold tryCatch, withValidation, db, bind, ret, throw, get,
                      modify in *;
                    cbn beta iota zeta in *; srv)).

(** ** Sanity checks of the built-ins on concrete inputs *)

Example parseFloat_100 : JS.parseFloat "100" = JS.Dec false 100 0.
Proof. reflexivity. Qed.

Example parseFloat_frac : JS.parseFloat " -12.50e1x" = JS.Dec true 1250 (-1).
Proof. reflexivity. Qed.

Example parseFloat_eq5 : JS.parseFloat "=5" = JS.NaN.
Proof. reflexivity. Qed.

Example parseInt_12px : JS.parseInt "12px" = JS.Finite 12.
Proof. reflexivity. Qed.

Example parseInt_hex : JS.parseInt "0x1f" = JS.Finite 31.
Proof. reflexivity. Qed.

Example parseInt_undefined : JS.parseIntOpt None = JS.NotANumber.
Proof. reflexivity. Qed.

Example parseInt_rounds :
  JS.parseInt "9007199254740993" = JS.Finite 9007199254740992.
Proof. reflexivity. Qed.

Example toNumber_tie_up : JS.toNumber (2 ^ 53 + 3) = JS.Finite (2 ^ 53 + 4).
Proof. reflexivity. Qed.

Example toNumber_overflow : JS.toNumber (2 ^ 1024) = JS.Infinite false.
Proof. vm_compute. reflexivity. Qed.

Example ceilDiv_third : JS.ceilDiv (JS.Finite 1) (JS.Finite 3) = JS.Finite 1.
Proof. vm_compute. reflexivity. Qed.

Example setProperty_order :
  JS.setProperty "1" tt (JS.setProperty "b" tt (JS.setProperty "2" tt []))
  = [("1", tt); ("2", tt); ("b", tt)].
Proof. reflexivity. Qed.

Example split_commas : JS.split "a,,b" "," = ["a"; ""; "b"].
Proof. reflexivity. Qed.

Example trim_both : JS.trim "  Or ders " = "Or ders".
Proof. reflexivity. Qed.

Example isInt_plus5 : Validator.isInt (Some 1) None "+5" = true.
Proof. reflexivity. Qed.

Example isInt_empty : Validator.isInt (Some 1) None "" = false.
Proof. reflexivity. Qed.

Example isInt_1001 : Validator.isInt (Some 1) (Some 1000) "1001" = false.
Proof. reflexivity. Qed.

Example isMongoId_ok : Validator.isMongoId "507f1f77bcf86cd799439011" = true.
Proof. reflexivity. Qed.

Example isMongoId_stats : Validator.isMongoId "stats" = false.
Proof. reflexivity. Qed.

Example translate_gt : QueryTranslator.translateValue ">100" = QueryTranslator.P_gt (JS.Dec false 100 0).
Proof. reflexivity. Qed.

Example translate_ne : QueryTranslator.translateValue "!=done" = QueryTranslator.P_ne "done".
Proof. reflexivity. Qed.

Example translate_in : QueryTranslator.translateValue "a,b" = QueryTranslator.P_in ["a"; "b"].
Proof. reflexivity. Qed.

Example translate_num : QueryTranslator.translateValue "0x10" = QueryTranslator.P_number (JS.Dec false 0 0).
Proof. reflexivity. Qed.

Example translate_str : QueryTranslator.translateValue "12px" = QueryTranslator.P_string "12px".
Proof. reflexivity. Qed.

Example pages_12_5 :
  QueryTranslator.pagesOf (JS.Finite 12) (JS.Finite 5) = JS.Finite 3.
Proof. vm_compute. reflexivity. Qed.

Example sort_repeated :
  QueryTranslator.buildSort {[ "sort" := "a,-a,10,9" ]}
  = [("9", QueryTranslator.Ascending); ("10", QueryTranslator.Ascending);
     ("a", QueryTranslator.Descending)].
Proof. reflexivity. Qed.

Example fields_repeated :
  QueryTranslator.buildFields {[ "fields" := "a, b ,a" ]} = ["a"; "b"].
Proof. reflexivity. Qed.

(** ** Query translation *)

Section FilterLoop.
Import QueryTranslator.

(** What the loop has stored under [k] after it has run over the keys [l]. *)
Lemma foldl_step_lookup (q : gmap string string) (l : list string)
    (acc : gmap string Predicate) (k : string) :
  foldl (step q) acc l !! k =
  if bool_decide (k ∈ l) && negb (isReserved k)
  then match q !! k with
       | Some v => Some (translateValue v)
       | None => acc !! k
       end
  else acc !! k.
Proof.
  revert acc. induction l as [|x l IH]; intros acc; simpl.
  - reflexivity.
  - rewrite IH. clear IH.
    destruct (decide (k = x)) as [->|Hne].
    + rewrite (bool_decide_eq_true_2 (x ∈ x :: l)) by left. simpl.
      unfold step. destruct (isReserved x) eqn:Hres; simpl.
      * by rewrite Bool.andb_false_r.
      * destruct (q !! x) as [v|] eqn:Hq.
        -- rewrite lookup_insert_eq. by destruct (bool_decide (x ∈ l)).
        -- by destruct (bool_decide (x ∈ l)).
    + assert (Hacc : step q acc x !! k = acc !! k).
      { unfold step. destruct (isReserved x); [done|].
        destruct (q !! x); [|done]. by rewrite lookup_insert_ne. }
      rewrite Hacc.
      assert (Hdec : bool_decide (k ∈ x :: l) = bool_decide (k ∈ l)).
      { apply bool_decide_ext. rewrite elem_of_cons. tauto. }
      by rewrite Hdec.
Qed.

(** The filter object holds, for every key of the query string that is not
    reserved, the translation of its value, and nothing else. *)
Lemma buildFilter_lookup (q : gmap string string) (k : string) :
  buildFilter q !! k =
  if isReserved k then None else translateValue <$> q !! k.
Proof.
  unfold buildFilter. rewrite foldl_step_lookup, lookup_empty.
  destruct (isReserved k); simpl.
  - by rewrite Bool.andb_false_r.
  - destruct (q !! k) as [v|] eqn:Hq; simpl.
    + rewrite bool_decide_eq_true_2; [done|].
      unfold keys. apply list_elem_of_fmap. exists (k, v). split; [done|].
      by apply elem_of_map_to_list.
    + by destruct (bool_decide _).
Qed.

(** A value that starts with two characters [a], [b] starts with [a]. *)
Lemma startsWith_two (value : string) (a b : ascii) :
  JS.startsWith value (String a (String b EmptyString)) = true ->
  JS.startsWith value (String a EmptyString) = true.
Proof.
  destruct value as [|c value]; cbn [JS.startsWith]; [done|].
  destruct (Ascii.eqb a c); [|done]. by destruct value.
Qed.

(** The first test of the chain decides every value that starts with
    [>=]: it is read as a greater-than on the text after the first
    character. *)
Lemma translateValue_ge_prefix (value : string) :
  JS.startsWith value ">=" = true ->
  translateValue value = P_gt (JS.parseFloat (JS.substring value 1)).
Proof.
  intros H. unfold translateValue. by rewrite (startsWith_two _ _ _ H).
Qed.

Lemma translateValue_le_prefix (value : string) :
  JS.startsWith value "<=" = true ->
  translateValue value = P_lt (JS.parseFloat (JS.substring value 1)).
Proof.
  intros H. pose proof (startsWith_two _ _ _ H) as H1.
  destruct value as [|c value]; [done|]. cbn [JS.startsWith] in H1.
  destruct (Ascii.eqb_spec "<" c) as [<-|]; [|done].
  reflexivity.
Qed.

(** The branches for [>=] and [<=] are never taken. *)
Lemma translateValue_never_gte_lte (value : string) (n : JS.Number) :
  translateValue value <> P_gte n /\ translateValue value <> P_lte n.
Proof.
  unfold translateValue.
  destruct (JS.startsWith value ">") eqn:H1; [done|].
  destruct (JS.startsWith value "<") eqn:H2; [done|].
  destruct (JS.startsWith value ">=") eqn:H3.
  { apply startsWith_two in H3. congruence. }
  destruct (JS.startsWith value "<=") eqn:H4.
  { apply startsWith_two in H4. congruence. }
  repeat match goal with
         | |- context [if ?c then _ else _] => destruct c
         end; done.
Qed.

End FilterLoop.

(** C1 (the claim fails on the code): a filter parameter whose raw value
    begins with [>=] is read by the first test of the chain, the one for
    [>], so the filter holds a greater-than on the text after the first
    character, which starts with [=] and parses to NaN; a value that begins
    with [<=] likewise gives a less-than on NaN.  Evaluated on the query
    string [price=>=5&stock=<=5] for both list handlers' translation. *)
Theorem C1_ge_le_read_as_gt_lt :
  let q : gmap string string := {[ "price" := ">=5"; "stock" := "<=5" ]} in
  QueryTranslator.buildFilter q !! "price" = Some (QueryTranslator.P_gt JS.NaN) /\
  QueryTranslator.buildFilter q !! "stock" = Some (QueryTranslator.P_lt JS.NaN) /\
  QueryTranslator.translateValue ">=5" <> QueryTranslator.P_gte (JS.parseFloat "5") /\
  QueryTranslator.translateValue "<=5" <> QueryTranslator.P_lte (JS.parseFloat "5").
Proof.
  cbv zeta. rewrite !buildFilter_lookup.
  repeat split; try reflexivity; apply translateValue_never_gte_lte.
Qed.

(** ** Pagination of the list handlers *)

Section Pagination.
Import QueryTranslator.

Lemma isDigit_not_space (a : ascii) : JS.isDigit a = true -> JS.isSpace a = false.
Proof.
  unfold JS.isDigit, JS.isSpace. intros H.
  apply andb_prop in H as [H1 H2].
  apply Nat.leb_le in H1. apply Nat.leb_le in H2.
  apply Bool.orb_false_iff. split.
  - apply Bool.andb_false_iff. right. apply Nat.leb_gt. lia.
  - apply Nat.eqb_neq. lia.
Qed.

Lemma isDigit_not_char (a c : ascii) :
  JS.isDigit a = true -> JS.isDigit c = false -> Ascii.eqb c a = false.
Proof.
  intros Ha Hc. destruct (Ascii.eqb_spec c a) as [->|]; congruence.
Qed.

Lemma isDigit_is_not (a c : ascii) :
  JS.isDigit a = true -> JS.isDigit c = false -> Ascii.eqb a c = false.
Proof.
  intros Ha Hc. destruct (Ascii.eqb_spec a c) as [->|]; congruence.
Qed.

Lemma spanDigits_all (r : string) :
  JS.allChars JS.isDigit r = true -> JS.spanDigits r = (r, EmptyString).
Proof.
  induction r as [|a r IH]; simpl; [done|].
  intros H. apply andb_prop in H as [Ha Hr].
  by rewrite Ha, (IH Hr).
Qed.

(** On a string of digits [parseInt] reads what the validator measured. *)
Lemma parseMagnitude_digits (r : string) :
  JS.nonEmpty r = true -> JS.allChars JS.isDigit r = true ->
  JS.parseMagnitude r = Some (JS.digitsValue 0 r).
Proof.
  intros Hne Hall. destruct r as [|a r]; [done|].
  pose proof Hall as Hall'.
  cbn [JS.allChars] in Hall. apply andb_prop in Hall as [Ha Hr].
  unfold JS.parseMagnitude.
  assert (Hx : JS.startsWith (String a r) "0x" || JS.startsWith (String a r) "0X" = false).
  { destruct r as [|b r]; cbn [JS.startsWith].
    - by rewrite !Bool.andb_false_r.
    - cbn [JS.allChars] in Hr. apply andb_prop in Hr as [Hb _].
      rewrite (isDigit_not_char b "x" Hb eq_refl), (isDigit_not_char b "X" Hb eq_refl).
      by rewrite !Bool.andb_false_r. }
  rewrite Hx, (spanDigits_all _ Hall'). reflexivity.
Qed.

Lemma signed_digits_trimStart (v r : string) (neg : bool) :
  JS.takeSign v = (neg, r) ->
  JS.nonEmpty r = true -> JS.allChars JS.isDigit r = true ->
  JS.trimStart v = v.
Proof.
  destruct v as [|c v]; [done|].
  unfold JS.takeSign. cbn [JS.trimStart].
  destruct (Ascii.eqb_spec c "-") as [->|_]; [done|].
  destruct (Ascii.eqb_spec c "+") as [->|_]; [done|].
  intros [= _ <-] _ Hall. cbn [JS.allChars] in Hall.
  apply andb_prop in Hall as [Hc _]. by rewrite (isDigit_not_space c Hc).
Qed.

Lemma isInt_readInt (lo hi : option Z) (v : string) :
  Validator.isInt lo hi v = true ->
  exists n, JS.readInt v = Some n /\
            (forall l, lo = Some l -> l <= n) /\
            (forall h, hi = Some h -> n <= h).
Proof.
  unfold Validator.isInt, JS.readInt.
  destruct (JS.takeSign v) as [neg r] eqn:Hsign.
  intros H. apply andb_prop in H as [H Hb].
  apply andb_prop in H as [Hne Hall]. apply andb_prop in Hb as [Hlo Hhi].
  rewrite (signed_digits_trimStart v r neg Hsign Hne Hall), Hsign.
  rewrite (parseMagnitude_digits r Hne Hall). cbn [fmap option_fmap option_map].
  eexists. split; [reflexivity|]. split.
  - intros l ->. by apply Z.leb_le.
  - intros h ->. by apply Z.leb_le.
Qed.

(** Integers up to 2^53 are doubles. *)
Lemma toNumber_exact (z : Z) : Z.abs z <= 2 ^ 53 -> JS.toNumber z = JS.Finite z.
Proof.
  intros H. destruct (Z.eq_dec (Z.abs z) (2 ^ 53)) as [Heq|Hne].
  - destruct (Z.abs_spec z) as [[_ Ha]|[_ Ha]].
    + assert (z = 2 ^ 53) as -> by lia. vm_compute. reflexivity.
    + assert (z = - 2 ^ 53) as -> by lia. vm_compute. reflexivity.
  - unfold JS.toNumber.
    assert (Hl : Z.log2 (Z.abs z) - 52 <= 0).
    { destruct (Z.eq_dec (Z.abs z) 0) as [->|Hz]; [done|].
      assert (Z.log2 (Z.abs z) < 53); [|lia].
      apply Z.log2_lt_pow2; lia. }
    apply Z.leb_le in Hl. cbv zeta. by rewrite Hl.
Qed.

(** A positive integer is read as a positive number. *)
Lemma toNumber_positive (z : Z) :
  1 <= z ->
  JS.toNumber z = JS.Infinite false \/
  exists v, JS.toNumber z = JS.Finite v /\ 1 <= v.
Proof.
  intros Hz. unfold JS.toNumber. cbv zeta.
  rewrite (Z.abs_eq z) by lia.
  destruct (Z.leb_spec (Z.log2 z - 52) 0) as [_|Hex].
  { right. by exists z. }
  assert (Hnot : (z <? 0) = false) by (apply Z.ltb_ge; lia).
  rewrite Hnot, (Z.sgn_pos z) by lia.
  destruct (2 ^ 1024 <=? _); [by left|right].
  eexists. split; [reflexivity|].
  set (k := Z.log2 z - 52) in *.
  assert (Hu : 0 < 2 ^ k) by (apply Z.pow_pos_nonneg; lia).
  assert (Hq : 1 <= z / 2 ^ k).
  { apply Z.div_le_lower_bound; [lia|].
    pose proof (Z.log2_spec z ltac:(lia)) as [Hlo _].
    assert (2 ^ k <= 2 ^ Z.log2 z); [|lia].
    apply Z.pow_le_mono_r; lia. }
  destruct (_ || _); nia.
Qed.

Lemma orDefault_positive (z : Z) (d : JS.Integral) :
  1 <= z -> JS.orDefault (JS.toNumber z) d = JS.toNumber z.
Proof.
  intros Hz. destruct (toNumber_positive z Hz) as [->|(v & -> & Hv)]; [done|].
  unfold JS.orDefault. destruct (Z.eqb_spec v 0); [lia|done].
Qed.

(** The chain accepts a request exactly when [page] and [limit], if
    present, pass their integer checks. *)
Lemma validateList_nil (q : gmap string string) :
  validateList q = [] <->
  (forall v, q !! "page" = Some v -> Validator.isInt (Some 1) None v = true) /\
  (forall v, q !! "limit" = Some v -> Validator.isInt (Some 1) (Some 1000) v = true).
Proof.
  unfold validateList, Validator.optional.
  destruct (q !! "page") as [p|], (q !! "limit") as [l|];
    repeat match goal with
           | |- context [if ?c then _ else _] => destruct c eqn:?
           end; cbn [app]; split;
    try done; try (intros [H1 H2]);
    try (specialize (H1 _ eq_refl)); try (specialize (H2 _ eq_refl));
    try congruence; intros _; split; intros ? [= <-]; done.
Qed.

(** A well-formed request: [page] is the number nearest to the integer
    written in the query string, or the default. *)
Lemma pageOf_valid (q : gmap string string) :
  validateList q = [] ->
  1 <= written q "page" 1 /\
  pageOf q = JS.toNumber (written q "page" 1).
Proof.
  intros H. apply validateList_nil in H as [Hp _].
  unfold pageOf, written. destruct (q !! "page") as [v|]; [|done].
  destruct (isInt_readInt _ _ _ (Hp v eq_refl)) as (n & Hn & Hlo & _).
  specialize (Hlo 1 eq_refl).
  unfold JS.parseIntOpt, JS.parseInt. cbn [default from_option id]. rewrite Hn.
  cbn [default from_option id]. split; [done|]. by apply orDefault_positive.
Qed.

(** A well-formed request: [limit] is the integer written in the query
    string, or the default, and lies in its range. *)
Lemma limitOf_valid (q : gmap string string) :
  validateList q = [] ->
  1 <= written q "limit" 10 <= 1000 /\
  limitOf q = JS.Finite (written q "limit" 10).
Proof.
  intros H. apply validateList_nil in H as [_ Hl].
  unfold limitOf, written. destruct (q !! "limit") as [v|]; [|done].
  destruct (isInt_readInt _ _ _ (Hl v eq_refl)) as (n & Hn & Hlo & Hhi).
  specialize (Hlo 1 eq_refl). specialize (Hhi 1000 eq_refl).
  unfold JS.parseIntOpt, JS.parseInt. cbn [default from_option id]. rewrite Hn.
  cbn [default from_option id]. split; [lia|].
  rewrite orDefault_positive by done. apply toNumber_exact.
  rewrite Z.abs_eq by lia. etransitivity; [exact Hhi|]. done.
Qed.

(** Below 2^53 the skip is the product written in the source, without
    rounding. *)
Lemma skipOf_exact (q : gmap string string) :
  validateList q = [] ->
  (written q "page" 1 - 1) * written q "limit" 10 < 2 ^ 53 ->
  pageOf q = JS.Finite (written q "page" 1) /\
  skipOf q = JS.Finite ((written q "page" 1 - 1) * written q "limit" 10).
Proof.
  intros Hvalid Hsmall.
  destruct (pageOf_valid q Hvalid) as [Hp1 Hp].
  destruct (limitOf_valid q Hvalid) as [[Hl1 Hl2] Hl].
  assert (Hpe : pageOf q = JS.Finite (written q "page" 1)).
  { rewrite Hp. apply toNumber_exact. rewrite Z.abs_eq by lia. nia. }
  split; [done|].
  unfold skipOf. rewrite Hpe, Hl. cbn [JS.sub JS.mul].
  rewrite toNumber_exact by (rewrite Z.abs_eq by lia; nia).
  cbn [JS.mul]. apply toNumber_exact. rewrite Z.abs_eq by nia. lia.
Qed.

Lemma nearestEven_bounds (n d : Z) :
  0 < d ->
  n / d <= JS.nearestEven n d <= n / d + 1 /\
  (n mod d = 0 -> JS.nearestEven n d = n / d).
Proof.
  intros Hd. unfold JS.nearestEven. cbv zeta. split.
  - destruct (2 * (n mod d) <? d); [lia|].
    destruct (d <? 2 * (n mod d)); [lia|].
    destruct (Z.even (n / d)); lia.
  - intros ->. by destruct (Z.ltb_spec (2 * 0) d); [|lia].
Qed.

(** [Math.ceil(total / limit)] is the least number of pages of [limit]
    documents that hold [total] documents, as long as the rounding of the
    quotient cannot reach the next integer: for totals below 2^43 and
    limits up to 1000. *)
Lemma ceilDiv_exact (total limit : Z) :
  0 <= total < 2 ^ 43 -> 1 <= limit <= 1000 ->
  exists p,
    JS.ceilDiv (JS.Finite total) (JS.Finite limit) = JS.Finite p /\
    (p - 1) * limit < total <= p * limit.
Proof.
  intros Ht Hl.
  set (p := - ((- total) / limit)).
  assert (Hp : (p - 1) * limit < total <= p * limit).
  { pose proof (Z.div_mod (- total) limit ltac:(lia)) as Hdm.
    pose proof (Z.mod_pos_bound (- total) limit ltac:(lia)) as Hb.
    subst p. nia. }
  exists p. split; [|exact Hp].
  unfold JS.ceilDiv.
  destruct (Z.eqb_spec limit 0) as [|_]; [lia|].
  rewrite (Z.abs_eq total), (Z.abs_eq limit) by lia.
  assert (Hs1 : (total <? 0) = false) by (apply Z.ltb_ge; lia).
  assert (Hs2 : (limit <? 0) = false) by (apply Z.ltb_ge; lia).
  unfold JS.quotient. cbv zeta. rewrite Hs1, Hs2. cbn [Bool.eqb].
  set (F := total * 2 ^ 1074 / limit).
  set (e := Z.max (-1074) (Z.log2 F - 1126)).
  assert (He : -1074 <= e <= -10).
  { subst e. split; [lia|].
    destruct (Z.le_gt_cases F 0) as [HF|HF].
    - rewrite (Z.log2_nonpos F HF). lia.
    - assert (Z.log2 F < 1117); [|lia].
      apply Z.log2_lt_pow2; [done|].
      assert (HP : 0 < 2 ^ 1074) by (by apply Z.pow_pos_nonneg).
      assert (F <= total * 2 ^ 1074).
      { subst F. apply Z.div_le_upper_bound; [lia|]. nia. }
      assert (total * 2 ^ 1074 < 2 ^ 43 * 2 ^ 1074) by nia.
      replace (2 ^ 1117) with (2 ^ 43 * 2 ^ 1074); [lia|].
      rewrite <- Z.pow_add_r by lia. done. }
  destruct (Z.ltb_spec e 0) as [_|]; [|lia].
  f_equal. unfold JS.ceilDyadic.
  destruct (Z.ltb_spec e 0) as [_|]; [|lia].
  set (K := 2 ^ (- e)).
  assert (HK : 1024 <= K).
  { subst K. change 1024 with (2 ^ 10). apply Z.pow_le_mono_r; lia. }
  set (N := total * K).
  destruct (nearestEven_bounds N limit ltac:(lia)) as [[Hlo Hhi] Hex].
  set (m := JS.nearestEven N limit) in *.
  pose proof (Z.div_mod N limit ltac:(lia)) as Hdm.
  pose proof (Z.mod_pos_bound N limit ltac:(lia)) as Hb.
  assert (Hupper : m <= p * K).
  { destruct (Z.eq_dec (N mod limit) 0) as [Hr|Hr].
    - rewrite (Hex Hr). apply Z.div_le_upper_bound; [lia|]. subst N. nia.
    - assert (N / limit < p * K); [|lia].
      apply Z.div_lt_upper_bound; [lia|].
      assert (N <= limit * (p * K)) by (subst N; nia).
      destruct (Z.eq_dec N (limit * (p * K))) as [Heq|]; [|lia].
      exfalso. apply Hr. rewrite Heq, Z.mul_comm. apply Z.mod_mul. lia. }
  assert (Hlower : (p - 1) * K < m).
  { assert ((p - 1) * K + 1 <= N / limit); [|lia].
    apply Z.div_le_lower_bound; [lia|]. subst N. nia. }
  assert (Hd : - p = (- m) / K).
  { apply (Z.div_unique (- m) K (- p) (p * K - m)); lia. }
  rewrite <- Hd. lia.
Qed.

End Pagination.

Section ListHandlers.
Import QueryTranslator DocumentRoutes.

Variable engine : Engine.

Lemma malformed_rejected (q : gmap string string) :
  malformed q -> validateList q <> [].
Proof.
  intros Hm Hnil. apply validateList_nil in Hnil as [Hp Hl].
  destruct Hm as [(v & Hv & Hbad)|(v & Hv & Hbad)].
  - rewrite (Hp v Hv) in Hbad. done.
  - rewrite (Hl v Hv) in Hbad. done.
Qed.

(** The shared body, run behind the validation chain and inside the
    handler's [try]. *)
Lemma listBody_answers (getModel : string -> M Mongoose.Model)
    (message collection : string) (q : gmap string string)
    (s s1 : Server) (m : Mongoose.Model) :
  validateList q = [] ->
  getModel collection s = (inr m, s1) ->
  listAnswers engine message
    (withValidation (validateList q)
       (tryCatch (listBody engine getModel collection q) message) s)
    q m s1.
Proof.
  intros Hvalid Hmodel. rewrite Hvalid.
  unfold listBody, listAnswers, find, countDocuments, runQuery, Collection.read.
  run. rewrite Hmodel. run.
  destruct (evalFind engine _ _ _ _ _ _ _) as [documents|e|e]; run; [|done|done].
  destruct (evalCount engine _ _ _) as [n|e|e]; run;
    rewrite <- ?app_assoc; reflexivity.
Qed.

End ListHandlers.

(** C8: for both list handlers, a malformed [page] or [limit] is answered
    with the validation error and the server state, the log of database
    calls included, is left as it was; an absent [page] is 1 and an absent
    [limit] is 10; in a well-formed request [limit] is the integer written
    in the query string, in [1, 1000], and [page] the number nearest to the
    integer written there, which is at least 1.  Once the router has its
    model the handler issues the find with [skip = (page - 1) * limit] and,
    unless the engine turns the query down, reports
    [pages = Math.ceil(total / limit)].  These are the products and
    quotients of the source computed on doubles: the skip is the exact
    product as long as that is below 2^53, and the page count is the least
    number of pages that holds [total] documents for every total below
    2^43. *)
Theorem C8_list_pagination
    (engine : Engine) (collection : string) (q : gmap string string) (s : Server) :
  (malformed q ->
   exists errors, errors <> [] /\
     DocumentRoutes.universalList engine collection q s
       = (ValidationFailed errors, s) /\
     DocumentRoutes.collectionsList engine collection q s
       = (ValidationFailed errors, s)) /\
  (q !! "page" = None -> QueryTranslator.pageOf q = JS.Finite 1) /\
  (q !! "limit" = None -> QueryTranslator.limitOf q = JS.Finite 10) /\
  (QueryTranslator.validateList q = [] ->
   let P := written q "page" 1 in
   let L := written q "limit" 10 in
   1 <= P /\ 1 <= L <= 1000 /\
   QueryTranslator.pageOf q = JS.toNumber P /\
   QueryTranslator.limitOf q = JS.Finite L /\
   ((P - 1) * L < 2 ^ 53 ->
    QueryTranslator.pageOf q = JS.Finite P /\
    QueryTranslator.skipOf q = JS.Finite ((P - 1) * L)) /\
   (forall n : nat, Z.of_nat n < 2 ^ 43 ->
    exists pages,
      QueryTranslator.pagesOf (JS.toNumber (Z.of_nat n)) (QueryTranslator.limitOf q)
        = JS.Finite pages /\
      (pages - 1) * L < Z.of_nat n <= pages * L) /\
   (forall m s1, Universal.getDynamicModel collection s = (inr m, s1) ->
      listAnswers engine ("Error fetching documents from " ++ collection)
        (DocumentRoutes.universalList engine collection q s) q m s1) /\
   (forall m s1, Collections.getModelFromSchema collection s = (inr m, s1) ->
      listAnswers engine ("Error fetching documents from " ++ collection)
        (DocumentRoutes.collectionsList engine collection q s) q m s1)).
Proof.
  split; [|split; [|split]].
  - intros Hm. apply malformed_rejected in Hm.
    exists (QueryTranslator.validateList q). split; [done|].
    unfold DocumentRoutes.universalList, DocumentRoutes.collectionsList,
      withValidation.
    by destruct (QueryTranslator.validateList q).
  - intros H. unfold QueryTranslator.pageOf. by rewrite H.
  - intros H. unfold QueryTranslator.limitOf. by rewrite H.
  - intros Hvalid P L.
    destruct (pageOf_valid q Hvalid) as [Hp1 Hp2].
    destruct (limitOf_valid q Hvalid) as [Hl1 Hl2].
    split; [done|]. split; [done|]. split; [done|]. split; [done|].
    split; [by apply skipOf_exact|]. split; [|split].
    + intros n Hn. rewrite Hl2, toNumber_exact.
      * unfold QueryTranslator.pagesOf. apply ceilDiv_exact; lia.
      * rewrite Z.abs_eq by lia.
        assert (2 ^ 43 <= 2 ^ 53) by (apply Z.pow_le_mono_r; lia). lia.
    + intros m s1 Hm. by apply listBody_answers.
    + intros m s1 Hm. by apply listBody_answers.
Qed.

(** C8 at work: [?page=2&limit=5] on a collection with 12 matching
    documents skips 5 and reports 3 pages, and [?page=0] is refused.  The
    database is left aside: it returns no documents and counts 12. *)
Lemma C8_list_pagination_witness :
  let q : gmap string string := {[ "page" := "2"; "limit" := "5" ]} in
  let bad : gmap string string := {[ "page" := "0" ]} in
  let engine :=
    mkEngine (fun _ _ _ _ _ _ _ => Store.Answered [])
             (fun _ _ _ => Store.Answered 12%nat)
             (fun _ _ _ => false) in
  (exists errors,
     DocumentRoutes.universalList engine "orders" bad boot
       = (ValidationFailed errors, boot)) /\
  QueryTranslator.skipOf q = JS.Finite 5 /\
  (exists m s1, listAnswers engine "Error fetching documents from orders"
     (DocumentRoutes.universalList engine "orders" q boot) q m s1) /\
  (exists m s1, listAnswers engine "Error fetching documents from orders"
     (DocumentRoutes.collectionsList engine "orders" q boot) q m s1).
Proof.
  intros q bad engine. split; [|split; [|split]].
  - destruct (C8_list_pagination engine "orders" bad boot) as (H & _).
    destruct H as (errors & _ & H & _).
    + left. exists "0". split; reflexivity.
    + by exists errors.
  - destruct (C8_list_pagination engine "orders" q boot) as (_ & _ & _ & H).
    destruct (H eq_refl) as (_ & _ & _ & _ & Hs & _).
    destruct Hs as [_ Hs]; [reflexivity|exact Hs].
  - destruct (C8_list_pagination engine "orders" q boot) as (_ & _ & _ & H).
    destruct (H eq_refl) as (_ & _ & _ & _ & _ & _ & H1 & _).
    destruct (Universal.getDynamicModel "orders" boot) as [[e|m] s1] eqn:E.
    + vm_compute in E. discriminate E.
    + exists m, s1. by apply H1.
  - destruct (C8_list_pagination engine "orders" q boot) as (_ & _ & _ & H).
    destruct (H eq_refl) as (_ & _ & _ & _ & _ & _ & _ & H2).
    destruct (Collections.getModelFromSchema "orders" boot) as [[e|m] s1] eqn:E.
    + vm_compute in E. discriminate E.
    + exists m, s1. by apply H2.
Defined.

(** ** The schema registry *)

Section Registry.
Import SchemaModel SchemaRoutes.

Lemma lowerChar_idempotent (a : ascii) : JS.lowerChar (JS.lowerChar a) = JS.lowerChar a.
Proof. destruct a as [[] [] [] [] [] [] [] []]; reflexivity. Qed.

Lemma toLowerCase_idempotent (s : string) :
  JS.toLowerCase (JS.toLowerCase s) = JS.toLowerCase s.
Proof.
  induction s as [|a s IH]; simpl; [done|].
  by rewrite lowerChar_idempotent, IH.
Qed.

(** Lower-casing first, as the routes do, does not change the name that
    the setters of the path produce. *)
Lemma castCollectionName_lowered (n : string) :
  castCollectionName (JS.toLowerCase n) = castCollectionName n.
Proof. unfold castCollectionName. by rewrite toLowerCase_idempotent. Qed.

Lemma find_is_Some {A} (p : A -> bool) (l : list A) :
  is_Some (List.find p l) <-> exists x, x ∈ l /\ p x = true.
Proof.
  split.
  - intros [x Hx]. apply find_some in Hx as [Hin Hp].
    exists x. split; [by apply list_elem_of_In|done].
  - intros (x & Hin & Hp). destruct (List.find p l) eqn:E; [done|].
    apply list_elem_of_In in Hin.
    pose proof (find_none p l E x Hin). congruence.
Qed.

(** A path parameter that casts to an ObjectId passes [isMongoId]. *)
Lemma cast_isMongoId (id : string) (oid : ObjectId) :
  Mongoose.castObjectId id = Some oid -> Validator.isMongoId id = true.
Proof.
  unfold Mongoose.castObjectId, Validator.isMongoId, Validator.isHexadecimal.
  destruct id as [|c id]; [done|].
  destruct (String.length (String c id) =? 24)%nat eqn:Hlen; [|done].
  destruct (JS.allChars JS.isHexDigit (String c id)) eqn:Hhex; [|done].
  intros _. cbn [JS.nonEmpty andb orb]. reflexivity.
Qed.



End Registry.




Section UpdateAndDelete.
Import SchemaModel SchemaRoutes.

(** The loop over the keys, in closed form: every key of the body except
    [collectionName] overwrites its path, run through the path's setters;
    the other paths stay. *)
Lemma merge_closed_form (b : SchemaBody) (d : SchemaDoc) :
  merge b d =
  mkSchemaDoc (_id d) (collectionName d)
    (from_option JS.trim (displayName d) (b_displayName b))
    (from_option (fun v => Some (JS.trim v)) (description d) (b_description b))
    (from_option (fmap castField) (fields d) (b_fields b))
    (from_option id (indexes d) (b_indexes b))
    (from_option Some (validationRules d) (b_validationRules b))
    (from_option id (isActive d) (b_isActive b))
    (createdAt d) (updatedAt d).
Proof.
  destruct d.
  destruct b as [[?|] [?|] [?|] [?|] [?|] [?|] [?|]]; reflexivity.
Qed.

Lemma findById_run (id : string) (oid : ObjectId) (s : Server) :
  Mongoose.castObjectId id = Some oid ->
  findById id s =
  (inr (lookup s oid), set_dbLog (dbLog s ++ [Store.SchemaFindById id]) s).
Proof. intros H. unfold findById. run. rewrite H. run. reflexivity. Qed.

Lemma find_hasId (oid : ObjectId) (l : list SchemaDoc) (d : SchemaDoc) :
  List.find (hasId oid) l = Some d -> _id d = oid.
Proof.
  intros H. apply find_some in H as [_ H]. by apply String.eqb_eq in H.
Qed.

Lemma find_replace_same (d' : SchemaDoc) (l : list SchemaDoc) (d : SchemaDoc) :
  List.find (hasId (_id d')) l = Some d ->
  List.find (hasId (_id d')) (replace d' l) = Some d'.
Proof.
  induction l as [|e l IH]; cbn [List.find replace]; [done|].
  destruct (hasId (_id d') e) eqn:He.
  - intros _. cbn [List.find]. unfold hasId. by rewrite String.eqb_refl.
  - intros H. cbn [List.find]. rewrite He. by apply IH.
Qed.

Lemma find_replace_other (oid : ObjectId) (d' : SchemaDoc) (l : list SchemaDoc) :
  oid <> _id d' ->
  List.find (hasId oid) (replace d' l) = List.find (hasId oid) l.
Proof.
  intros Hne. induction l as [|e l IH]; cbn [List.find replace]; [done|].
  destruct (hasId (_id d') e) eqn:He; cbn [List.find].
  - unfold hasId in *. apply String.eqb_eq in He.
    assert (H1 : String.eqb (_id d') oid = false) by (apply String.eqb_neq; congruence).
    assert (H2 : String.eqb (_id e) oid = false) by (apply String.eqb_neq; congruence).
    by rewrite H1, H2.
  - by rewrite IH.
Qed.

Lemma validate_set_updatedAt (now : Time) (d : SchemaDoc) :
  validate (set_updatedAt now d) = validate d.
Proof. reflexivity. Qed.

Lemma validate_deactivate (now : Time) (d : SchemaDoc) :
  validate (deactivate now d) = validate d.
Proof. unfold deactivate. by destruct (isActive d). Qed.

(** Saving a valid document that was read from the store under [oid]. *)
Lemma save_run (d' : SchemaDoc) (s : Server) :
  validate d' = true ->
  save d' s =
  (inr tt, set_schemas (replace d' (schemas s))
             (set_dbLog (dbLog s ++ [Store.SchemaSave (_id d')]) s)).
Proof. intros H. unfold save. run. rewrite H. run. reflexivity. Qed.

(** The update handler on an existing definition. *)
Lemma update_run (id : string) (oid : ObjectId) (now : Time) (b : SchemaBody)
    (s : Server) (d : SchemaDoc) :
  Mongoose.castObjectId id = Some oid ->
  lookup s oid = Some d ->
  b_displayName b <> Some "" ->
  validate (merge b d) = true ->
  update id now b s =
  (Ok (set_updatedAt now (merge b d)),
   set_schemas (replace (set_updatedAt now (merge b d)) (schemas s))
     (set_dbLog (dbLog s ++ [Store.SchemaFindById id; Store.SchemaSave oid]) s)).
Proof.
  intros Hcast Hfind Hname Hvalid.
  assert (Hid : _id d = oid) by (by apply find_hasId in Hfind).
  unfold update, validateUpdate, validateId, Validator.required.
  rewrite (cast_isMongoId id oid Hcast). cbn [app].
  assert (Hv : Validator.optional "displayName" "Display name cannot be empty"
                 JS.nonEmpty (b_displayName b) = []).
  { unfold Validator.optional. destruct (b_displayName b) as [[|c v]|]; done. }
  rewrite Hv. unfold updateBody. run. rewrite (findById_run id oid s Hcast).
  run. rewrite Hfind. run.
  rewrite save_run by (by rewrite validate_set_updatedAt).
  run. rewrite <- app_assoc. cbn [app].
  assert (Hid' : _id (set_updatedAt now (merge b d)) = oid).
  { rewrite merge_closed_form. exact Hid. }
  rewrite Hid'. reflexivity.
Qed.

End UpdateAndDelete.

(** C6: an update of an existing definition, accepted by the validation
    chain and by the document validation of [save], answers 200 and stores
    a definition in which every key of the partial body except
    [collectionName] has overwritten its path (through the path's setters)
    and every path without a key has its previous value; [collectionName]
    keeps its value also when the body carries one, and that is no error;
    [updatedAt] is the time of the update.  The other definitions are
    untouched. *)
Theorem C6_update_partial_merge
    (rawId : string) (oid : ObjectId) (now : Time) (b : SchemaRoutes.SchemaBody)
    (s : Server) (d : SchemaModel.SchemaDoc) :
  Mongoose.castObjectId rawId = Some oid ->
  SchemaRoutes.lookup s oid = Some d ->
  SchemaRoutes.b_displayName b <> Some "" ->
  SchemaModel.validate (SchemaRoutes.merge b d) = true ->
  exists d' s',
    SchemaRoutes.update rawId now b s = (Ok d', s') /\
    SchemaRoutes.lookup s' oid = Some d' /\
    SchemaModel.collectionName d' = SchemaModel.collectionName d /\
    SchemaModel.updatedAt d' = now /\
    SchemaModel._id d' = SchemaModel._id d /\
    SchemaModel.createdAt d' = SchemaModel.createdAt d /\
    SchemaModel.displayName d' =
      from_option JS.trim (SchemaModel.displayName d) (SchemaRoutes.b_displayName b) /\
    SchemaModel.description d' =
      from_option (fun v => Some (JS.trim v)) (SchemaModel.description d)
        (SchemaRoutes.b_description b) /\
    SchemaModel.fields d' =
      from_option (fmap SchemaModel.castField) (SchemaModel.fields d)
        (SchemaRoutes.b_fields b) /\
    SchemaModel.indexes d' =
      from_option id (SchemaModel.indexes d) (SchemaRoutes.b_indexes b) /\
    SchemaModel.validationRules d' =
      from_option Some (SchemaModel.validationRules d)
        (SchemaRoutes.b_validationRules b) /\
    SchemaModel.isActive d' =
      from_option id (SchemaModel.isActive d) (SchemaRoutes.b_isActive b) /\
    (forall oid', oid' <> oid ->
       SchemaRoutes.lookup s' oid' = SchemaRoutes.lookup s oid').
Proof.
  intros Hcast Hfind Hname Hvalid.
  pose proof (find_hasId _ _ _ Hfind) as Hid.
  eexists _, _. split; [by apply (update_run rawId oid now b s d)|].
  unfold SchemaRoutes.lookup. srv.
  rewrite merge_closed_form. cbn.
  split.
  - rewrite <- Hid in Hfind |- *.
    apply (find_replace_same
             (SchemaRoutes.set_updatedAt now
                (SchemaModel.mkSchemaDoc (SchemaModel._id d) _ _ _ _ _ _ _ _ _))
             _ d Hfind).
  - repeat split; try reflexivity.
    intros oid' Hne. apply find_replace_other. cbn. congruence.
Qed.

(** C6 at work: the body [{ collectionName: "invoices", displayName:
    " Purchase orders " }] on the stored definition of [orders]. *)
Lemma C6_update_partial_merge_witness :
  exists d' s',
    SchemaRoutes.update ordersId 5000
      (SchemaRoutes.mkBody (Some "invoices") (Some " Purchase orders ")
         None None None None None) registered = (Ok d', s') /\
    SchemaModel.collectionName d' = "orders" /\
    SchemaModel.displayName d' = "Purchase orders" /\
    SchemaModel.fields d' = [amountField] /\
    SchemaModel.updatedAt d' = 5000.
Proof.
  destruct (C6_update_partial_merge ordersId ordersId 5000
              (SchemaRoutes.mkBody (Some "invoices") (Some " Purchase orders ")
                 None None None None None)
              registered (ordersSchema true))
    as (d' & s' & Hu & _ & Hc & Ht & _ & _ & Hn & _ & Hf & _).
  - reflexivity.
  - reflexivity.
  - discriminate.
  - reflexivity.
  - exists d', s'. repeat split; assumption.
Defined.

Section SoftDelete.
Import SchemaModel SchemaRoutes.

Lemma softDelete_run (id : string) (oid : ObjectId) (now : Time)
    (s : Server) (d : SchemaDoc) :
  Mongoose.castObjectId id = Some oid ->
  lookup s oid = Some d ->
  validate d = true ->
  softDelete id now s =
  (Ok tt,
   set_schemas (replace (deactivate now d) (schemas s))
     (set_dbLog (dbLog s ++ [Store.SchemaFindById id; Store.SchemaSave oid]) s)).
Proof.
  intros Hcast Hfind Hvalid.
  assert (Hid : _id d = oid) by (by apply find_hasId in Hfind).
  unfold softDelete, validateId, Validator.required.
  rewrite (cast_isMongoId id oid Hcast).
  unfold softDeleteBody. run. rewrite (findById_run id oid s Hcast).
  run. rewrite Hfind. run.
  rewrite save_run by (by rewrite validate_deactivate).
  run. rewrite <- app_assoc. cbn [app].
  assert (Hid' : _id (deactivate now d) = oid).
  { unfold deactivate. by destruct (isActive d). }
  rewrite Hid'. reflexivity.
Qed.

Lemma deactivate_id (now : Time) (d : SchemaDoc) : _id (deactivate now d) = _id d.
Proof. unfold deactivate. by destruct (isActive d). Qed.

Lemma deactivate_inactive (now : Time) (d : SchemaDoc) :
  isActive (deactivate now d) = false.
Proof. unfold deactivate. by destruct (isActive d). Qed.

(** Deactivating a definition that is already inactive changes nothing, not
    even [updatedAt]. *)
Lemma deactivate_again (now : Time) (d : SchemaDoc) :
  isActive d = false -> deactivate now d = d.
Proof. destruct d. unfold deactivate. cbn. by intros ->. Qed.

Lemma replace_found (d : SchemaDoc) (l : list SchemaDoc) :
  List.find (hasId (_id d)) l = Some d -> replace d l = l.
Proof.
  induction l as [|e l IH]; cbn [List.find replace]; [done|].
  destruct (hasId (_id d) e).
  - by intros [= ->].
  - intros H. by rewrite IH.
Qed.

Lemma replace_valid (d : SchemaDoc) (l : list SchemaDoc) :
  validate d = true ->
  Forall (fun e => validate e = true) l ->
  Forall (fun e => validate e = true) (replace d l).
Proof.
  intros Hd. induction 1 as [|e l He Hl IH]; cbn [replace]; [constructor|].
  destruct (hasId (_id d) e); by constructor.
Qed.

(** The three mutations of the registry keep every stored definition
    valid. *)
Lemma create_keeps_valid (oid : ObjectId) (now : Time) (b : SchemaBody) (s : Server) :
  validStore s -> validStore (create oid now b s).2.
Proof.
  unfold validStore, create. intros H.
  destruct (validateCreate b); run; [|done].
  unfold createBody, findOne. run.
  destruct (List.find _ (schemas s)); run; [done|].
  unfold saveNew. run.
  destruct (validate _) eqn:Hv; run; [|done].
  destruct (existsb _ (schemas s)); run; [done|].
  unfold mongoose_model. run.
  destruct (decide _); run.
  - apply Forall_app. split; [done|]. by constructor.
  - apply Forall_app. split; [done|]. by constructor.
Qed.

Lemma update_keeps_valid (id : string) (now : Time) (b : SchemaBody) (s : Server) :
  validStore s -> validStore (update id now b s).2.
Proof.
  unfold validStore, update. intros H.
  destruct (validateUpdate id b); run; [|done].
  unfold updateBody, findById. run.
  destruct (Mongoose.castObjectId id); run; [|done].
  destruct (List.find _ (schemas s)); run; [|done].
  unfold save. run.
  destruct (validate _) eqn:Hv; run; [|done].
  by apply replace_valid.
Qed.

Lemma softDelete_keeps_valid (id : string) (now : Time) (s : Server) :
  validStore s -> validStore (softDelete id now s).2.
Proof.
  unfold validStore, softDelete. intros H.
  destruct (validateId id); run; [|done].
  unfold softDeleteBody, findById. run.
  destruct (Mongoose.castObjectId id); run; [|done].
  destruct (List.find _ (schemas s)); run; [|done].
  unfold save. run.
  destruct (validate _) eqn:Hv; run; [|done].
  by apply replace_valid.
Qed.

Lemma boot_valid : validStore boot.
Proof. constructor. Qed.

End SoftDelete.

(** C7: on an existing, valid definition two soft deletes in a row both
    answer 200; after each of them the definition is stored with
    [isActive = false], and the second call leaves the registry as the first
    one left it. *)
Theorem C7_softDelete_idempotent
    (rawId : string) (oid : ObjectId) (now1 now2 : Time) (s : Server)
    (d : SchemaModel.SchemaDoc) :
  Mongoose.castObjectId rawId = Some oid ->
  SchemaRoutes.lookup s oid = Some d ->
  SchemaModel.validate d = true ->
  exists s1 s2,
    SchemaRoutes.softDelete rawId now1 s = (Ok tt, s1) /\
    SchemaRoutes.softDelete rawId now2 s1 = (Ok tt, s2) /\
    SchemaModel.isActive <$> SchemaRoutes.lookup s1 oid = Some false /\
    SchemaModel.isActive <$> SchemaRoutes.lookup s2 oid = Some false /\
    schemas s2 = schemas s1.
Proof.
  intros Hcast Hfind Hvalid.
  pose proof (find_hasId _ _ _ Hfind) as Hid.
  pose proof (softDelete_run rawId oid now1 s d Hcast Hfind Hvalid) as H1.
  set (d1 := SchemaRoutes.deactivate now1 d) in *.
  assert (Hid1 : SchemaModel._id d1 = oid).
  { subst d1. by rewrite deactivate_id. }
  set (s1 := set_schemas _ _) in H1.
  assert (Hfind1 : SchemaRoutes.lookup s1 oid = Some d1).
  { subst s1. unfold SchemaRoutes.lookup in *. srv.
    rewrite <- Hid1. apply (find_replace_same d1 _ d). by rewrite Hid1. }
  assert (Hvalid1 : SchemaModel.validate d1 = true).
  { subst d1. by rewrite validate_deactivate. }
  pose proof (softDelete_run rawId oid now2 s1 d1 Hcast Hfind1 Hvalid1) as H2.
  assert (Hd2 : SchemaRoutes.deactivate now2 d1 = d1).
  { apply deactivate_again. subst d1. apply deactivate_inactive. }
  rewrite Hd2 in H2.
  eexists _, _. split; [exact H1|]. split; [exact H2|].
  assert (Hsame : SchemaRoutes.replace d1 (schemas s1) = schemas s1).
  { apply replace_found. rewrite Hid1. exact Hfind1. }
  split; [|split].
  - rewrite Hfind1. cbn. f_equal. subst d1. apply deactivate_inactive.
  - unfold SchemaRoutes.lookup. srv. rewrite Hsame.
    unfold SchemaRoutes.lookup in Hfind1. rewrite Hfind1. cbn. f_equal.
    subst d1. apply deactivate_inactive.
  - srv. exact Hsame.
Qed.

(** C7 at work: the active definition of [orders] is soft-deleted twice. *)
Lemma C7_softDelete_idempotent_witness :
  exists s1 s2,
    SchemaRoutes.softDelete ordersId 3000 registered = (Ok tt, s1) /\
    SchemaRoutes.softDelete ordersId 4000 s1 = (Ok tt, s2) /\
    SchemaModel.isActive <$> SchemaRoutes.lookup s2 ordersId = Some false.
Proof.
  destruct (C7_softDelete_idempotent ordersId ordersId 3000 4000 registered
              (ordersSchema true) eq_refl eq_refl eq_refl)
    as (s1 & s2 & H1 & H2 & _ & H3 & _).
  by exists s1, s2.
Defined.

(** ** The model caches *)

Section Preservation.

Variable R : Server -> Server -> Prop.
Hypothesis R_refl : forall s, R s s.
Hypothesis R_trans : forall a b c, R a b -> R b c -> R a c.
Hypothesis R_dbLog : forall v s, R s (set_dbLog v s).
Hypothesis R_schemas : forall v s, R s (set_schemas v s).
Hypothesis R_collections : forall v s, R s (set_collections v s).
Hypothesis R_models : forall v s, R s (set_mongooseModels v s).

Lemma preserves_ret {A} (a : A) : preserves R (ret a).
Proof. intros s. apply R_refl. Qed.

Lemma preserves_throw {A} (e : Error) : preserves R (@throw A e).
Proof. intros s. apply R_refl. Qed.

Lemma preserves_get : preserves R get.
Proof. intros s. apply R_refl. Qed.

Lemma preserves_modify (f : Server -> Server) :
  (forall s, R s (f s)) -> preserves R (modify f).
Proof. intros H s. apply H. Qed.

Lemma preserves_bind {A B} (m : M A) (k : A -> M B) :
  preserves R m -> (forall a, preserves R (k a)) -> preserves R (bind m k).
Proof.
  intros Hm Hk s. unfold bind. specialize (Hm s).
  destruct (m s) as [[e|a] s1]; cbn in *; [done|].
  specialize (Hk a s1). by apply (R_trans _ s1).
Qed.

Lemma preserves_db (c : Store.DbCall) : preserves R (db c).
Proof. apply preserves_modify. intros s. apply R_dbLog. Qed.

Lemma preserves_tryCatch {A} (body : M (Response A)) (message : string) :
  preserves R body -> preserves R (tryCatch body message).
Proof.
  intros H s. unfold tryCatch. specialize (H s).
  by destruct (body s) as [[e|r] s1].
Qed.

Lemma preserves_withValidation {A} (errors : list Validator.ValidationError)
    (handler : Server -> Response A * Server) :
  preserves R handler -> preserves R (withValidation errors handler).
Proof.
  intros H s. unfold withValidation. destruct errors; [apply H|apply R_refl].
Qed.

Lemma preserves_ignoreErrors (m : M unit) :
  preserves R m -> preserves R (Database.ignoreErrors m).
Proof.
  intros H s. unfold Database.ignoreErrors. specialize (H s).
  by destruct (m s) as [[e|r] s1].
Qed.

(** Steps through a computation built from the primitives. *)
Ltac pres :=
  repeat first
    [ match goal with H : forall _, preserves _ _ |- _ => apply H end
    | match goal with H : forall _ _, preserves _ _ |- _ => apply H end
    | match goal with H : forall _ _ _, preserves _ _ |- _ => apply H end
    | apply preserves_ret | apply preserves_throw | apply preserves_get
    | apply preserves_db
    | apply preserves_bind; [|intros ?]
    | apply preserves_tryCatch | apply preserves_withValidation
    | apply preserves_ignoreErrors
    | apply preserves_modify; intros ?;
      first [apply R_schemas | apply R_collections | apply R_models | apply R_dbLog]
    | match goal with
      | |- preserves _ (match ?x with _ => _ end) => destruct x
      end ].

Lemma preserves_mongoose_model (name : string) (sch : Mongoose.Schema) :
  preserves R (mongoose_model name sch).
Proof. unfold mongoose_model. pres. Qed.

Lemma preserves_findOne (f : Store.SchemaFilter) : preserves R (SchemaRoutes.findOne f).
Proof. unfold SchemaRoutes.findOne. pres. Qed.

Lemma preserves_findById (id : string) : preserves R (SchemaRoutes.findById id).
Proof. unfold SchemaRoutes.findById. pres. Qed.

Lemma preserves_saveNew (d : SchemaModel.SchemaDoc) : preserves R (SchemaRoutes.saveNew d).
Proof. unfold SchemaRoutes.saveNew. pres. Qed.

Lemma preserves_save (d : SchemaModel.SchemaDoc) : preserves R (SchemaRoutes.save d).
Proof. unfold SchemaRoutes.save. pres. Qed.

Lemma preserves_create (oid : ObjectId) (now : Time) (b : SchemaRoutes.SchemaBody) :
  preserves R (SchemaRoutes.create oid now b).
Proof.
  unfold SchemaRoutes.create, SchemaRoutes.createBody.
  pose proof preserves_findOne. pose proof preserves_saveNew.
  pose proof preserves_mongoose_model. pres.
Qed.

Lemma preserves_update (id : string) (now : Time) (b : SchemaRoutes.SchemaBody) :
  preserves R (SchemaRoutes.update id now b).
Proof.
  unfold SchemaRoutes.update, SchemaRoutes.updateBody.
  pose proof preserves_findById. pose proof preserves_save. pres.
Qed.

Lemma preserves_softDelete (id : string) (now : Time) :
  preserves R (SchemaRoutes.softDelete id now).
Proof.
  unfold SchemaRoutes.softDelete, SchemaRoutes.softDeleteBody.
  pose proof preserves_findById. pose proof preserves_save. pres.
Qed.

Lemma preserves_write (coll : string) (c : Store.Collection) :
  preserves R (Collection.write coll c).
Proof. unfold Collection.write. pres. Qed.

Lemma preserves_model_findById (m : Mongoose.Model) (id : string) :
  preserves R (Collection.findById m id).
Proof. unfold Collection.findById. pres. Qed.

Lemma preserves_findByIdAndDelete (m : Mongoose.Model) (id : string) :
  preserves R (Collection.findByIdAndDelete m id).
Proof. unfold Collection.findByIdAndDelete, Collection.write. pres. Qed.

Lemma preserves_deleteMany (coll : string) : preserves R (Collection.deleteMany coll).
Proof. unfold Collection.deleteMany, Collection.write. pres. Qed.

Lemma preserves_createIndex (coll : string) (key options : Mixed) :
  preserves R (Collection.createIndex coll key options).
Proof. unfold Collection.createIndex, Collection.write. pres. Qed.

Section Engine.

Variable engine : Engine.

Lemma preserves_insertAll (coll : string) (docs : list Store.Document) :
  preserves R (Collection.insertAll engine coll docs).
Proof.
  induction docs as [|d docs IH]; cbn [Collection.insertAll]; [pres|].
  apply preserves_bind; [|intros _; exact IH].
  unfold Collection.insertOne, Collection.write. pres.
Qed.

Lemma preserves_insertMany (coll : string) (docs : list Store.Document) :
  preserves R (Collection.insertMany engine coll docs).
Proof.
  unfold Collection.insertMany. pose proof preserves_insertAll. pres.
Qed.

Lemma preserves_restoreIndexes (coll : string) (l : list Store.IndexDescriptor) :
  preserves R (Database.restoreIndexes coll l).
Proof.
  induction l as [|i l IH]; cbn [Database.restoreIndexes]; [pres|].
  apply preserves_bind; [|intros _; exact IH].
  destruct (negb _); [|pres].
  apply preserves_ignoreErrors, preserves_createIndex.
Qed.

Lemma preserves_restoreInherited (coll : string) :
  preserves R (Database.restoreInherited coll).
Proof.
  unfold Database.restoreInherited. pose proof preserves_deleteMany. pres.
Qed.

Lemma preserves_restoreOne (coll : string) (cd : Database.CollectionBackup) :
  preserves R (Database.restoreOne engine coll cd).
Proof.
  unfold Database.restoreOne.
  pose proof preserves_deleteMany. pose proof preserves_restoreIndexes.
  pose proof preserves_insertMany.
  apply preserves_bind; [done|intros _].
  apply preserves_bind; [done|intros _].
  apply preserves_bind; [|intros _; pres].
  destruct (Database.data cd) as [[|d ds]|]; [pres|done|pres].
Qed.

Lemma preserves_restoreLoop (b : Database.Backup) (targets : list string)
    (results : list Database.Result) :
  preserves R (Database.restoreLoop engine b targets results).
Proof.
  revert results.
  induction targets as [|t targets IH]; intros results;
    cbn [Database.restoreLoop]; [pres|].
  destruct (Database.member b t); [| |apply IH].
  - apply preserves_bind; [apply preserves_restoreOne|intros r; apply IH].
  - apply preserves_bind; [apply preserves_restoreInherited|intros r; apply IH].
Qed.

Lemma preserves_restore (b : Database.Backup) (names : list string) :
  preserves R (Database.restore engine b names).
Proof.
  unfold Database.restore. pose proof preserves_restoreLoop. pres.
Qed.

Lemma preserves_runQuery {A} (call : Store.DbCall) (o : Store.Outcome A) :
  preserves R (DocumentRoutes.runQuery call o).
Proof. unfold DocumentRoutes.runQuery. pres. Qed.

Section Documents.

Variable getModel : string -> M Mongoose.Model.
Hypothesis R_getModel : forall n, preserves R (getModel n).

Lemma preserves_listBody (collection : string) (q : gmap string string) :
  preserves R (DocumentRoutes.listBody engine getModel collection q).
Proof.
  unfold DocumentRoutes.listBody, DocumentRoutes.find,
    DocumentRoutes.countDocuments. pose proof @preserves_runQuery. pres.
Qed.

Lemma preserves_deleteBody (collection id : string) :
  preserves R (DocumentRoutes.deleteBody getModel collection id).
Proof.
  unfold DocumentRoutes.deleteBody. pose proof preserves_findByIdAndDelete. pres.
Qed.

End Documents.

End Engine.

End Preservation.

Section Caches.

Lemma cachesKept_refl (s : Server) : cachesKept s s.
Proof. by split. Qed.

Lemma cachesKept_trans (a b c : Server) :
  cachesKept a b -> cachesKept b c -> cachesKept a c.
Proof. intros [H1 H2] [H3 H4]. split; eauto. Qed.

Lemma cachesSame_refl (s : Server) : cachesSame s s.
Proof. by split. Qed.

Lemma cachesSame_trans (a b c : Server) :
  cachesSame a b -> cachesSame b c -> cachesSame a c.
Proof. intros [H1 H2] [H3 H4]. split; congruence. Qed.

Lemma cachesSame_kept (s s' : Server) : cachesSame s s' -> cachesKept s s'.
Proof. intros [H1 H2]. split; intros n m; by rewrite ?H1, ?H2. Qed.

(** A cached model is returned as it is, and nothing else happens. *)
Lemma getDynamicModel_cached (name : string) (m : Mongoose.Model) (s : Server) :
  universalCache s !! name = Some m ->
  Universal.getDynamicModel name s = (inr m, s).
Proof. intros H. unfold Universal.getDynamicModel. run. by rewrite H. Qed.

Lemma getModelFromSchema_cached (name : string) (m : Mongoose.Model) (s : Server) :
  collectionsCache s !! name = Some m ->
  Collections.getModelFromSchema name s = (inr m, s).
Proof. intros H. unfold Collections.getModelFromSchema. run. by rewrite H. Qed.



Lemma getDynamicModel_keeps (name : string) :
  preserves cachesKept (Universal.getDynamicModel name).
Proof.
  intros s. unfold Universal.getDynamicModel, mongoose_model. run.
  destruct (universalCache s !! name) as [m|] eqn:Hc; run.
  { apply cachesKept_refl. }
  destruct (decide (name ∈ mongooseModels s)); run.
  { apply cachesKept_refl. }
  split; srv; [|done].
  intros k mk Hk. rewrite lookup_insert_ne; [done|congruence].
Qed.

Lemma getModelFromSchema_keeps (name : string) :
  preserves cachesKept (Collections.getModelFromSchema name).
Proof.
  intros s.
  unfold Collections.getModelFromSchema, SchemaRoutes.getByCollectionName,
    SchemaRoutes.findOne, mongoose_model.
  run.
  destruct (collectionsCache s !! name) as [m|] eqn:Hc; run.
  { apply cachesKept_refl. }
  destruct (List.find _ (schemas s)); run;
    destruct (decide (name ∈ mongooseModels s)); run;
    try apply cachesKept_refl;
    (split; srv; [done|]);
    intros k mk Hk;
    first [done | rewrite lookup_insert_ne; [done|congruence]].
Qed.

Variable engine : Engine.

(** A request that changes the schema registry leaves both model caches as
    they are. *)
Lemma serve_schema_mutation (s : Server) (r : Process.Request) :
  Process.isSchemaMutation r = true ->
  cachesSame s (Process.serve engine s r).
Proof.
  destruct r; try discriminate; intros _; cbn [Process.serve].
  - apply (preserves_create cachesSame cachesSame_refl cachesSame_trans); by split.
  - apply (preserves_update cachesSame cachesSame_refl cachesSame_trans); by split.
  - apply (preserves_softDelete cachesSame cachesSame_refl cachesSame_trans); by split.
Qed.

(** Every request keeps the entries of both caches. *)
Lemma serve_keeps (s : Server) (r : Process.Request) :
  cachesKept s (Process.serve engine s r).
Proof.
  assert (Hd : forall v s, cachesKept s (set_dbLog v s)) by (by split).
  assert (Hs : forall v s, cachesKept s (set_schemas v s)) by (by split).
  assert (Hc : forall v s, cachesKept s (set_collections v s)) by (by split).
  assert (Hm : forall v s, cachesKept s (set_mongooseModels v s)) by (by split).
  pose proof cachesKept_refl as Hr. pose proof cachesKept_trans as Ht.
  destruct r; cbn [Process.serve].
  - by apply preserves_create.
  - by apply preserves_update.
  - by apply preserves_softDelete.
  - unfold DocumentRoutes.universalList.
    apply preserves_withValidation, preserves_tryCatch; try done.
    apply preserves_listBody; try done. apply getDynamicModel_keeps.
  - unfold DocumentRoutes.getById, DocumentRoutes.getByIdBody.
    apply preserves_withValidation, preserves_tryCatch; try done.
    apply preserves_bind; [done|apply getDynamicModel_keeps|intros m].
    apply preserves_bind; [done|by apply preserves_model_findById|intros d].
    destruct d; by apply preserves_ret.
  - unfold DocumentRoutes.universalDelete, DocumentRoutes.deleteWith.
    apply preserves_withValidation, preserves_tryCatch; try done.
    apply preserves_deleteBody; try done. apply getDynamicModel_keeps.
  - unfold DocumentRoutes.collectionsList.
    apply preserves_withValidation, preserves_tryCatch; try done.
    apply preserves_listBody; try done. apply getModelFromSchema_keeps.
  - unfold DocumentRoutes.collectionsDelete, DocumentRoutes.deleteWith.
    apply preserves_withValidation, preserves_tryCatch; try done.
    apply preserves_deleteBody; try done. apply getModelFromSchema_keeps.
  - by apply preserves_restore.
Qed.

Lemma serveAll_keeps (rs : list Process.Request) (s : Server) :
  cachesKept s (Process.serveAll engine s rs).
Proof.
  revert s. induction rs as [|r rs IH]; intros s; cbn.
  - apply cachesKept_refl.
  - eapply cachesKept_trans; [apply serve_keeps|apply IH].
Qed.

End Caches.

(** C5: once a model is cached for a collection name, by either router, it
    stays cached and every later lookup of that router returns it, whatever
    requests the process answers in between; a schema create, update or
    soft delete leaves both caches exactly as they were. *)
Theorem C5_cached_model_persists
    (engine : Engine)
    (rs : list Process.Request) (s : Server) (name : string) (m : Mongoose.Model) :
  let s' := Process.serveAll engine s rs in
  (universalCache s !! name = Some m ->
   universalCache s' !! name = Some m /\
   Universal.getDynamicModel name s' = (inr m, s')) /\
  (collectionsCache s !! name = Some m ->
   collectionsCache s' !! name = Some m /\
   Collections.getModelFromSchema name s' = (inr m, s')) /\
  (forall r, Process.isSchemaMutation r = true ->
     cachesSame s (Process.serve engine s r)).
Proof.
  intros s'. destruct (serveAll_keeps engine rs s) as [Hu Hc].
  split; [|split].
  - intros H. apply Hu in H. split; [done|]. by apply getDynamicModel_cached.
  - intros H. apply Hc in H. split; [done|]. by apply getModelFromSchema_cached.
  - intros r Hr. by apply serve_schema_mutation.
Qed.

(** C5 at work: with the permissive model of [orders] cached, a schema for
    [orders] is created, updated and soft-deleted and a document is deleted;
    the lookup still returns the cached permissive model. *)
Lemma C5_cached_model_persists_witness :
  let engine :=
    mkEngine (fun _ _ _ _ _ _ _ => Store.Answered [])
             (fun _ _ _ => Store.Answered 0%nat)
             (fun _ _ _ => false) in
  let rs := [ Process.CreateSchema ordersId 2000 ordersBody;
              Process.UpdateSchema ordersId 3000
                (SchemaRoutes.mkBody None (Some "Purchases") None (Some []) None None None);
              Process.SoftDeleteSchema ordersId 4000;
              Process.UniversalDelete "orders" otherId ] in
  let s' := Process.serveAll engine warmed rs in
  Universal.getDynamicModel "orders" s'
    = (inr (Mongoose.mkModel "orders" (Mongoose.dynamicSchema "orders")), s').
Proof.
  intros engine rs s'.
  destruct (C5_cached_model_persists engine rs warmed "orders"
              (Mongoose.mkModel "orders" (Mongoose.dynamicSchema "orders")))
    as (H & _ & _).
  destruct H as [_ H]; [reflexivity|exact H].
Defined.

Section ModelLookup.
Import SchemaModel.




Lemma generateMongooseSchema_strict (def : SchemaDoc) :
  Mongoose.strict (generateMongooseSchema def) = true.
Proof. reflexivity. Qed.

End ModelLookup.



(** ** Deleting a document *)

Section DeleteContract.

Variable getModel : string -> M Mongoose.Model.
Variable target : Server -> string -> string.
Variable ready : Server -> string -> Prop.

(** What the handler needs to know of the model lookup of its router: when
    the router can obtain its model the lookup yields a model of the
    addressed collection, does not touch the collections, and yields the
    same model again later; otherwise the lookup throws where the model is
    compiled. *)
Hypothesis ready_dec : forall s n, ready s n \/ ~ ready s n.
Hypothesis getModel_ready :
  forall n s, ready s n ->
  exists m s1,
    getModel n s = (inr m, s1) /\ collections s1 = collections s /\
    Mongoose.collection (Mongoose.schema m) = target s n /\
    forall v w, getModel n (set_collections v (set_dbLog w s1))
                = (inr m, set_collections v (set_dbLog w s1)).
Hypothesis getModel_blocked :
  forall n s, ~ ready s n ->
  exists s1, getModel n s = (inl (OverwriteModelError n), s1) /\
             collections s1 = collections s.


End DeleteContract.



Lemma getDynamicModel_again (n : string) (s : Server) (m : Mongoose.Model)
    (s1 : Server) :
  Universal.getDynamicModel n s = (inr m, s1) ->
  forall v w, Universal.getDynamicModel n (set_collections v (set_dbLog w s1))
              = (inr m, set_collections v (set_dbLog w s1)).
Proof.
  intros H v w. apply getDynamicModel_cached. srv.
  revert H. unfold Universal.getDynamicModel, mongoose_model. run.
  destruct (universalCache s !! n) eqn:Hc; run.
  { by intros [= <- <-]. }
  destruct (decide (n ∈ mongooseModels s)); run; [done|].
  intros [= <- <-]. srv. apply lookup_insert_eq.
Qed.








(** ** The route table of the universal router *)

Lemma toLowerCase_length (s : string) :
  String.length (JS.toLowerCase s) = String.length s.
Proof. induction s as [|a s IH]; cbn; [done|]. by rewrite IH. Qed.

Lemma stats_not_mongoId (seg : string) :
  JS.toLowerCase seg = "stats" -> Validator.isMongoId seg = false.
Proof.
  intros H. unfold Validator.isMongoId.
  assert (Hlen : String.length seg = 5%nat).
  { by rewrite <- toLowerCase_length, H. }
  rewrite Hlen. apply Bool.andb_false_r.
Qed.

Lemma stats_nonEmpty (seg : string) :
  JS.toLowerCase seg = "stats" -> JS.nonEmpty seg = true.
Proof. by destruct seg. Qed.

(** C10: the statistics route is shadowed.  A GET for [/<collection>/stats]
    (the literal matched without regard to case) is dispatched to the
    get-by-id handler with [id] bound to that segment; the handler refuses
    the identifier with the validation error and leaves the server as it
    was; and no request at all, of any method and path, is dispatched to the
    statistics handler. *)
Theorem C10_stats_unreachable :
  (forall collection seg,
     JS.nonEmpty collection = true -> JS.toLowerCase seg = "stats" ->
     Router.dispatch Router.GET [collection; seg]
       = Some (Router.GetDocument, [("collection", collection); ("id", seg)]) /\
     forall s,
       DocumentRoutes.getById collection seg s
       = (ValidationFailed [Validator.mkError "id" "Invalid document ID"], s)) /\
  (forall method path params,
     Router.dispatch method path <> Some (Router.CollectionStats, params)).
Proof.
  split.
  - intros collection seg Hc Hs. split.
    + unfold Router.dispatch, Router.routes.
      cbn [Router.dispatchIn Router.method_eqb Router.matchPath].
      rewrite Hc, (stats_nonEmpty seg Hs). cbn.
      by destruct (String.eqb _ _).
    + intros s. unfold DocumentRoutes.getById, DocumentRoutes.validateDocumentId,
        Validator.required, withValidation.
      by rewrite (stats_not_mongoId seg Hs).
  - intros method path params.
    unfold Router.dispatch, Router.routes.
    destruct method; cbn [Router.dispatchIn Router.method_eqb];
      destruct path as [|a [|b [|c path]]]; cbn [Router.matchPath];
      repeat match goal with
             | |- context [if ?c then _ else _] => destruct c eqn:?
             | |- context [match ?x with _ => _ end] => destruct x eqn:?
             end; cbn; try discriminate; try congruence.
  all: match goal with
       | H : (JS.toLowerCase ?b =? _)%string = true,
         H2 : JS.nonEmpty ?b = false |- _ =>
           apply String.eqb_eq in H; rewrite (stats_nonEmpty b H) in H2;
           discriminate H2
       end.
Qed.

(** C10 at work: [GET /orders/stats]. *)
Lemma C10_stats_unreachable_witness :
  Router.dispatch Router.GET ["orders"; "stats"]
    = Some (Router.GetDocument, [("collection", "orders"); ("id", "stats")]) /\
  (DocumentRoutes.getById "orders" "stats" boot).1
    = ValidationFailed [Validator.mkError "id" "Invalid document ID"].
Proof.
  destruct C10_stats_unreachable as [H _].
  destruct (H "orders" "stats" eq_refl eq_refl) as [Hd Hg].
  split; [exact Hd|]. by rewrite Hg.
Defined.

(** ** Restore *)

Section RestoreSteps.
Import Store Collection.

Variable engine : Engine.

Lemma sameOthers_refl (name : string) (s : Server) : sameOthers name s s.
Proof. by intros c _. Qed.

Lemma sameOthers_trans (name : string) (a b c : Server) :
  sameOthers name a b -> sameOthers name b c -> sameOthers name a c.
Proof. intros H1 H2 k Hk. by rewrite (H2 k Hk), (H1 k Hk). Qed.

Lemma sameOthers_log (name : string) (v : list DbCall) (s : Server) :
  sameOthers name s (set_dbLog v s).
Proof. by intros c _. Qed.

Lemma sameOthers_write (name : string) (c : Store.Collection) (s s0 : Server) :
  sameOthers name s (set_collections (<[name := c]> (collections s)) s0).
Proof. intros k Hk. srv. by rewrite lookup_insert_ne. Qed.

Lemma read_write (name : string) (c : Store.Collection)
    (m : gmap string Store.Collection) (s : Server) :
  read (set_collections (<[name := c]> m) s) name = c.
Proof. unfold read. srv. by rewrite lookup_insert_eq. Qed.

(** The ordered insert: when it succeeds the identifiers are pairwise
    different and new to the collection, and the collection holds what it
    held plus the batch; it fails only on an identifier that is taken or on
    a document that a unique index turns down, and then the collection
    holds what it held plus documents of the batch. *)
Lemma insertAll_spec (coll : string) (docs : list Document) (s : Server) :
  let fresh := NoDup (doc_id <$> docs) /\
               forall d, d ∈ docs -> documents (read s coll) !! doc_id d = None in
  match insertAll engine coll docs s with
  | (inr _, s') =>
      fresh /\
      (forall oid body,
         documents (read s' coll) !! oid = Some body <->
         documents (read s coll) !! oid = Some body \/ mkDocument oid body ∈ docs) /\
      sameOthers coll s s'
  | (inl e, s') =>
      e = BulkWriteError /\ ~ (fresh /\ neverRejected engine docs) /\
      (forall oid body,
         documents (read s' coll) !! oid = Some body ->
         documents (read s coll) !! oid = Some body \/ mkDocument oid body ∈ docs) /\
      sameOthers coll s s'
  end.
Proof.
  revert s. induction docs as [|d ds IH]; intros s; cbn [insertAll].
  - run. split; [split; [constructor|]|split].
    + intros d Hd. by apply not_elem_of_nil in Hd.
    + intros oid body. split; [by left|]. intros [H|H]; [done|].
      by apply not_elem_of_nil in H.
    + apply sameOthers_refl.
  - unfold insertOne at 1, write. run.
    destruct (documents (read s coll) !! doc_id d) as [old|] eqn:Hd; run.
    { split; [done|]. split; [|split; [by left|apply sameOthers_refl]].
      intros [[_ H] _]. specialize (H d (list_elem_of_here _ _)). congruence. }
    destruct (rejects engine _ _ d) eqn:Hrej; run.
    { split; [done|]. split; [|split; [by left|apply sameOthers_refl]].
      intros [_ H]. rewrite (H _ _ d (list_elem_of_here _ _)) in Hrej. done. }
    match goal with
    | |- context [insertAll engine coll ds ?st] =>
        set (s1 := st) in *; specialize (IH s1)
    end.
    assert (Hread : documents (read s1 coll)
                    = <[doc_id d := doc_body d]> (documents (read s coll))).
    { subst s1. by rewrite read_write. }
    assert (Hothers : sameOthers coll s s1) by apply sameOthers_write.
    cbv zeta in IH. rewrite Hread in IH.
    destruct (insertAll engine coll ds s1) as [[e|[]] s'].
    + destruct IH as (-> & Hnot & Hheld & Hso). split; [done|].
      split; [|split; [|by apply (sameOthers_trans coll s s1 s')]].
      * intros [[Hnd Hnone] Hnever]. apply Hnot. split; [split|].
        -- rewrite fmap_cons in Hnd. by apply NoDup_cons in Hnd as [_ Hnd].
        -- rewrite fmap_cons in Hnd. apply NoDup_cons in Hnd as [Hnin Hnd].
           intros d' Hd'. rewrite lookup_insert_ne.
           ++ apply Hnone. by right.
           ++ intros Heq. apply Hnin. rewrite Heq.
              apply list_elem_of_fmap. by exists d'.
        -- intros ixs stored d' Hd'. apply Hnever. by right.
      * intros oid body Hsome. apply Hheld in Hsome as [Hsome|Hin].
        -- apply lookup_insert_Some in Hsome as [[<- <-]|[_ H]]; [|by left].
           right. apply elem_of_cons. left. by destruct d.
        -- right. apply elem_of_cons. by right.
    + destruct IH as ((Hnd & Hnone) & Hiff & Hso).
      assert (Hnin : doc_id d ∉ doc_id <$> ds).
      { intros Hin. apply list_elem_of_fmap in Hin as (d' & Heq & Hd').
        specialize (Hnone d' Hd'). rewrite <- Heq, lookup_insert_eq in Hnone.
        done. }
      split; [split|split].
      * rewrite fmap_cons. by apply NoDup_cons.
      * intros d' Hd'. apply elem_of_cons in Hd' as [->|Hd']; [done|].
        specialize (Hnone d' Hd').
        rewrite lookup_insert_ne in Hnone; [done|].
        intros Heq. apply Hnin. rewrite Heq.
        apply list_elem_of_fmap. by exists d'.
      * intros oid body. rewrite Hiff, elem_of_cons.
        rewrite lookup_insert_Some.
        split.
        -- intros [[[<- <-]|[_ H]]|H]; [right; left; by destruct d|by left|by right; right].
        -- intros [H|[H|H]].
           ++ left. right. split; [|done]. intros <-. congruence.
           ++ left. left. by rewrite <- H.
           ++ by right.
      * by apply (sameOthers_trans coll s s1 s').
Qed.

Lemma deleteMany_spec (name : string) (s : Server) :
  exists s1,
    deleteMany name s = (inr tt, s1) /\
    documents (read s1 name) = ∅ /\
    sameOthers name s s1.
Proof.
  unfold deleteMany, write. run.
  destruct (collections s !! name) as [c|] eqn:Hc; run; eexists;
    (split; [reflexivity|]); split.
  - by rewrite read_write.
  - apply sameOthers_write.
  - unfold read. srv. by rewrite Hc.
  - apply sameOthers_log.
Qed.

Lemma createIndex_spec (name : string) (key options : Mixed) (s : Server) :
  exists s1,
    Database.ignoreErrors (createIndex name key options) s = (inr tt, s1) /\
    documents (read s1 name) = documents (read s name) /\
    sameOthers name s s1.
Proof.
  unfold Database.ignoreErrors, createIndex, write. run.
  destruct (List.find _ _) as [[k o]|]; run.
  - destruct (String.eqb o options); run; eexists;
      (split; [reflexivity|]); (split; [done|apply sameOthers_log]).
  - eexists. split; [reflexivity|]. split.
    + by rewrite read_write.
    + apply sameOthers_write.
Qed.

Lemma restoreIndexes_spec (name : string) (l : list IndexDescriptor) (s : Server) :
  exists s1,
    Database.restoreIndexes name l s = (inr tt, s1) /\
    documents (read s1 name) = documents (read s name) /\
    sameOthers name s s1.
Proof.
  revert s. induction l as [|i l IH]; intros s; cbn [Database.restoreIndexes].
  - exists s. split; [done|]. split; [done|]. apply sameOthers_refl.
  - unfold bind at 1.
    destruct (negb (ix_name i =? "_id_")%string).
    + destruct (createIndex_spec name (ix_key i) (default "{}" (ix_options i)) s)
        as (s1 & -> & Hd & Ho).
      destruct (IH s1) as (s2 & -> & Hd2 & Ho2).
      exists s2. split; [done|]. split; [congruence|].
      by apply (sameOthers_trans name s s1 s2).
    + run. apply IH.
Qed.

(** One collection of the backup: when its restore succeeds the
    identifiers of its documents are pairwise different and the collection
    holds exactly the documents of the backup; it fails only in the bulk
    insert; the rest of the database is not touched either way. *)
Lemma restoreOne_spec (name : string) (cd : Database.CollectionBackup) (s : Server) :
  match Database.restoreOne engine name cd s with
  | (inr r, s') =>
      NoDup (doc_id <$> backedUp cd) /\
      holdsExactly s' name (backedUp cd) /\
      sameOthers name s s' /\
      r = Database.mkResult name (length (backedUp cd))
            (length (Database.indexes cd))
  | (inl e, s') =>
      e = BulkWriteError /\
      ~ (NoDup (doc_id <$> backedUp cd) /\ neverRejected engine (backedUp cd)) /\
      (forall oid body,
         documents (read s' name) !! oid = Some body ->
         mkDocument oid body ∈ backedUp cd) /\
      sameOthers name s s'
  end.
Proof.
  unfold Database.restoreOne.
  destruct (deleteMany_spec name s) as (s1 & H1 & Hd1 & Ho1).
  unfold bind at 1. rewrite H1.
  destruct (restoreIndexes_spec name (Database.indexes cd) s1)
    as (s2 & H2 & Hd2 & Ho2).
  unfold bind at 1. rewrite H2.
  assert (Hempty : documents (read s2 name) = ∅) by congruence.
  assert (Ho : sameOthers name s s2) by (by apply (sameOthers_trans name s s1 s2)).
  unfold backedUp, holdsExactly.
  destruct (Database.data cd) as [[|d ds]|]; cbn [default from_option id].
  - run. rewrite Hempty. split; [constructor|]. split; [|done].
    intros oid body. rewrite lookup_empty. split; [done|].
    intros H. by apply not_elem_of_nil in H.
  - unfold insertMany. run.
    pose proof (insertAll_spec name (d :: ds)
                  (set_dbLog (dbLog s2 ++ [CollectionInsertMany name (length (d :: ds))]) s2))
      as Hins.
    cbv zeta in Hins.
    assert (Hr : read (set_dbLog
                         (dbLog s2 ++ [CollectionInsertMany name (length (d :: ds))]) s2)
                   name = read s2 name) by reflexivity.
    rewrite Hr, Hempty in Hins.
    destruct (insertAll engine name (d :: ds) _) as [[e|[]] s'].
    + destruct Hins as (-> & Hnot & Hheld & Hso). split; [done|]. split; [|split].
      * intros [Hnd Hnever]. apply Hnot. split; [|done].
        split; [done|]. intros ? _. apply lookup_empty.
      * intros oid body Hsome. apply Hheld in Hsome as [Hsome|Hin]; [|done].
        by rewrite lookup_empty in Hsome.
      * eapply sameOthers_trans; [exact Ho|].
        eapply sameOthers_trans; [apply sameOthers_log|exact Hso].
    + destruct Hins as ((Hnd & _) & Hiff & Hso). split; [done|]. split; [|split].
      * intros oid body. rewrite Hiff, lookup_empty.
        split; [intros [?|?]; done|by right].
      * eapply sameOthers_trans; [exact Ho|].
        eapply sameOthers_trans; [apply sameOthers_log|exact Hso].
      * reflexivity.
  - run. rewrite Hempty. split; [constructor|]. split; [|done].
    intros oid body. rewrite lookup_empty. split; [done|].
    intros H. by apply not_elem_of_nil in H.
Qed.

(** A name that the backup object only inherits: the collection is
    cleared, then the turn throws. *)
Lemma restoreInherited_spec (name : string) (s : Server) :
  exists s1,
    Database.restoreInherited name s = (inl TypeError, s1) /\
    documents (read s1 name) = ∅ /\
    sameOthers name s s1.
Proof.
  unfold Database.restoreInherited.
  destruct (deleteMany_spec name s) as (s1 & H1 & Hd1 & Ho1).
  unfold bind at 1. rewrite H1. run. by exists s1.
Qed.

Lemma holdsExactly_same (s s' : Server) (name : string) (docs : list Document) :
  collections s' !! name = collections s !! name ->
  holdsExactly s name docs -> holdsExactly s' name docs.
Proof. unfold holdsExactly, read. by intros ->. Qed.

Lemma member_Own (b : Database.Backup) (n : string) (cd : Database.CollectionBackup) :
  Database.member b n = Database.Own cd <-> Database.ownEntry b n = Some cd.
Proof.
  unfold Database.member. destruct (Database.ownEntry b n) as [cd'|].
  - split; by intros [= ->].
  - by destruct (JS.isPrototypeMember n).
Qed.

(** The loop over the target collections. *)
Lemma restoreLoop_spec (b : Database.Backup) (targets : list string)
    (results : list Database.Result) (s : Server) :
  match Database.restoreLoop engine b targets results s with
  | (inr _, s') =>
      (forall n cd, n ∈ targets -> Database.ownEntry b n = Some cd ->
         NoDup (doc_id <$> backedUp cd) /\ holdsExactly s' n (backedUp cd)) /\
      (forall n, n ∉ targets -> collections s' !! n = collections s !! n)
  | (inl e, s') =>
      exists pre failing post,
        targets = (pre ++ failing :: post)%list /\
        failedAt engine b failing e s' /\
        (forall n cdn, n ∈ pre -> n <> failing ->
           Database.ownEntry b n = Some cdn ->
           holdsExactly s' n (backedUp cdn)) /\
        (forall n, n ∉ pre -> n <> failing ->
           collections s' !! n = collections s !! n)
  end.
Proof.
  revert results s.
  induction targets as [|t ts IH]; intros results s; cbn [Database.restoreLoop].
  - run. split; [|done]. intros n cd Hn. by apply not_elem_of_nil in Hn.
  - destruct (Database.member b t) as [cd| |] eqn:Hmember.
    + (* the backup has the collection *)
      pose proof (proj1 (member_Own b t cd) Hmember) as Hentry.
      pose proof (restoreOne_spec t cd s) as Hone.
      unfold bind.
      destruct (Database.restoreOne engine t cd s) as [[e|r] s1].
      { destruct Hone as (-> & Hdup & Hheld & Hso).
        exists [], t, ts.
        split; [done|]. split; [|split].
        - unfold failedAt. by rewrite Hmember.
        - intros n cdn Hn. by apply not_elem_of_nil in Hn.
        - intros n _ Hne. by apply Hso. }
      destruct Hone as (Hnd & Hholds & Hso & _).
      specialize (IH (results ++ [r])%list s1).
      destruct (Database.restoreLoop engine b ts (results ++ [r]) s1) as [[e|rs] s'].
      * destruct IH as (pre & failing & post & -> & Hf & Hpre & Hrest).
        exists (t :: pre), failing, post.
        split; [done|]. split; [done|]. split.
        -- intros n cdn Hn Hnf Hcdn.
           destruct (decide (n ∈ pre)) as [Hin|Hnin]; [by apply Hpre|].
           apply elem_of_cons in Hn as [->|Hn]; [|done].
           assert (cdn = cd) as -> by congruence.
           apply (holdsExactly_same s1); [|done]. by apply Hrest.
        -- intros n Hn Hnf. rewrite Hrest; [|intros Hin; apply Hn; by right|done].
           apply Hso. intros ->. apply Hn. by left.
      * destruct IH as [Hall Hrest]. split.
        -- intros n cdn Hn Hcdn.
           destruct (decide (n ∈ ts)) as [Hin|Hnin]; [by apply Hall|].
           apply elem_of_cons in Hn as [->|Hn]; [|done].
           assert (cdn = cd) as -> by congruence.
           split; [done|]. apply (holdsExactly_same s1); [|done]. by apply Hrest.
        -- intros n Hn. rewrite Hrest; [|intros Hin; apply Hn; by right].
           apply Hso. intros ->. apply Hn. by left.
    + (* the backup object only inherits the name *)
      destruct (restoreInherited_spec t s) as (s1 & H1 & Hempty & Hso).
      unfold bind. rewrite H1.
      exists [], t, ts.
      split; [done|]. split; [|split].
      * unfold failedAt. by rewrite Hmember.
      * intros n cdn Hn. by apply not_elem_of_nil in Hn.
      * intros n _ Hne. by apply Hso.
    + (* the backup has no such collection: [continue] *)
      assert (Hentry : Database.ownEntry b t = None).
      { revert Hmember. unfold Database.member.
        destruct (Database.ownEntry b t); [done|].
        by destruct (JS.isPrototypeMember t). }
      specialize (IH results s).
      destruct (Database.restoreLoop engine b ts results s) as [[e|rs] s'].
      * destruct IH as (pre & failing & post & -> & Hf & Hpre & Hrest).
        exists (t :: pre), failing, post.
        split; [done|]. split; [done|]. split.
        -- intros n cdn Hn Hnf Hcdn.
           apply elem_of_cons in Hn as [->|Hn]; [congruence|].
           by apply Hpre.
        -- intros n Hn Hne. apply Hrest; [|done]. intros Hin. apply Hn. by right.
      * destruct IH as [Hall Hrest]. split.
        -- intros n cdn Hn Hcdn.
           apply elem_of_cons in Hn as [->|Hn]; [congruence|].
           by apply Hall.
        -- intros n Hn. apply Hrest. intros Hin. apply Hn. by right.
Qed.

End RestoreSteps.
(** C4 (as amended): restore either runs through, and then every selected
    collection of the backup holds exactly the backup's documents, or it
    fails at one collection: the bulk insert of its documents throws (they
    repeat an identifier, or a unique index turns one of them down), or the
    selected name is a member that the backup object only inherits, and
    then the collection has been cleared before the handler throws.  In
    that case every other collection processed before the failing one holds
    exactly the documents of its backup, every collection that is neither
    among those nor the failing one is as it was, and the response is the
    failure envelope: it carries the error and no per-collection result
    list. *)
Theorem C4_restore_partial_failure
    (engine : Engine) (b : Database.Backup) (names : list string) (s : Server) :
  match Database.restore engine b names s with
  | (Ok _, s') =>
      forall n cd, n ∈ Database.targetCollections b names ->
        Database.ownEntry b n = Some cd -> holdsExactly s' n (backedUp cd)
  | (ServerError message e, s') =>
      message = "Error restoring database" /\
      Database.resultList (ServerError message e) = None /\
      exists pre failing post,
        Database.targetCollections b names = (pre ++ failing :: post)%list /\
        failedAt engine b failing e s' /\
        (forall n cdn, n ∈ pre -> n <> failing ->
           Database.ownEntry b n = Some cdn ->
           holdsExactly s' n (backedUp cdn)) /\
        (forall n, n ∉ pre -> n <> failing ->
           collections s' !! n = collections s !! n)
  | _ => False
  end.
Proof.
  unfold Database.restore, tryCatch. unfold bind at 1.
  pose proof (restoreLoop_spec engine b (Database.targetCollections b names) [] s)
    as H.
  destruct (Database.restoreLoop engine b (Database.targetCollections b names) [] s)
    as [[e|rs] s'].
  - destruct H as (pre & failing & post & Ht & Hf & Hpre & Hrest).
    split; [done|]. split; [done|].
    by exists pre, failing, post.
  - cbn. destruct H as [Hall _]. intros n cd Hn Hcd. by apply (Hall n cd).
Qed.

(** C4 at work: the sample backup fails at [users], after [orders]; the
    documents of [orders] are in place.  With [orders] and [constructor]
    selected it fails at [constructor], again after [orders]. *)
Lemma C4_restore_partial_failure_witness :
  (exists s',
     Database.restore plainEngine sampleBackup [] boot
       = (ServerError "Error restoring database" BulkWriteError, s') /\
     holdsExactly s' "orders"
       [Store.mkDocument ordersId "{ amount: 20 }";
        Store.mkDocument otherId "{ amount: 35 }"]) /\
  (exists s',
     Database.restore plainEngine sampleBackup ["orders"; "constructor"] boot
       = (ServerError "Error restoring database" TypeError, s') /\
     holdsExactly s' "orders"
       [Store.mkDocument ordersId "{ amount: 20 }";
        Store.mkDocument otherId "{ amount: 35 }"]).
Proof.
  assert (Horders : forall e s',
            ~ failedAt plainEngine sampleBackup "orders" e s').
  { intros e s' (_ & Hf & _). apply Hf. split; [|done].
    apply NoDup_cons. split; [|apply NoDup_singleton].
    intros Hin. apply list_elem_of_singleton in Hin. discriminate Hin. }
  assert (Hin : forall pre, "orders" ∈ "orders" :: pre) by (by left).
  split.
  - pose proof (C4_restore_partial_failure plainEngine sampleBackup [] boot) as H.
    destruct (Database.restore plainEngine sampleBackup [] boot) as [r s'] eqn:E.
    assert (Hr : r = ServerError "Error restoring database" BulkWriteError).
    { apply (f_equal fst) in E. cbn [fst] in E. rewrite <- E. reflexivity. }
    subst r. exists s'. split; [reflexivity|].
    destruct H as (_ & _ & pre & failing & post & Ht & Hf & Hpre & _).
    assert (Hne : "orders" <> failing) by (intros <-; by apply Horders in Hf).
    destruct pre as [|p pre]; injection Ht as <- Ht;
      [exfalso; apply Hne; reflexivity|].
    exact (Hpre "orders" _ (Hin pre) Hne eq_refl).
  - pose proof (C4_restore_partial_failure plainEngine sampleBackup
                  ["orders"; "constructor"] boot) as H.
    destruct (Database.restore plainEngine sampleBackup ["orders"; "constructor"] boot)
      as [r s'] eqn:E.
    assert (Hr : r = ServerError "Error restoring database" TypeError).
    { apply (f_equal fst) in E. cbn [fst] in E. rewrite <- E. reflexivity. }
    subst r. exists s'. split; [reflexivity|].
    destruct H as (_ & _ & pre & failing & post & Ht & Hf & Hpre & _).
    assert (Hne : "orders" <> failing) by (intros <-; by apply Horders in Hf).
    destruct pre as [|p pre]; injection Ht as <- Ht;
      [exfalso; apply Hne; reflexivity|].
    exact (Hpre "orders" _ (Hin pre) Hne eq_refl).
Defined.

(** C4 as stated fails: the restore of the sample backup fails at [users]
    after [orders] has been restored, and the caller receives the failure
    envelope, which carries no result list, instead of the list that
    reports [orders]. *)
Lemma C4_counterexample :
  let r := (Database.restore plainEngine sampleBackup [] boot).1 in
  let s' := (Database.restore plainEngine sampleBackup [] boot).2 in
  r = ServerError "Error restoring database" BulkWriteError /\
  Database.resultList r = None /\
  Store.documents (Collection.read s' "orders") !! ordersId = Some "{ amount: 20 }" /\
  Store.documents (Collection.read s' "orders") !! otherId = Some "{ amount: 35 }".
Proof. repeat split; reflexivity. Qed.

(** ** API key authentication *)

Section Authentication.
Import Auth.

Lemma append_cons (c : ascii) (p s : string) :
  String c p ++ s = String c (p ++ s).
Proof. reflexivity. Qed.

Lemma append_nil (s : string) : "" ++ s = s.
Proof. reflexivity. Qed.

Lemma substring_length_app (p s : string) :
  JS.substring (p ++ s) (String.length p) = s.
Proof.
  induction p as [|c p IH].
  - rewrite append_nil. by destruct s.
  - rewrite append_cons. exact IH.
Qed.

Lemma startsWith_app (p s : string) : JS.startsWith (p ++ s) p = true.
Proof.
  induction p as [|c p IH]; [done|].
  rewrite append_cons. cbn [JS.startsWith].
  rewrite Ascii.eqb_refl. exact IH.
Qed.

(** Removing the first occurrence of a prefix that is there. *)
Lemma replace_prefix (p s : string) : JS.replace (p ++ s) p "" = s.
Proof.
  destruct p as [|c p].
  - rewrite append_nil. by destruct s.
  - rewrite append_cons. cbn [JS.replace]. rewrite <- append_cons.
    rewrite startsWith_app, append_nil. apply substring_length_app.
Qed.

Lemma truthy_Some (k : option string) :
  truthy k = true <-> exists v, k = Some v /\ JS.nonEmpty v = true.
Proof.
  destruct k as [v|]; cbn.
  - split; [intros H; by exists v|by intros (? & [= <-] & ?)].
  - split; [done|by intros (? & ? & ?)].
Qed.

End Authentication.

Lemma authenticate_cases (configKey : string) (headers : gmap string string) :
  ((exists marks, Auth.authenticateApiKey configKey headers = Auth.Next marks) <->
   Auth.presentedKey headers = Some configKey /\ JS.nonEmpty configKey = true) /\
  (forall marks, Auth.authenticateApiKey configKey headers = Auth.Next marks ->
     marks = Auth.mkMarks (Some configKey) None) /\
  ((exists m, Auth.authenticateApiKey configKey headers = Auth.Unauthorized m) <->
   Auth.presentedKey headers = None \/ Auth.presentedKey headers = Some "") /\
  ((exists m, Auth.authenticateApiKey configKey headers = Auth.Forbidden m) <->
   exists k, Auth.presentedKey headers = Some k /\ k <> "" /\ k <> configKey).
Proof.
  unfold Auth.authenticateApiKey.
  destruct (Auth.presentedKey headers) as [[|c k]|] eqn:Hk;
    cbn [Auth.truthy JS.nonEmpty negb default from_option id].
  2: destruct (String.eqb_spec (String c k) configKey) as [<-|Hne]; cbn [negb].
  all: repeat split; intros;
    repeat match goal with
           | H : exists _, _ |- _ => destruct H
           | H : _ /\ _ |- _ => destruct H
           | H : _ \/ _ |- _ => destruct H
           end;
    try discriminate; try congruence; eauto.
  injection H as <-. discriminate.
Qed.

(** The verdict of [authenticateApiKey] is decided by the presented key
    alone: [next()] exactly when it is not empty and equals the configured
    key (and then [req.apiKey] is that key), 401 exactly when no key or an
    empty one is presented, 403 otherwise.  With an empty configured key
    nothing is ever let through. *)
Theorem auth_verdict (configKey : string) (headers : gmap string string) :
  ((exists marks, Auth.authenticateApiKey configKey headers = Auth.Next marks) <->
   Auth.presentedKey headers = Some configKey /\ JS.nonEmpty configKey = true) /\
  (forall marks, Auth.authenticateApiKey configKey headers = Auth.Next marks ->
     marks = Auth.mkMarks (Some configKey) None) /\
  ((exists m, Auth.authenticateApiKey configKey headers = Auth.Unauthorized m) <->
   Auth.presentedKey headers = None \/ Auth.presentedKey headers = Some "") /\
  ((exists m, Auth.authenticateApiKey configKey headers = Auth.Forbidden m) <->
   exists k, Auth.presentedKey headers = Some k /\ k <> "" /\ k <> configKey).
Proof.
  unfold Auth.authenticateApiKey.
  destruct (Auth.presentedKey headers) as [[|c k]|] eqn:Hk;
    cbn [Auth.truthy JS.nonEmpty negb default from_option id].
  2: destruct (String.eqb_spec (String c k) configKey) as [<-|Hne]; cbn [negb].
  all: repeat split; intros;
    repeat match goal with
           | H : exists _, _ |- _ => destruct H
           | H : _ /\ _ |- _ => destruct H
           | H : _ \/ _ |- _ => destruct H
           end;
    try discriminate; try congruence; eauto.
  injection H as <-. discriminate.
Qed.

Lemma auth_verdict_witness :
  exists marks,
    Auth.authenticateApiKey "s3cret" {[ "x-api-key" := "s3cret" ]}
    = Auth.Next marks.
Proof.
  destruct (auth_verdict "s3cret" {[ "x-api-key" := "s3cret" ]}) as [[_ H] _].
  apply H. split; reflexivity.
Defined.

(** The configured key is accepted in [X-API-Key] and, when that header is
    absent or empty, as [Authorization: Bearer <key>]; a non-empty
    [X-API-Key] takes precedence, so a wrong one is refused with 403 even
    next to a correct [Authorization]; and [Authorization: Bearer ] alone
    counts as no key (401). *)
Theorem auth_header_forms (configKey : string) (headers : gmap string string) :
  JS.nonEmpty configKey = true ->
  (headers !! "x-api-key" = Some configKey ->
   Auth.authenticateApiKey configKey headers
     = Auth.Next (Auth.mkMarks (Some configKey) None)) /\
  ((headers !! "x-api-key" = None \/ headers !! "x-api-key" = Some "") ->
   headers !! "authorization" = Some ("Bearer " ++ configKey) ->
   Auth.authenticateApiKey configKey headers
     = Auth.Next (Auth.mkMarks (Some configKey) None)) /\
  (forall k, headers !! "x-api-key" = Some k -> k <> "" -> k <> configKey ->
     exists m, Auth.authenticateApiKey configKey headers = Auth.Forbidden m) /\
  ((headers !! "x-api-key" = None \/ headers !! "x-api-key" = Some "") ->
   headers !! "authorization" = Some "Bearer " ->
   exists m, Auth.authenticateApiKey configKey headers = Auth.Unauthorized m).
Proof.
  intros Hcfg.
  assert (Hpass : forall h, Auth.presentedKey h = Some configKey ->
            Auth.authenticateApiKey configKey h
            = Auth.Next (Auth.mkMarks (Some configKey) None)).
  { intros h Hp. unfold Auth.authenticateApiKey. rewrite Hp.
    cbn [Auth.truthy default from_option id]. rewrite Hcfg. cbn [negb].
    by rewrite String.eqb_refl. }
  split; [|split; [|split]].
  - intros Hx. apply Hpass. unfold Auth.presentedKey. by rewrite Hx, Hcfg.
  - intros Hx Ha. apply Hpass. unfold Auth.presentedKey. rewrite Ha.
    cbn [fmap option_fmap option_map].
    rewrite (replace_prefix "Bearer " configKey).
    by destruct Hx as [->| ->].
  - intros k Hx Hne Hk.
    apply (proj2 (proj2 (proj2 (authenticate_cases configKey headers)))).
    exists k. split; [|done]. unfold Auth.presentedKey. rewrite Hx.
    by destruct k.
  - intros Hx Ha.
    apply (proj1 (proj2 (proj2 (authenticate_cases configKey headers)))).
    right. unfold Auth.presentedKey. rewrite Ha.
    by destruct Hx as [->| ->].
Qed.

Lemma auth_header_forms_witness :
  Auth.authenticateApiKey "s3cret"
    {[ "x-api-key" := ""; "authorization" := "Bearer s3cret" ]}
  = Auth.Next (Auth.mkMarks (Some "s3cret") None).
Proof.
  destruct (auth_header_forms "s3cret"
              {[ "x-api-key" := ""; "authorization" := "Bearer s3cret" ]} eq_refl)
    as (_ & H & _).
  apply H; [by right|reflexivity].
Defined.

(** [optionalApiKeyAuth] agrees with [authenticateApiKey] on every request
    that presents a key: the same 403, or [next()] with the same key, now
    marked authenticated; a request without a key, which the strict
    middleware answers with 401, passes unauthenticated and without
    [req.apiKey]. *)
Theorem auth_optional_agrees (configKey : string) (headers : gmap string string) :
  match Auth.authenticateApiKey configKey headers with
  | Auth.Forbidden m => Auth.optionalApiKeyAuth configKey headers = Auth.Forbidden m
  | Auth.Next marks =>
      Auth.optionalApiKeyAuth configKey headers
        = Auth.Next (Auth.mkMarks (Auth.apiKey marks) (Some true))
  | Auth.Unauthorized _ =>
      Auth.optionalApiKeyAuth configKey headers
        = Auth.Next (Auth.mkMarks None (Some false))
  end.
Proof.
  unfold Auth.authenticateApiKey, Auth.optionalApiKeyAuth.
  destruct (Auth.truthy (Auth.presentedKey headers)); cbn; [|done].
  by destruct (String.eqb _ configKey).
Qed.

(** ** The schema registry: compilation, lookups and invariants *)

Section RegistryMore.
Import SchemaModel SchemaRoutes.




Lemma getByCollectionName_run (n : string) (s : Server) :
  getByCollectionName n s =
  (inr (activeDefinition s n),
   set_dbLog (dbLog s ++ [Store.SchemaFindOne
                            (Store.mkFilter (Some (JS.toLowerCase n)) (Some true))]) s).
Proof. unfold getByCollectionName, findOne, activeDefinition. run. reflexivity. Qed.

Lemma find_app_last {A} (p : A -> bool) (l : list A) (d : A) :
  (forall x, x ∈ l -> p x = false) ->
  List.find p (l ++ [d]) = if p d then Some d else None.
Proof.
  induction l as [|x l IH]; intros H; cbn [app List.find]; [done|].
  rewrite (H x (list_elem_of_here _ _)). apply IH.
  intros y Hy. apply H. by right.
Qed.

(** What a 201 response of the create handler tells about the request and
    about the state that it leaves. *)
Lemma create_Created_inv (oid : ObjectId) (now : Time) (b : SchemaBody)
    (s s' : Server) (doc : SchemaDoc) :
  create oid now b s = (Created doc, s') ->
  doc = newSchema oid now b (JS.toLowerCase (option.default "" (b_collectionName b))) /\
  (forall d, d ∈ schemas s ->
     collectionName d <> collectionName doc /\ _id d <> _id doc) /\
  validate doc = true /\
  collectionName doc ∉ mongooseModels s /\
  schemas s' = (schemas s ++ [doc])%list /\
  mongooseModels s' = {[collectionName doc]} ∪ mongooseModels s /\
  universalCache s' = universalCache s /\
  collectionsCache s' = collectionsCache s /\
  collections s' = collections s.
Proof.
  unfold create. destruct (validateCreate b); run; [|done].
  unfold createBody, findOne. run.
  destruct (List.find _ (schemas s)); run; [done|].
  unfold saveNew. run.
  destruct (validate _) eqn:Hv; run; [|done].
  destruct (existsb _ (schemas s)) eqn:Hex; run; [done|].
  unfold mongoose_model. run.
  destruct (decide _) as [|Hreg]; run; [done|].
  intros [= <- <-]. srv. repeat split; try done.
  - intros Heq. apply Bool.not_true_iff_false in Hex. apply Hex.
    apply existsb_exists. exists d. split; [by apply list_elem_of_In|].
    apply Bool.orb_true_iff. right. by apply String.eqb_eq.
  - intros Heq. apply Bool.not_true_iff_false in Hex. apply Hex.
    apply existsb_exists. exists d. split; [by apply list_elem_of_In|].
    apply Bool.orb_true_iff. left. unfold hasId. apply String.eqb_eq.
    by rewrite Heq.
Qed.

End RegistryMore.

Section RegistryProps.
Import SchemaModel SchemaRoutes.

Lemma getById_run (id : string) (oid : ObjectId) (s : Server) :
  Mongoose.castObjectId id = Some oid ->
  (SchemaQueries.getById id s).1 =
  match lookup s oid with
  | Some d => Ok d
  | None => NotFound "Schema not found"
  end.
Proof.
  intros Hcast. unfold SchemaQueries.getById, validateId, Validator.required.
  rewrite (cast_isMongoId id oid Hcast). run.
  rewrite (findById_run id oid s Hcast). run.
  by destruct (lookup s oid).
Qed.

Lemma getByCollection_run (n : string) (s : Server) :
  (SchemaQueries.getByCollection n s).1 =
  match activeDefinition s n with
  | Some d => Ok d
  | None => NotFound "Schema not found for this collection"
  end.
Proof.
  unfold SchemaQueries.getByCollection. run.
  rewrite getByCollectionName_run. run.
  by destruct (activeDefinition s n).
Qed.

(** The definitions of a store after one of them was replaced: the new one,
    and the old ones that differ from the replaced one in [f]. *)
Lemma replace_elements {B} (f : SchemaDoc -> B) (d d1 : SchemaDoc)
    (l : list SchemaDoc) :
  NoDup (f <$> l) ->
  List.find (hasId (_id d1)) l = Some d ->
  forall e, e ∈ replace d1 l -> e = d1 \/ (e ∈ l /\ f e <> f d).
Proof.
  induction l as [|x l IH]; cbn [List.find replace fmap list_fmap]; [done|].
  intros Hnd. apply NoDup_cons in Hnd as [Hx Hnd].
  destruct (hasId (_id d1) x) eqn:Hid.
  - intros [= <-] e He. apply elem_of_cons in He as [->|He]; [by left|].
    right. split; [by right|]. intros Heq. apply Hx. rewrite <- Heq.
    apply list_elem_of_fmap. by exists e.
  - intros Hfind e He. apply elem_of_cons in He as [->|He].
    + right. split; [by left|]. intros Heq. apply Hx. rewrite Heq.
      apply list_elem_of_fmap. exists d. split; [done|].
      apply list_elem_of_In. by apply find_some in Hfind as [? _].
    + destruct (IH Hnd Hfind e He) as [->|[Hin Hne]]; [by left|].
      right. split; [by right|done].
Qed.

Lemma fmap_replace {B} (f : SchemaDoc -> B) (d d1 : SchemaDoc)
    (l : list SchemaDoc) :
  List.find (hasId (_id d1)) l = Some d -> f d1 = f d ->
  f <$> replace d1 l = f <$> l.
Proof.
  intros Hfind Hf. induction l as [|x l IH];
    cbn [List.find replace fmap list_fmap] in *; [done|].
  destruct (hasId (_id d1) x); cbn [fmap list_fmap].
  - injection Hfind as ->. by rewrite Hf.
  - by rewrite (IH Hfind).
Qed.

Lemma find_none_forall {A} (p : A -> bool) (l : list A) :
  (forall x, x ∈ l -> p x = false) -> List.find p l = None.
Proof.
  intros H. destruct (List.find p l) as [x|] eqn:E; [|done].
  apply find_some in E as [Hin Hp]. apply list_elem_of_In in Hin.
  rewrite (H x Hin) in Hp. done.
Qed.

(** A definition that the create handler has stored (201) is returned by
    [GET /:id] under its identifier, and by [GET /collection/:name] under
    every spelling of its collection name that the setters normalise to it
    (other capitals, surrounding blanks), unless it was created with
    [isActive: false], in which case the lookup by name answers 404. *)
Theorem schema_create_then_lookup (oid : ObjectId) (now : Time) (b : SchemaBody)
    (s s' : Server) (doc : SchemaDoc) :
  create oid now b s = (Created doc, s') ->
  _id doc = oid /\
  isActive doc = option.default true (b_isActive b) /\
  collectionName doc = requestedName b /\
  (forall id, Mongoose.castObjectId id = Some oid ->
     (SchemaQueries.getById id s').1 = Ok doc) /\
  (forall n, castCollectionName n = collectionName doc ->
     (SchemaQueries.getByCollection n s').1 =
     if isActive doc then Ok doc
     else NotFound "Schema not found for this collection").
Proof.
  intros Hc.
  destruct (create_Created_inv oid now b s s' doc Hc)
    as (Hdoc & Hfresh & _ & _ & Hs & _).
  assert (Hid : _id doc = oid) by (by rewrite Hdoc).
  split; [done|]. split; [by rewrite Hdoc|]. split.
  { rewrite Hdoc. cbn. apply castCollectionName_lowered. }
  split.
  - intros id Hcast. rewrite (getById_run id oid s' Hcast).
    unfold lookup. rewrite Hs, find_app_last.
    + unfold hasId. by rewrite Hid, String.eqb_refl.
    + intros x Hx. unfold hasId. apply String.eqb_neq.
      rewrite <- Hid. by apply Hfresh.
  - intros n Hn. rewrite getByCollection_run.
    unfold activeDefinition. rewrite Hs, find_app_last.
    + unfold matches. cbn. rewrite castCollectionName_lowered, Hn, String.eqb_refl.
      by destruct (isActive doc).
    + intros x Hx. unfold matches. cbn.
      rewrite castCollectionName_lowered, Hn.
      destruct (String.eqb_spec (collectionName x) (collectionName doc)) as [E|_];
        [|done].
      by destruct (Hfresh x Hx).
Qed.

Lemma replace_keeps (d1 e : SchemaDoc) (l : list SchemaDoc) :
  e ∈ l -> hasId (_id d1) e = false -> e ∈ replace d1 l.
Proof.
  induction l as [|x l IH]; cbn [replace]; [done|].
  intros He Hid. apply elem_of_cons in He as [->|He].
  - rewrite Hid. by left.
  - destruct (hasId (_id d1) x); right; [done|by apply IH].
Qed.

Lemma getActiveSchemas_run (s : Server) :
  (getActiveSchemas s).1 =
  inr (List.filter (matches (Store.mkFilter None (Some true))) (schemas s)).
Proof. unfold getActiveSchemas. run. reflexivity. Qed.

(** After a soft delete the definition is still returned by [GET /:id],
    now inactive and under the same collection name, while the lookup by
    collection name answers 404 and the list of active definitions holds
    exactly the other active definitions. *)
Theorem schema_softDelete_hidden (rawId : string) (oid : ObjectId) (now : Time)
    (s : Server) (d : SchemaDoc) :
  Mongoose.castObjectId rawId = Some oid ->
  lookup s oid = Some d ->
  validate d = true ->
  uniqueStore s ->
  let s1 := (softDelete rawId now s).2 in
  let d1 := deactivate now d in
  (SchemaQueries.getById rawId s1).1 = Ok d1 /\
  isActive d1 = false /\ collectionName d1 = collectionName d /\
  (forall n, castCollectionName n = collectionName d ->
     (SchemaQueries.getByCollection n s1).1
     = NotFound "Schema not found for this collection") /\
  (forall l, (getActiveSchemas s1).1 = inr l ->
     forall x, x ∈ l <-> x ∈ schemas s /\ isActive x = true /\ _id x <> oid).
Proof.
  intros Hcast Hfind Hvalid [Hnames Hids] s1 d1.
  pose proof (find_hasId _ _ _ Hfind) as Hid.
  assert (Hid1 : _id d1 = oid) by (subst d1; by rewrite deactivate_id).
  assert (Hs1 : schemas s1 = replace d1 (schemas s)).
  { subst s1. by rewrite (softDelete_run rawId oid now s d Hcast Hfind Hvalid). }
  assert (Hfind' : List.find (hasId (_id d1)) (schemas s) = Some d)
    by (by rewrite Hid1).
  assert (Hinact : isActive d1 = false) by apply deactivate_inactive.
  assert (Hname1 : collectionName d1 = collectionName d).
  { subst d1. unfold deactivate. by destruct (isActive d). }
  split; [|split; [done|split; [done|split]]].
  - rewrite (getById_run rawId oid s1 Hcast). unfold lookup. rewrite Hs1.
    rewrite <- Hid1. by rewrite (find_replace_same d1 _ d Hfind').
  - intros n Hn. rewrite getByCollection_run. unfold activeDefinition.
    rewrite Hs1, find_none_forall; [done|].
    intros e He. unfold matches. cbn.
    destruct (replace_elements collectionName d d1 _ Hnames Hfind' e He)
      as [->|[_ Hne]].
    + rewrite Hinact. apply Bool.andb_false_r.
    + rewrite castCollectionName_lowered, Hn.
      by destruct (String.eqb_spec (collectionName e) (collectionName d)).
  - intros l. rewrite getActiveSchemas_run, Hs1. intros [= <-] x.
    rewrite list_elem_of_In, filter_In, <- list_elem_of_In.
    unfold matches. cbn.
    split.
    + intros [He Ha].
      destruct (replace_elements _id d d1 _ Hids Hfind' x He) as [->|[Hin Hne]].
      * by rewrite Hinact in Ha.
      * split; [done|]. split; [by destruct (isActive x)|congruence].
    + intros (Hin & Ha & Hne). split; [|by rewrite Ha].
      apply replace_keeps; [done|]. unfold hasId. apply String.eqb_neq.
      congruence.
Qed.

Lemma unique_snoc (l : list SchemaDoc) (d : SchemaDoc) :
  existsb (fun e => hasId (_id d) e ||
                    String.eqb (collectionName e) (collectionName d)) l = false ->
  NoDup (collectionName <$> l) -> NoDup (_id <$> l) ->
  NoDup (collectionName <$> (l ++ [d])%list) /\ NoDup (_id <$> (l ++ [d])%list).
Proof.
  intros Hex Hn Hi.
  assert (Hfresh : forall e, e ∈ l ->
            _id e <> _id d /\ collectionName e <> collectionName d).
  { intros e He. apply Bool.not_true_iff_false in Hex.
    split; intros Heq; apply Hex, existsb_exists; exists e;
      (split; [by apply list_elem_of_In|]); apply Bool.orb_true_iff.
    - left. unfold hasId. by apply String.eqb_eq.
    - right. by apply String.eqb_eq. }
  rewrite !fmap_app. cbn [fmap list_fmap].
  split; apply NoDup_app; (split; [done|]); (split; [|apply NoDup_singleton]);
    intros x Hx Hx'; apply list_elem_of_singleton in Hx'; subst x;
    apply list_elem_of_fmap in Hx as (e & Heq & He);
    destruct (Hfresh e He); congruence.
Qed.

(** The three mutations keep the names and the identifiers of the stored
    definitions pairwise different. *)
Lemma create_keeps_unique (oid : ObjectId) (now : Time) (b : SchemaBody) (s : Server) :
  uniqueStore s -> uniqueStore (create oid now b s).2.
Proof.
  unfold uniqueStore, create. intros [Hn Hi].
  destruct (validateCreate b); run; [|done].
  unfold createBody, findOne. run.
  destruct (List.find _ (schemas s)); run; [done|].
  unfold saveNew. run.
  destruct (validate _) eqn:Hv; run; [|done].
  destruct (existsb _ (schemas s)) eqn:Hex; run; [done|].
  unfold mongoose_model. run.
  destruct (decide _); run; by apply unique_snoc.
Qed.

Lemma replace_keeps_unique (d d1 : SchemaDoc) (l : list SchemaDoc) :
  List.find (hasId (_id d1)) l = Some d ->
  collectionName d1 = collectionName d ->
  NoDup (collectionName <$> l) /\ NoDup (_id <$> l) ->
  NoDup (collectionName <$> replace d1 l) /\ NoDup (_id <$> replace d1 l).
Proof.
  intros Hfind Hname [Hn Hi].
  rewrite (fmap_replace collectionName d d1 l Hfind Hname).
  rewrite (fmap_replace _id d d1 l Hfind); [done|].
  by apply find_hasId in Hfind.
Qed.

Lemma update_keeps_unique (id : string) (now : Time) (b : SchemaBody) (s : Server) :
  uniqueStore s -> uniqueStore (update id now b s).2.
Proof.
  unfold uniqueStore, update. intros H.
  destruct (validateUpdate id b); run; [|done].
  unfold updateBody, findById. run.
  destruct (Mongoose.castObjectId id) as [oid|]; run; [|done].
  destruct (List.find _ (schemas s)) as [d|] eqn:Hfind; run; [|done].
  unfold save. run.
  destruct (validate _) eqn:Hv; run; [|done].
  pose proof (find_hasId _ _ _ Hfind) as Hid.
  apply (replace_keeps_unique d); [|by rewrite merge_closed_form|done].
  rewrite merge_closed_form. cbn. by rewrite Hid.
Qed.

Lemma softDelete_keeps_unique (id : string) (now : Time) (s : Server) :
  uniqueStore s -> uniqueStore (softDelete id now s).2.
Proof.
  unfold uniqueStore, softDelete. intros H.
  destruct (validateId id); run; [|done].
  unfold softDeleteBody, findById. run.
  destruct (Mongoose.castObjectId id) as [oid|]; run; [|done].
  destruct (List.find _ (schemas s)) as [d|] eqn:Hfind; run; [|done].
  unfold save. run.
  destruct (validate _) eqn:Hv; run; [|done].
  pose proof (find_hasId _ _ _ Hfind) as Hid.
  apply (replace_keeps_unique d); [| |done].
  - by rewrite deactivate_id, Hid.
  - unfold deactivate. by destruct (isActive d).
Qed.

End RegistryProps.



Lemma schema_create_then_lookup_witness :
  exists doc s',
    SchemaRoutes.create ordersId 2000 ordersBody boot = (Created doc, s') /\
    (SchemaQueries.getByCollection " ORDERS " s').1 = Ok doc.
Proof.
  destruct (SchemaRoutes.create ordersId 2000 ordersBody boot) as [r s'] eqn:E.
  assert (Hr : r = Created (SchemaRoutes.newSchema ordersId 2000 ordersBody "orders")).
  { apply (f_equal fst) in E. cbn [fst] in E. rewrite <- E. reflexivity. }
  subst r. eexists _, s'. split; [reflexivity|].
  destruct (schema_create_then_lookup _ _ _ _ _ _ E) as (_ & _ & _ & _ & H).
  apply (H " ORDERS "). reflexivity.
Defined.

Lemma schema_softDelete_hidden_witness :
  (SchemaQueries.getByCollection "Orders"
     (SchemaRoutes.softDelete ordersId 3000 registered).2).1
  = NotFound "Schema not found for this collection".
Proof.
  assert (Hu : uniqueStore registered).
  { split; cbn; apply NoDup_singleton. }
  destruct (schema_softDelete_hidden ordersId ordersId 3000 registered
              (ordersSchema true) eq_refl eq_refl eq_refl Hu)
    as (_ & _ & _ & H & _).
  apply (H "Orders"). reflexivity.
Defined.

(** Whatever sequence of schema creates, updates and soft deletes the
    process answers, the stored definitions keep pairwise different
    collection names and identifiers (at most one definition per name,
    active or not) and every one of them passes the document validation. *)
Theorem schema_registry_invariant
    (engine : Engine)
    (rs : list Process.Request) (s : Server) :
  forallb Process.isSchemaMutation rs = true ->
  uniqueStore s -> validStore s ->
  uniqueStore (Process.serveAll engine s rs) /\
  validStore (Process.serveAll engine s rs).
Proof.
  revert s. induction rs as [|r rs IH]; intros s Hall Hu Hv; [done|].
  cbn [forallb] in Hall. apply andb_prop in Hall as [Hr Hall].
  cbn [Process.serveAll foldl]. apply IH; [done| |].
  - destruct r; try discriminate; cbn [Process.serve].
    + by apply create_keeps_unique.
    + by apply update_keeps_unique.
    + by apply softDelete_keeps_unique.
  - destruct r; try discriminate; cbn [Process.serve].
    + by apply create_keeps_valid.
    + by apply update_keeps_valid.
    + by apply softDelete_keeps_valid.
Qed.

Lemma schema_registry_invariant_witness :
  let rs := [ Process.CreateSchema ordersId 2000 ordersBody;
              Process.SoftDeleteSchema ordersId 3000;
              Process.CreateSchema otherId 4000 ordersBody ] in
  uniqueStore (Process.serveAll plainEngine boot rs).
Proof.
  intros rs.
  apply (schema_registry_invariant plainEngine rs boot).
  - reflexivity.
  - split; constructor.
  - constructor.
Defined.

Section Compilation.
Import SchemaModel SchemaRoutes.

Lemma mongoose_model_registered (n : string) (sch : Mongoose.Schema) (s : Server) :
  n ∈ mongooseModels s ->
  mongoose_model n sch s = (inl (OverwriteModelError n), s).
Proof.
  intros H. unfold mongoose_model. run. by destruct (decide (n ∈ mongooseModels s)).
Qed.

Lemma getModelFromSchema_registered (n : string) (s : Server) :
  collectionsCache s !! n = None -> n ∈ mongooseModels s ->
  (Collections.getModelFromSchema n s).1 = inl (OverwriteModelError n).
Proof.
  intros Hc Hr. unfold Collections.getModelFromSchema. run. rewrite Hc.
  rewrite getByCollectionName_run. run.
  destruct (activeDefinition s n); run;
    rewrite mongoose_model_registered by done; reflexivity.
Qed.

Lemma getDynamicModel_registered (n : string) (s : Server) :
  universalCache s !! n = None -> n ∈ mongooseModels s ->
  (Universal.getDynamicModel n s).1 = inl (OverwriteModelError n).
Proof.
  intros Hc Hr. unfold Universal.getDynamicModel. run. rewrite Hc. run.
  rewrite mongoose_model_registered by done. reflexivity.
Qed.

Lemma deleteWith_model_error (getModel : string -> M Mongoose.Model)
    (message n rawId : string) (e : Error) (s : Server) :
  Validator.isMongoId rawId = true ->
  (getModel n s).1 = inl e ->
  (DocumentRoutes.deleteWith getModel message n rawId s).1 = ServerError message e.
Proof.
  intros Hid Hm. unfold DocumentRoutes.deleteWith, DocumentRoutes.validateDocumentId,
    Validator.required, DocumentRoutes.deleteBody.
  rewrite Hid. run. destruct (getModel n s) as [[e'|m] s1]; cbn in Hm; [|done].
  by injection Hm as ->.
Qed.


End Compilation.



(** Creating a definition compiles a model under its collection name.  For
    the rest of the process neither document router can compile its own
    model for that name: unless the router had the model cached before, its
    model lookup, and with it every request for that collection, fails with
    500 (OverwriteModelError). *)
Theorem schema_create_blocks_document_routes
    (oid : ObjectId) (now : Time) (b : SchemaRoutes.SchemaBody)
    (s s' : Server) (doc : SchemaModel.SchemaDoc) :
  SchemaRoutes.create oid now b s = (Created doc, s') ->
  let n := SchemaModel.collectionName doc in
  (collectionsCache s !! n = None ->
   (Collections.getModelFromSchema n s').1 = inl (OverwriteModelError n) /\
   forall rawId, Validator.isMongoId rawId = true ->
     (DocumentRoutes.collectionsDelete n rawId s').1
     = ServerError "Error deleting document" (OverwriteModelError n)) /\
  (universalCache s !! n = None ->
   (Universal.getDynamicModel n s').1 = inl (OverwriteModelError n) /\
   forall rawId, Validator.isMongoId rawId = true ->
     (DocumentRoutes.universalDelete n rawId s').1
     = ServerError "Error deleting document" (OverwriteModelError n)).
Proof.
  intros Hc n.
  destruct (create_Created_inv oid now b s s' doc Hc)
    as (_ & _ & _ & _ & _ & Hreg & Hu & Hcc & _).
  assert (Hin : n ∈ mongooseModels s') by (rewrite Hreg; set_solver).
  split; intros Hmiss.
  - assert (H : (Collections.getModelFromSchema n s').1 = inl (OverwriteModelError n)).
    { apply getModelFromSchema_registered; [by rewrite Hcc|done]. }
    split; [done|]. intros rawId Hid. by apply deleteWith_model_error.
  - assert (H : (Universal.getDynamicModel n s').1 = inl (OverwriteModelError n)).
    { apply getDynamicModel_registered; [by rewrite Hu|done]. }
    split; [done|]. intros rawId Hid. by apply deleteWith_model_error.
Qed.

Lemma schema_create_blocks_document_routes_witness :
  exists doc s',
    SchemaRoutes.create ordersId 2000 ordersBody boot = (Created doc, s') /\
    (DocumentRoutes.collectionsDelete "orders" otherId s').1
    = ServerError "Error deleting document" (OverwriteModelError "orders").
Proof.
  destruct (SchemaRoutes.create ordersId 2000 ordersBody boot) as [r s'] eqn:E.
  assert (Hr : r = Created (SchemaRoutes.newSchema ordersId 2000 ordersBody "orders")).
  { apply (f_equal fst) in E. cbn [fst] in E. rewrite <- E. reflexivity. }
  subst r. eexists _, s'. split; [reflexivity|].
  destruct (schema_create_blocks_document_routes _ _ _ _ _ _ E) as [H _].
  destruct (H eq_refl) as [_ H']. apply (H' otherId). reflexivity.
Defined.

Section Visibility.
Import SchemaModel SchemaRoutes.

Lemma find_only {A} (p : A -> bool) (l : list A) (d : A) :
  (forall e, e ∈ l -> e = d \/ p e = false) -> d ∈ l -> p d = true ->
  List.find p l = Some d.
Proof.
  induction l as [|x l IH]; intros Hall Hin Hp; [by apply not_elem_of_nil in Hin|].
  cbn [List.find].
  destruct (Hall x (list_elem_of_here _ _)) as [->|Hx].
  - by rewrite Hp.
  - rewrite Hx. apply IH; [|by apply elem_of_cons in Hin as [->|?]; [congruence|]|done].
    intros e He. apply Hall. by right.
Qed.

Lemma replace_In (d d1 : SchemaDoc) (l : list SchemaDoc) :
  List.find (hasId (_id d1)) l = Some d -> d1 ∈ replace d1 l.
Proof.
  induction l as [|x l IH]; cbn [List.find replace]; [done|].
  destruct (hasId (_id d1) x); [intros _; by left|].
  intros H. right. by apply IH.
Qed.

(** An update decides whether the definition is visible to the lookup by
    collection name: with [isActive: true] in the body a soft-deleted
    definition is active again and found (in its updated form), with
    [isActive: false] it is hidden, and without the key it stays as it was. *)
Theorem schema_update_controls_visibility
    (rawId : string) (oid : ObjectId) (now : Time)
    (b : SchemaBody) (s : Server) (d : SchemaDoc) :
  Mongoose.castObjectId rawId = Some oid ->
  lookup s oid = Some d ->
  b_displayName b <> Some "" ->
  validate (merge b d) = true ->
  uniqueStore s ->
  let s1 := (update rawId now b s).2 in
  let d1 := set_updatedAt now (merge b d) in
  isActive d1 = from_option id (isActive d) (b_isActive b) /\
  forall n, castCollectionName n = collectionName d ->
    (SchemaQueries.getByCollection n s1).1 =
    if isActive d1 then Ok d1
    else NotFound "Schema not found for this collection".
Proof.
  intros Hcast Hfind Hname Hvalid [Hnames _] s1 d1.
  pose proof (find_hasId _ _ _ Hfind) as Hid.
  assert (Hd1 : _id d1 = oid /\ collectionName d1 = collectionName d /\
                isActive d1 = from_option id (isActive d) (b_isActive b)).
  { subst d1. rewrite merge_closed_form. by cbn. }
  destruct Hd1 as (Hid1 & Hname1 & Hact1).
  assert (Hs1 : schemas s1 = replace d1 (schemas s)).
  { subst s1. by rewrite (update_run rawId oid now b s d Hcast Hfind Hname Hvalid). }
  assert (Hfind' : List.find (hasId (_id d1)) (schemas s) = Some d)
    by (by rewrite Hid1).
  clearbody d1 s1.
  split; [done|]. intros n Hn.
  rewrite getByCollection_run. unfold activeDefinition. rewrite Hs1.
  assert (Hothers : forall e, e ∈ replace d1 (schemas s) ->
            e = d1 \/
            matches (Store.mkFilter (Some (JS.toLowerCase n)) (Some true)) e = false).
  { intros e He.
    destruct (replace_elements collectionName d d1 _ Hnames Hfind' e He)
      as [->|[_ Hne]]; [by left|right].
    unfold matches. cbn. rewrite castCollectionName_lowered, Hn.
    by destruct (String.eqb_spec (collectionName e) (collectionName d)). }
  destruct (isActive d1) eqn:Ha.
  - rewrite (find_only _ _ d1 Hothers); [done|by apply (replace_In d)|].
    unfold matches. cbn.
    by rewrite castCollectionName_lowered, Hn, Hname1, String.eqb_refl, Ha.
  - rewrite find_none_forall; [done|].
    intros e He. destruct (Hothers e He) as [->|H]; [|done].
    unfold matches. cbn. rewrite Ha. apply Bool.andb_false_r.
Qed.

End Visibility.

Lemma schema_update_controls_visibility_witness :
  exists d1,
    (SchemaQueries.getByCollection "orders"
       (SchemaRoutes.update ordersId 5000
          (SchemaRoutes.mkBody None None None None None None (Some true))
          retired).2).1 = Ok d1 /\
    SchemaModel.isActive d1 = true.
Proof.
  assert (Hu : uniqueStore retired) by (split; cbn; apply NoDup_singleton).
  destruct (schema_update_controls_visibility ordersId ordersId 5000
              (SchemaRoutes.mkBody None None None None None None (Some true))
              retired (ordersSchema false) eq_refl eq_refl ltac:(discriminate)
              eq_refl Hu) as [Ha H].
  eexists. split; [|exact Ha].
  rewrite (H "orders" eq_refl). reflexivity.
Defined.

(** ** The application: who answers a request *)

Section Application.
Import Router App.

Lemma stripPrefix_app (p q path rest : list string) :
  stripPrefix p path = Some rest ->
  stripPrefix (p ++ q) path = stripPrefix q rest.
Proof.
  revert path. induction p as [|a p IH]; intros path; cbn [stripPrefix app].
  - by intros [= ->].
  - destruct path as [|seg path]; [done|].
    destruct (String.eqb _ _); [apply IH|done].
Qed.

Lemma stripPrefix_app_None (p q path : list string) :
  stripPrefix p path = None -> stripPrefix (p ++ q) path = None.
Proof.
  revert path. induction p as [|a p IH]; intros path; cbn [stripPrefix app].
  - done.
  - destruct path as [|seg path]; [done|].
    destruct (String.eqb _ _); [apply IH|done].
Qed.

(** A public path does not lie below the API mount point. *)
Lemma public_not_api (version : string) (path : list string) :
  isPath ["health"] path = true \/ isPath ["generate-api-key"] path = true \/
  isPath [] path = true ->
  stripPrefix ["api"; version] path = None.
Proof.
  unfold isPath. cbn [fmap list_fmap matchPath stripPrefix].
  destruct path as [|seg path]; [done|].
  destruct (String.eqb_spec (JS.toLowerCase seg) (JS.toLowerCase "api"))
    as [->|_]; [|done].
  intros [H|[H|H]]; cbn in H; done.
Qed.

Lemma dispatch_never_stats (m : Method) (path : list string)
    (params : list (string * string)) :
  dispatch m path <> Some (CollectionStats, params).
Proof.
  unfold dispatch, routes.
  destruct m; cbn [dispatchIn method_eqb];
    destruct path as [|a [|b [|c path]]]; cbn [matchPath];
    repeat match goal with
           | |- context [if ?c then _ else _] => destruct c eqn:?
           | |- context [match ?x with _ => _ end] => destruct x eqn:?
           end; cbn; try discriminate; try congruence.
  all: match goal with
       | H : (JS.toLowerCase ?b =? _)%string = true,
         H2 : JS.nonEmpty ?b = false |- _ =>
           apply String.eqb_eq in H; rewrite (stats_nonEmpty b H) in H2;
           discriminate H2
       end.
Qed.

Lemma dispatch_ListCollections (m : Method) (path : list string)
    (params : list (string * string)) :
  dispatch m path = Some (ListCollections, params) ->
  m = GET /\ stripPrefix ["collections"] path = Some [].
Proof.
  unfold dispatch, routes.
  destruct m; cbn [dispatchIn method_eqb];
    destruct path as [|a [|b [|c path]]]; cbn [matchPath stripPrefix];
    repeat match goal with
           | |- context [if ?c then _ else _] => destruct c eqn:?
           | |- context [match ?x with _ => _ end] => destruct x eqn:?
           end; cbn; try discriminate; try congruence; done.
Qed.

Lemma stripPrefix_api (version : string) (path rest : list string) :
  stripPrefix ["api"; version] path = Some rest ->
  exists below, stripPrefix ["api"] path = Some below.
Proof.
  destruct path as [|seg path]; cbn [stripPrefix]; [done|].
  destruct (String.eqb _ _); [|done]. intros _. by eexists.
Qed.

(** The four ways through a mount point. *)
Lemma mounted_cases {H : Type} (prefix : list string)
    (router : Method -> list string -> option (H * list (string * string)))
    (ans : H -> list (string * string) -> Answer)
    (configKey : string) (r : Request) (k : nat) (next : nat -> Answer) :
  let a := mounted prefix router ans configKey r k next in
  let outcome := Auth.authenticateApiKey configKey (headers r) in
  (exists k', a = next k' /\
     match stripPrefix prefix (path r) with
     | Some rest => forall m, routed (verb r) = Some m -> router m rest = None
     | None => True
     end) \/
  (exists rest, stripPrefix prefix (path r) = Some rest /\
     ((a = Denied outcome /\ forall marks, outcome <> Auth.Next marks) \/
      (a = RateLimited /\ overLimit r k = true /\
       exists marks, outcome = Auth.Next marks) \/
      (exists marks m h ps,
         outcome = Auth.Next marks /\ overLimit r k = false /\
         routed (verb r) = Some m /\
         router m rest = Some (h, ps) /\ a = ans h ps))).
Proof.
  cbv zeta. unfold mounted.
  destruct (stripPrefix prefix (path r)) as [rest|]; [|left; by exists k].
  destruct (Auth.authenticateApiKey configKey (headers r)) as [msg|msg|marks].
  - right. exists rest. split; [done|]. by left.
  - right. exists rest. split; [done|]. by left.
  - destruct (overLimit r k) eqn:Hk.
    { right. exists rest. split; [done|]. right. left. by eauto. }
    destruct (routed (verb r)) as [m|].
    2:{ left. exists (S k). split; [done|]. by intros. }
    destruct (router m rest) as [[h ps]|] eqn:Hr.
    + right. exists rest. split; [done|]. right. right.
      by exists marks, m, h, ps.
    + left. exists (S k). split; [done|]. by intros ? [= <-].
Qed.

(** Steps through the mount point at the head of the answer. *)
Ltac through_mount Hnone :=
  match goal with
  | |- context [mounted ?p ?rt ?an ?ck ?r ?k ?nx] =>
      destruct (mounted_cases p rt an ck r k nx)
        as [(? & -> & Hnone)
           |(? & ? & [[-> ?]|[(-> & ? & ? & ?)
                             |(? & ? & ? & ? & ? & ? & ? & ? & ->)]])];
      cbv beta
  end.

(** What lies behind an answer of the universal router: the path is below
    the API mount point, the router dispatched the rest of it, and the
    collections router, mounted before it, had no route for the request. *)
Lemma answer_Universal (configKey version : string) (r : Request) (h : Handler)
    (params : list (string * string)) :
  answer configKey version r = Universal h params ->
  exists m rest,
    routed (verb r) = Some m /\
    stripPrefix ["api"; version] (path r) = Some rest /\
    dispatch m rest = Some (h, params) /\
    match stripPrefix ["collections"] rest with
    | Some below => route collectionRoutes m below = None
    | None => True
    end.
Proof.
  unfold answer.
  destruct (verb r) as [m0| | |other] eqn:Hverb; destruct (body r); try done;
    (destruct (_ && overLimit r 0); [done|]);
    (destruct (gets r ["health"]); [done|]);
    (destruct (gets r ["generate-api-key"]); [done|]).
  all: through_mount Hd; try done.
  all: through_mount Hs; try done.
  all: through_mount Hc; try done.
  all: through_mount Hu; try done.
  all: try by destruct (gets r []).
  all: match goal with
       | Ha : stripPrefix ["api"; _] _ = Some ?rest,
         Hv : verb _ = _,
         Hm : routed _ = Some ?m |- _ =>
           intros [= <- <-]; exists m, rest; rewrite Hv in Hm, Hc;
           split; [done|]; split; [done|]; split; [done|];
           rewrite (stripPrefix_app _ ["collections"] _ _ Ha) in Hc;
           destruct (stripPrefix ["collections"] rest); [by apply Hc|done]
       end.
Qed.

Lemma answer_fromRouter (configKey version : string) (r : Request) :
  fromRouter (answer configKey version r) = true ->
  exists marks, Auth.authenticateApiKey configKey (headers r) = Auth.Next marks.
Proof.
  unfold answer.
  destruct (verb r) as [m0| | |other] eqn:Hverb; destruct (body r); try done;
    (destruct (_ && overLimit r 0); [done|]);
    (destruct (gets r ["health"]); [done|]);
    (destruct (gets r ["generate-api-key"]); [done|]).
  all: through_mount Hd; try done; try (intros _; by eauto).
  all: through_mount Hs; try done; try (intros _; by eauto).
  all: through_mount Hc; try done; try (intros _; by eauto).
  all: through_mount Hu; try done; try (intros _; by eauto).
  all: by destruct (gets r []).
Qed.

(** A request below the API mount point that the layers in front let
    through and that does not pass the key check is answered by the key
    check of the first mount point that its path lies below. *)
Lemma answer_denied (configKey version : string) (r : Request)
    (rest : list string) :
  verb r <> OPTIONS -> body r = Parsed -> overLimit r 0 = false ->
  stripPrefix ["api"; version] (path r) = Some rest ->
  (forall marks, Auth.authenticateApiKey configKey (headers r) <> Auth.Next marks) ->
  answer configKey version r
    = Denied (Auth.authenticateApiKey configKey (headers r)).
Proof.
  intros Hverb Hbody Hlimit Hapi Hno. unfold answer. rewrite Hbody, Hlimit.
  rewrite Bool.andb_false_r.
  assert (Hh : gets r ["health"] = false).
  { unfold gets. destruct (routed (verb r)) as [[]|]; try done.
    destruct (isPath ["health"] (path r)) eqn:E; [|done].
    rewrite (public_not_api version (path r)) in Hapi; [done|by left]. }
  assert (Hg : gets r ["generate-api-key"] = false).
  { unfold gets. destruct (routed (verb r)) as [[]|]; try done.
    destruct (isPath ["generate-api-key"] (path r)) eqn:E; [|done].
    rewrite (public_not_api version (path r)) in Hapi; [done|by right; left]. }
  rewrite Hh, Hg.
  assert (Hfront : forall X (a b c : X),
            match verb r with
            | OPTIONS => a
            | _ => c
            end = c).
  { intros X a b c. by destruct (verb r). }
  destruct (verb r) eqn:Hv; [| |done|].
  all: through_mount Hd; try done;
    try (match goal with H : _ = Auth.Next _ |- _ => by apply Hno in H end);
    try (match goal with H : exists _, _ = Auth.Next _ |- _ =>
           destruct H as [? H]; by apply Hno in H end).
  all: through_mount Hs; try done;
    try (match goal with H : _ = Auth.Next _ |- _ => by apply Hno in H end);
    try (match goal with H : exists _, _ = Auth.Next _ |- _ =>
           destruct H as [? H]; by apply Hno in H end).
  all: through_mount Hc; try done;
    try (match goal with H : _ = Auth.Next _ |- _ => by apply Hno in H end);
    try (match goal with H : exists _, _ = Auth.Next _ |- _ =>
           destruct H as [? H]; by apply Hno in H end).
  all: unfold mounted; rewrite Hapi;
    destruct (Auth.authenticateApiKey configKey (headers r)) as [msg|msg|marks];
    [done|done|by destruct (Hno marks)].
Qed.

End Application.

(** Everything below [/api/<version>] is behind the key.  A handler of one
    of the four routers answers only a request that presents the configured
    key, whatever the method, the body and the verdicts of the rate
    limiter; and a request below the mount point that does not present the
    key reaches no route, also where none exists: [cors()] answers it when
    it is an OPTIONS request, it goes to the error handler when its body
    does not parse, the rate limiter turns it down when it is over the
    limit, and in every other case [authenticateApiKey] answers it (401 or
    403), whatever its method and the rest of its path. *)
Theorem app_api_requires_key (configKey version : string) (r : App.Request) :
  (App.fromRouter (App.answer configKey version r) = true ->
   Auth.presentedKey (App.headers r) = Some configKey /\
   JS.nonEmpty configKey = true) /\
  (forall rest,
     App.stripPrefix ["api"; version] (App.path r) = Some rest ->
     Auth.presentedKey (App.headers r) <> Some configKey ->
     App.answer configKey version r
       = match App.verb r, App.body r with
         | App.OPTIONS, _ => App.Preflight
         | _, App.ParseFailed => App.ParserError
         | _, App.Parsed =>
             if App.overLimit r 0 then App.RateLimited
             else App.Denied (Auth.authenticateApiKey configKey (App.headers r))
         end /\
     ((exists msg,
         Auth.authenticateApiKey configKey (App.headers r) = Auth.Unauthorized msg) \/
      (exists msg,
         Auth.authenticateApiKey configKey (App.headers r) = Auth.Forbidden msg))).
Proof.
  pose proof (authenticate_cases configKey (App.headers r)) as (Hnext & _ & _ & _).
  split.
  - intros H. apply answer_fromRouter in H as (marks & Ha).
    apply Hnext. by exists marks.
  - intros rest Hapi Hkey.
    assert (Hno : forall marks,
              Auth.authenticateApiKey configKey (App.headers r) <> Auth.Next marks).
    { intros marks Ha. apply Hkey. apply Hnext. by exists marks. }
    split.
    + destruct (App.body r) eqn:Hbody.
      2:{ unfold App.answer. rewrite Hbody. by destruct (App.verb r). }
      destruct (App.overLimit r 0) eqn:Hlimit.
      * unfold App.answer. rewrite Hbody, Hlimit.
        destruct (stripPrefix_api version _ _ Hapi) as [below ->].
        by destruct (App.verb r).
      * destruct (App.verb r) eqn:Hverb;
          try (rewrite (answer_denied configKey version r rest); try done;
               by rewrite Hverb).
        unfold App.answer. by rewrite Hverb.
    + destruct (Auth.authenticateApiKey configKey (App.headers r)) as [msg|msg|marks];
        [left; by exists msg|right; by exists msg|by destruct (Hno marks)].
Qed.

(** A PATCH request with a wrong key on a path that no router has a route
    for is answered with 403; the same request sent as OPTIONS is answered
    by [cors()], and with a body that does not parse it goes to the error
    handler. *)
Lemma app_api_requires_key_witness :
  let request v b :=
    App.mkRequest v ["api"; "v1"; "no"; "such"; "route"]
      {[ "x-api-key" := "guess" ]} b (fun _ => false) in
  App.answer "s3cret" "v1" (request (App.Standard Router.PATCH) App.Parsed)
    = App.Denied (Auth.Forbidden "Invalid API key. Access denied.") /\
  App.answer "s3cret" "v1" (request App.OPTIONS App.Parsed) = App.Preflight /\
  App.answer "s3cret" "v1" (request (App.Standard Router.POST) App.ParseFailed)
    = App.ParserError.
Proof.
  intros request.
  assert (Hkey : Auth.presentedKey {[ "x-api-key" := "guess" ]} <> Some "s3cret").
  { intros E. vm_compute in E. discriminate E. }
  split; [|split].
  - destruct (app_api_requires_key "s3cret" "v1"
                (request (App.Standard Router.PATCH) App.Parsed)) as [_ H].
    destruct (H ["no"; "such"; "route"] eq_refl Hkey) as [-> _]. reflexivity.
  - destruct (app_api_requires_key "s3cret" "v1"
                (request App.OPTIONS App.Parsed)) as [_ H].
    destruct (H ["no"; "such"; "route"] eq_refl Hkey) as [-> _]. reflexivity.
  - destruct (app_api_requires_key "s3cret" "v1"
                (request (App.Standard Router.POST) App.ParseFailed)) as [_ H].
    destruct (H ["no"; "such"; "route"] eq_refl Hkey) as [-> _]. reflexivity.
Defined.

(** Two of the nine handlers of the universal router answer no request that
    reaches the application: the statistics route is shadowed inside the
    router, and [GET /collections] is shadowed by the collections router,
    which is mounted first and answers [GET /api/<version>/collections]
    with its overview.  This holds for every request, whatever its method,
    its body and the verdicts of the rate limiter. *)
Theorem app_dead_universal_handlers
    (configKey version : string) (headers : gmap string string) :
  (forall m path params,
     App.handle configKey version headers m path
       <> App.Universal Router.ListCollections params /\
     App.handle configKey version headers m path
       <> App.Universal Router.CollectionStats params) /\
  (forall marks,
     Auth.authenticateApiKey configKey headers = Auth.Next marks ->
     App.handle configKey version headers Router.GET ["api"; version; "collections"]
       = App.Collections App.CollectionsOverview []) /\
  (forall r params,
     App.answer configKey version r
       <> App.Universal Router.ListCollections params /\
     App.answer configKey version r
       <> App.Universal Router.CollectionStats params).
Proof.
  assert (Hall : forall r params,
            App.answer configKey version r
              <> App.Universal Router.ListCollections params /\
            App.answer configKey version r
              <> App.Universal Router.CollectionStats params).
  { intros r params. split; intros H;
      apply answer_Universal in H as (m & rest & _ & _ & Hd & Hc).
    - apply dispatch_ListCollections in Hd as [-> Hs].
      rewrite Hs in Hc. discriminate Hc.
    - by apply dispatch_never_stats in Hd. }
  split; [|split; [|exact Hall]].
  - intros m path params. apply Hall.
  - intros marks Ha.
    assert (Hapi : App.stripPrefix ["api"; version] ["api"; version; "collections"]
                   = Some ["collections"]).
    { cbn [App.stripPrefix]. by rewrite !String.eqb_refl. }
    unfold App.handle, App.answer, App.mounted.
    cbn [App.verb App.body App.path App.headers App.overLimit].
    rewrite (stripPrefix_app _ ["database"] _ _ Hapi),
      (stripPrefix_app _ ["schemas"] _ _ Hapi),
      (stripPrefix_app _ ["collections"] _ _ Hapi), Ha.
    reflexivity.
Qed.

Lemma app_dead_universal_handlers_witness :
  App.handle "s3cret" "v1" {[ "x-api-key" := "s3cret" ]} Router.GET
    ["api"; "v1"; "collections"]
  = App.Collections App.CollectionsOverview [].
Proof.
  destruct (app_dead_universal_handlers "s3cret" "v1" {[ "x-api-key" := "s3cret" ]})
    as (_ & H & _).
  exact (H _ eq_refl).
Defined.
(** ** What a restore reports, and the restore of an exported backup *)

Section RestoreReport.
Import Store Collection.

Variable engine : Engine.


Lemma member_Inherited (b : Database.Backup) (n : string) :
  Database.member b n = Database.Inherited -> Database.ownEntry b n = None.
Proof.
  unfold Database.member. destruct (Database.ownEntry b n); [done|].
  by destruct (JS.isPrototypeMember n).
Qed.






End RestoreReport.



Section BackupRestore.
Import Store Collection BackupRoute.

Variable engine : Engine.
Variable databaseName : string.
Variable now : string.
Variable stats : Server -> string -> option (Z * Z).
Variable indexes : Server -> string -> list IndexDescriptor.

Lemma lookupEntry_absent (k : string) (l : list (string * Database.CollectionBackup)) :
  JS.hasOwn k l = false -> lookupEntry l k = None.
Proof.
  unfold JS.hasOwn, lookupEntry.
  induction l as [|[k' v'] l IH]; cbn [existsb List.find fst]; [done|].
  destruct (String.eqb k' k); [done|exact IH].
Qed.














End BackupRestore.


(** ** Reading a document back *)

Section ReadBack.
Import Store Collection DocumentRoutes.

Lemma getDocument_run (collection rawId : string) (oid : ObjectId) (s s1 : Server)
    (m : Mongoose.Model) :
  Mongoose.castObjectId rawId = Some oid ->
  Universal.getDynamicModel collection s = (inr m, s1) ->
  let coll := Mongoose.collection (Mongoose.schema m) in
  getById collection rawId s
  = (match documents (read s1 coll) !! oid with
     | Some body => Ok (mkDocument oid body)
     | None => NotFound "Document not found"
     end,
     set_dbLog (dbLog s1 ++ [ModelFindById coll rawId]) s1).
Proof.
  intros Hcast Hm coll.
  unfold getById, validateDocumentId, Validator.required.
  rewrite (cast_isMongoId rawId oid Hcast). run.
  unfold getByIdBody. run. rewrite Hm. run.
  unfold findById. run. rewrite Hcast. run. fold coll.
  unfold read. srv.
  by destruct (documents (default Store.empty (collections s1 !! coll)) !! oid).
Qed.

(** What lies behind the success of the universal delete handler. *)
Lemma universalDelete_Ok (collection rawId : string) (s s' : Server) :
  universalDelete collection rawId s = (Ok tt, s') ->
  exists oid m s1 body,
    Mongoose.castObjectId rawId = Some oid /\
    Universal.getDynamicModel collection s = (inr m, s1) /\
    let coll := Mongoose.collection (Mongoose.schema m) in
    documents (read s1 coll) !! oid = Some body /\
    s' = set_collections
           (<[coll := mkCollection (delete oid (documents (read s1 coll)))
                        (created_indexes (read s1 coll))]> (collections s1))
           (set_dbLog (dbLog s1 ++ [ModelFindByIdAndDelete coll rawId]) s1).
Proof.
  unfold universalDelete, deleteWith, validateDocumentId, Validator.required.
  destruct (Validator.isMongoId rawId); run; [|done].
  unfold deleteBody. run.
  destruct (Universal.getDynamicModel collection s) as [[e|m] s1] eqn:Hm; run;
    [done|].
  unfold findByIdAndDelete, write. run.
  destruct (Mongoose.castObjectId rawId) as [oid|]; run; [|done].
  unfold read. srv.
  set (coll := Mongoose.collection (Mongoose.schema m)).
  destruct (documents (default Store.empty (collections s1 !! coll)) !! oid)
    as [body|] eqn:Hdoc; run; [|done].
  intros [= <-]. by exists oid, m, s1, body.
Qed.

(** A deleted document cannot be read back: when [DELETE /:collection/:id]
    answers 200, the same identifier was readable with [GET /:collection/:id]
    before the request and is answered with 404 after it, and the read
    changes no collection. *)
Theorem document_delete_then_get (collection rawId : string) (s s' : Server) :
  universalDelete collection rawId s = (Ok tt, s') ->
  (exists d, (getById collection rawId s).1 = Ok d /\
             Mongoose.castObjectId rawId = Some (doc_id d)) /\
  (getById collection rawId s').1 = NotFound "Document not found" /\
  collections (getById collection rawId s').2 = collections s'.
Proof.
  intros H.
  apply universalDelete_Ok in H as (oid & m & s1 & body & Hcast & Hm & Hdoc & ->).
  cbv zeta in Hdoc.
  set (coll := Mongoose.collection (Mongoose.schema m)) in *.
  split.
  - rewrite (getDocument_run collection rawId oid s s1 m Hcast Hm). fold coll.
    rewrite Hdoc. by eexists.
  - match goal with
    | |- context [set_collections ?v (set_dbLog ?w s1)] =>
        pose proof (getDynamicModel_again _ _ _ _ Hm v w) as Hagain;
        rewrite (getDocument_run collection rawId oid _ _ m Hcast Hagain)
    end.
    fold coll. rewrite read_write. cbn [documents].
    by rewrite lookup_delete_eq.
Qed.

End ReadBack.

Lemma document_delete_then_get_witness :
  let s' := (DocumentRoutes.universalDelete "orders" ordersId stocked).2 in
  (DocumentRoutes.getById "orders" ordersId stocked).1
    = Ok (Store.mkDocument ordersId "{ amount: 20 }") /\
  (DocumentRoutes.getById "orders" ordersId s').1 = NotFound "Document not found".
Proof.
  intros s'.
  destruct (document_delete_then_get "orders" ordersId stocked s' eq_refl)
    as (_ & H & _).
  split; [reflexivity|exact H].
Defined.

(** ** The filter object as a whole *)

(** The filter that the list handlers hand to the database is determined
    key by key, whatever the order in which the loop meets the keys: it has
    an entry exactly for the keys of the query string other than [page],
    [limit], [sort] and [fields], and the entry is the translation of the
    value of that key.  A document field with one of the four reserved
    names can therefore not be filtered on. *)
Theorem query_filter_keys (q : gmap string string) :
  (forall k, k ∈ dom (QueryTranslator.buildFilter q) <->
     k ∈ dom q /\ k ∉ QueryTranslator.reserved) /\
  (forall k v, q !! k = Some v -> k ∉ QueryTranslator.reserved ->
     QueryTranslator.buildFilter q !! k = Some (QueryTranslator.translateValue v)).
Proof.
  assert (Hres : forall k, QueryTranslator.isReserved k = true <->
                           k ∈ QueryTranslator.reserved).
  { intros k. unfold QueryTranslator.isReserved. rewrite existsb_exists. split.
    - intros (x & Hin & Heq). apply String.eqb_eq in Heq as ->.
      by apply list_elem_of_In.
    - intros Hin. exists k. split; [by apply list_elem_of_In|].
      apply String.eqb_refl. }
  split.
  - intros k. rewrite !elem_of_dom, buildFilter_lookup, <- Hres.
    destruct (QueryTranslator.isReserved k).
    + split; [by intros [? ?]|by intros [_ H]; destruct H].
    + rewrite fmap_is_Some. split; [by split|by intros [? _]].
  - intros k v Hq Hk. rewrite buildFilter_lookup, Hq.
    destruct (QueryTranslator.isReserved k) eqn:E; [|done].
    by apply Hres in E.
Qed.

Lemma query_filter_keys_witness :
  QueryTranslator.buildFilter {[ "limit" := "5"; "status" := "true" ]}
    !! "status" = Some (QueryTranslator.P_bool true) /\
  "limit" ∉ dom (QueryTranslator.buildFilter {[ "limit" := "5"; "status" := "true" ]}).
Proof.
  destruct (query_filter_keys {[ "limit" := "5"; "status" := "true" ]}) as [Hd Hl].
  split.
  - rewrite (Hl "status" "true"); [reflexivity|reflexivity|].
    intros H. vm_compute in H. 
    repeat (apply elem_of_cons in H as [H|H]; [discriminate H|]).
    by apply not_elem_of_nil in H.
  - intros H. apply Hd in H as [_ H]. apply H.
    right. left.
Defined.

(** ** A model name taken in the registry stays taken *)

Section Blocked.

Variable n : string.










Variable engine : Engine.






End Blocked.

